(** * linux-whispr: the audio-capture / voice-activity / dictation-state core

    A shallow embedding of [linux_whispr/audio/vad.py],
    [linux_whispr/audio/capture.py], [linux_whispr/events.py] and the
    recording part of [linux_whispr/app.py], with the properties of the
    specification stated and proved over it.

    Conventions of the embedding
    - Python methods that mutate [self] are computations of the
      state-and-exception monad [Py]: a raised exception keeps every
      mutation made before the [raise], as in Python.
    - [time.monotonic()] is an argument [now] of the method that reads it.
      Python floats (timestamps, probabilities, thresholds) are exact
      rationals [Q].
    - int16 samples are integers [Z]; a numpy array is the list of its
      elements in C order.
    - dicts keyed by strings are [gmap string _]. *)

From Stdlib Require Import ZArith QArith Lia.
From stdpp Require Import base option list gmap strings.

Local Open Scope string_scope.
Local Open Scope list_scope.

(** ** Exceptions and the state-and-exception monad *)

Inductive exn : Type :=
| RuntimeError (msg : string)
| AttributeError (msg : string)
| IndexError (msg : string)
| ValueError (msg : string)
| TypeError (msg : string)
| PortAudioError (msg : string)
| EOFError
| wave_Error (msg : string)
| struct_error (msg : string).

Inductive outcome (A : Type) : Type :=
| Return (a : A)
| Raise (e : exn).
Arguments Return {A} a.
Arguments Raise {A} e.

Definition Py (S A : Type) : Type := S -> outcome A * S.

Definition ret {S A} (a : A) : Py S A := fun s => (Return a, s).
Definition raise {S A} (e : exn) : Py S A := fun s => (Raise e, s).
Definition bind {S A B} (m : Py S A) (k : A -> Py S B) : Py S B :=
  fun s => match m s with
           | (Return a, s') => k a s'
           | (Raise e, s') => (Raise e, s')
           end.
Definition get {S} : Py S S := fun s => (Return s, s).
Definition gets {S A} (f : S -> A) : Py S A := fun s => (Return (f s), s).
Definition modify {S} (f : S -> S) : Py S unit := fun s => (Return tt, f s).

(** Run a computation on a component of the state (an attribute holding an
    object, or an object together with the runtime it shares). *)
Definition zoom {S T A} (proj : S -> T) (upd : T -> S -> S) (m : Py T A) : Py S A :=
  fun s => let (r, t') := m (proj s) in (r, upd t' s).

Declare Scope py_scope.
Delimit Scope py_scope with py.
Notation "'let!' x ':=' m 'in' k" := (bind m (fun x => k))
  (at level 10, x name, m at level 100, k at level 200) : py_scope.
Notation "m >> k" := (bind m (fun _ => k))
  (at level 100, k at level 200, right associativity) : py_scope.
Local Open Scope py_scope.

Definition when {S} (b : bool) (m : Py S unit) : Py S unit :=
  if b then m else ret tt.

(** [for x in xs: body x], stopping at the first exception. *)
Fixpoint for_each {S A} (xs : list A) (body : A -> Py S unit) : Py S unit :=
  match xs with
  | [] => ret tt
  | x :: xs' => body x >> for_each xs' body
  end.

Definition result_of {S A} (r : outcome A * S) : outcome A := fst r.
Definition state_of {S A} (r : outcome A * S) : S := snd r.

Definition raises {A} (r : outcome A) : bool :=
  match r with Raise _ => true | Return _ => false end.

(** ** Numbers *)

(** Python's [x < y] and [x >= y] on floats, over exact rationals. *)
Definition Qltb (x y : Q) : bool := negb (Qle_bool y x).
Definition Qgeb (x y : Q) : bool := Qle_bool y x.

(** A numpy array, flattened. [np.zeros(shape)] is [np_zeros] of the
    product of the shape. *)
Definition ndarray : Type := list Q.
Definition np_zeros (n : nat) : ndarray := replicate n 0%Q.
Arguments np_zeros : simpl never.

(** ** constants.py *)

Definition AUDIO_SAMPLE_RATE : Z := 16000.
Definition AUDIO_CHANNELS : Z := 1.
Definition AUDIO_DTYPE : string := "int16".
Definition AUDIO_BLOCKSIZE : Z := 1024.
Definition VAD_THRESHOLD : Q := 5 # 10.
Definition VAD_SILENCE_DURATION : Q := 2.
Definition VAD_MIN_SPEECH_DURATION : Q := 3 # 10.
Definition MAX_RECORDING_DURATION : Q := 360.

(** ** The process-level runtime shared by the objects

    The event bus is one object referenced by the application and by the
    capture service; threads are started by several methods; the module
    loggers write to one log; PortAudio is driven through the stream
    object. They live in one [Runtime] that every method reaching them
    threads through, so that aliasing is by construction. *)

Inductive AppState : Type := IDLE | RECORDING | PROCESSING | ERROR.

#[global] Instance AppState_eq_dec : EqDecision AppState.
Proof. solve_decision. Defined.

(** Events, by name and keyword arguments. The level carried by
    [audio.level] is [min(1.0, sqrt(mean_square) / 32768.0 * 10.0)]; the
    event records the mean square it is computed from. *)
Inductive Event : Type :=
| Ev_audio_ready (wav_bytes : list Z) (duration : Q)
| Ev_audio_level (mean_square : Q)
| Ev_audio_silence
| Ev_hotkey_dictation_start
| Ev_hotkey_dictation_stop
| Ev_state_change (old_state new_state : AppState).

Definition event_name (e : Event) : string :=
  match e with
  | Ev_audio_ready _ _ => "audio.ready"
  | Ev_audio_level _ => "audio.level"
  | Ev_audio_silence => "audio.silence"
  | Ev_hotkey_dictation_start => "hotkey.dictation.start"
  | Ev_hotkey_dictation_stop => "hotkey.dictation.stop"
  | Ev_state_change _ _ => "state.change"
  end.

Definition is_audio_ready (e : Event) : bool :=
  match e with Ev_audio_ready _ _ => true | _ => false end.

(** Thread bodies started with [threading.Thread(target=...).start()]. *)
Inductive Thread : Type :=
| Th_AudioCapture_stop
| Th_vad_monitor
| Th_process_audio (wav_bytes : list Z) (duration : Q).

Definition is_process_audio (t : Thread) : bool :=
  match t with Th_process_audio _ _ => true | _ => false end.

Definition is_vad_monitor (t : Thread) : bool :=
  match t with Th_vad_monitor => true | _ => false end.

Definition is_stop_thread (t : Thread) : bool :=
  match t with Th_AudioCapture_stop => true | _ => false end.

(** Handlers that can be subscribed: the application's own
    [_on_audio_ready], and observers outside the core (overlay, tray). *)
Inductive Handler : Type :=
| H_on_audio_ready
| H_observer (name : string).

Inductive LogLevel : Type := DEBUG | INFO | WARNING | LOG_ERROR.


Inductive PaCall : Type := Pa_OpenStream | Pa_StartStream | Pa_StopStream | Pa_CloseStream.

Definition is_open (c : PaCall) : bool :=
  match c with Pa_OpenStream => true | _ => false end.
Definition is_close (c : PaCall) : bool :=
  match c with Pa_CloseStream => true | _ => false end.

Record Runtime : Type := mkRuntime {
  handlers : gmap string (list Handler);   (* EventBus._handlers *)
  emitted : list Event;                    (* every emit(), oldest first *)
  threads : list Thread;                   (* every Thread started, oldest first *)
  log : list (LogLevel * string);          (* logger records, oldest first *)
  pa_calls : list PaCall                   (* PortAudio calls, oldest first *)
}.

Definition Runtime0 : Runtime :=
  {| handlers := ∅; emitted := []; threads := []; log := []; pa_calls := [] |}.

Definition set_handlers (h : gmap string (list Handler)) (r : Runtime) : Runtime :=
  {| handlers := h; emitted := emitted r; threads := threads r;
     log := log r; pa_calls := pa_calls r |}.
Definition set_threads (t : list Thread) (r : Runtime) : Runtime :=
  {| handlers := handlers r; emitted := emitted r; threads := t;
     log := log r; pa_calls := pa_calls r |}.

Definition logger (lvl : LogLevel) (msg : string) : Py Runtime unit :=
  modify (fun r => {| handlers := handlers r; emitted := emitted r; threads := threads r;
                      log := log r ++ [(lvl, msg)]; pa_calls := pa_calls r |}).

Definition Thread_start (t : Thread) : Py Runtime unit :=
  modify (fun r => set_threads (threads r ++ [t]) r).

Definition pa_call (c : PaCall) : Py Runtime unit :=
  modify (fun r => {| handlers := handlers r; emitted := emitted r; threads := threads r;
                      log := log r; pa_calls := pa_calls r ++ [c] |}).

#[global] Instance Handler_eq_dec : EqDecision Handler.
Proof. solve_decision. Defined.

(** [list.remove(x)]: the list without its first item equal to [x], or
    [None] where Python raises [ValueError]. *)
Fixpoint list_remove {A} `{EqDecision A} (x : A) (l : list A) : option (list A) :=
  match l with
  | [] => None
  | y :: l' => if decide (y = x) then Some l' else (y ::.) <$> list_remove x l'
  end.

Module EventBus.

(** [on(event, handler)]: [self._handlers[event].append(handler)] on a
    [defaultdict(list)]. *)
Definition on (event : string) (h : Handler) : Py Runtime unit :=
  modify (fun r => set_handlers
                     (<[event := default [] (handlers r !! event) ++ [h]]> (handlers r)) r) >>
  logger DEBUG "Registered handler %s for event '%s'".

(** [LinuxWhispr._on_audio_ready]: starts the [stt-pipeline] thread. Called
    with the keyword arguments of another event it raises [TypeError]. *)
Definition call_handler (h : Handler) (e : Event) : Py Runtime unit :=
  match h with
  | H_on_audio_ready =>
      match e with
      | Ev_audio_ready wav duration => Thread_start (Th_process_audio wav duration)
      | _ => raise (TypeError "unexpected keyword argument")
      end
  | H_observer _ => ret tt
  end.

(** The body of the loop of [emit]: [try: handler(...)] with
    [except Exception: logger.exception(...)]. *)
Definition dispatch (e : Event) (h : Handler) : Py Runtime unit :=
  fun r => match call_handler h e r with
           | (Return _, r') => (Return tt, r')
           | (Raise _, r') => logger LOG_ERROR "Error in handler %s for event '%s'" r'
           end.

(** [emit]: every handler of the event is called in order; an exception
    of a handler is logged and swallowed. The bus records the event. *)
Definition emit (e : Event) : Py Runtime unit :=
  modify (fun r => {| handlers := handlers r; emitted := emitted r ++ [e];
                      threads := threads r; log := log r; pa_calls := pa_calls r |}) >>
  let! hs := gets (fun r => default [] (handlers r !! event_name e)) in
  match hs with
  | [] => ret tt
  | _ =>
      logger DEBUG "Emitting event '%s' to %d handler(s)" >>
      for_each hs (dispatch e)
  end.

(** [off(event, handler)]: [self._handlers[event].remove(handler)] with
    [except ValueError: pass]. The subscript on the [defaultdict(list)]
    inserts a missing key with an empty list; [list.remove] takes out the
    first equal item and raises [ValueError] when there is none. *)
Definition off (event : string) (h : Handler) : Py Runtime unit :=
  let! hs := gets (fun r => default [] (handlers r !! event)) in
  match list_remove h hs with
  | Some hs' => modify (fun r => set_handlers (<[event := hs']> (handlers r)) r)
  | None => modify (fun r => set_handlers (<[event := hs]> (handlers r)) r)
  end.

(** [clear]: [self._handlers.clear()]. *)
Definition clear : Py Runtime unit :=
  modify (set_handlers ∅).

End EventBus.

(** ** audio/vad.py *)

(** [onnxruntime.InferenceSession]: the pluggable scoring function. [run]
    maps the dict of named inputs to the list of outputs. *)
Record InferenceSession : Type := mkSession {
  get_inputs : list string;
  run : gmap string ndarray -> list ndarray
}.

Definition VAD_CHUNK_SAMPLES : nat := 512.

(** [range(0, n, step)]. *)
Definition py_range_step (n step : nat) : list nat :=
  (fun i => i * step) <$> seq 0 ((n + step - 1) `div` step).

Module SileroVAD.

Record t : Type := mk {
  _threshold : Q;
  _silence_duration : Q;
  _min_speech_duration : Q;
  _sample_rate : Z;
  _session : option InferenceSession;
  _state : ndarray;
  _use_state_input : bool;
  _h : option ndarray;                 (* attribute absent until reset() creates it *)
  _c : option ndarray;
  _speech_detected : bool;
  _speech_start_time : option Q;
  _last_speech_time : Q
}.

(** [__init__], with the defaults of the source as the callers use them. *)
Definition __init__ (threshold silence_duration min_speech_duration : Q)
           (sample_rate : Z) : t :=
  {| _threshold := threshold;
     _silence_duration := silence_duration;
     _min_speech_duration := min_speech_duration;
     _sample_rate := sample_rate;
     _session := None;
     _state := np_zeros (2 * 1 * 128);
     _use_state_input := true;
     _h := None; _c := None;
     _speech_detected := false;
     _speech_start_time := None;
     _last_speech_time := 0 |}.

Definition set_session (x : option InferenceSession) (v : t) : t :=
  {| _threshold := _threshold v; _silence_duration := _silence_duration v;
     _min_speech_duration := _min_speech_duration v; _sample_rate := _sample_rate v;
     _session := x; _state := _state v; _use_state_input := _use_state_input v;
     _h := _h v; _c := _c v; _speech_detected := _speech_detected v;
     _speech_start_time := _speech_start_time v;
     _last_speech_time := _last_speech_time v |}.
Definition set_use_state_input (x : bool) (v : t) : t :=
  {| _threshold := _threshold v; _silence_duration := _silence_duration v;
     _min_speech_duration := _min_speech_duration v; _sample_rate := _sample_rate v;
     _session := _session v; _state := _state v; _use_state_input := x;
     _h := _h v; _c := _c v; _speech_detected := _speech_detected v;
     _speech_start_time := _speech_start_time v;
     _last_speech_time := _last_speech_time v |}.
Definition set_state (x : ndarray) (v : t) : t :=
  {| _threshold := _threshold v; _silence_duration := _silence_duration v;
     _min_speech_duration := _min_speech_duration v; _sample_rate := _sample_rate v;
     _session := _session v; _state := x; _use_state_input := _use_state_input v;
     _h := _h v; _c := _c v; _speech_detected := _speech_detected v;
     _speech_start_time := _speech_start_time v;
     _last_speech_time := _last_speech_time v |}.
Definition set_h_c (h c : option ndarray) (v : t) : t :=
  {| _threshold := _threshold v; _silence_duration := _silence_duration v;
     _min_speech_duration := _min_speech_duration v; _sample_rate := _sample_rate v;
     _session := _session v; _state := _state v; _use_state_input := _use_state_input v;
     _h := h; _c := c; _speech_detected := _speech_detected v;
     _speech_start_time := _speech_start_time v;
     _last_speech_time := _last_speech_time v |}.
Definition set_speech_detected (x : bool) (v : t) : t :=
  {| _threshold := _threshold v; _silence_duration := _silence_duration v;
     _min_speech_duration := _min_speech_duration v; _sample_rate := _sample_rate v;
     _session := _session v; _state := _state v; _use_state_input := _use_state_input v;
     _h := _h v; _c := _c v; _speech_detected := x;
     _speech_start_time := _speech_start_time v;
     _last_speech_time := _last_speech_time v |}.
Definition set_speech_start_time (x : option Q) (v : t) : t :=
  {| _threshold := _threshold v; _silence_duration := _silence_duration v;
     _min_speech_duration := _min_speech_duration v; _sample_rate := _sample_rate v;
     _session := _session v; _state := _state v; _use_state_input := _use_state_input v;
     _h := _h v; _c := _c v; _speech_detected := _speech_detected v;
     _speech_start_time := x;
     _last_speech_time := _last_speech_time v |}.
Definition set_last_speech_time (x : Q) (v : t) : t :=
  {| _threshold := _threshold v; _silence_duration := _silence_duration v;
     _min_speech_duration := _min_speech_duration v; _sample_rate := _sample_rate v;
     _session := _session v; _state := _state v; _use_state_input := _use_state_input v;
     _h := _h v; _c := _c v; _speech_detected := _speech_detected v;
     _speech_start_time := _speech_start_time v;
     _last_speech_time := x |}.

(** [reset]: zero the hidden state of the input format in use and the
    speech tracking. *)
Definition reset : Py t unit :=
  let! use_state := gets _use_state_input in
  (if use_state
   then modify (set_state (np_zeros (2 * 1 * 128)))
   else modify (set_h_c (Some (np_zeros (2 * 1 * 64))) (Some (np_zeros (2 * 1 * 64))))) >>
  modify (set_speech_detected false) >>
  modify (set_speech_start_time None) >>
  modify (set_last_speech_time 0).

(** [load]: [model] is what [ort.InferenceSession(str(model_path), ...)]
    evaluates to, after the download when the file is missing; a failure
    of either raises before [self] is touched. *)
Definition load (model : outcome InferenceSession) : Py (t * Runtime) unit :=
  match model with
  | Raise e => raise e
  | Return session =>
      modify (fun s => (set_session (Some session) s.1, s.2)) >>
      let use_state := bool_decide ("state" ∈ get_inputs session) in
      modify (fun s => (set_use_state_input use_state s.1, s.2)) >>
      when (negb use_state)
           (zoom snd (fun r s => (s.1, r))
                 (logger INFO "Silero VAD using legacy format (h/c inputs)")) >>
      zoom fst (fun v s => (v, s.2)) reset >>
      zoom snd (fun r s => (s.1, r)) (logger INFO "Silero VAD loaded from %s")
  end.

(** [float(ort_outputs[0].item())]. *)
Definition output_prob (outs : list ndarray) : Py t Q :=
  match outs !! 0%nat with
  | None => raise (IndexError "list index out of range")
  | Some [p] => ret p
  | Some _ => raise (ValueError "can only convert an array of size 1 to a Python scalar")
  end.

Definition output_at (outs : list ndarray) (i : nat) : Py t ndarray :=
  match outs !! i with
  | None => raise (IndexError "list index out of range")
  | Some a => ret a
  end.

(** One analysis window of [process_chunk]: slice, zero-pad, run the
    model on the window with the current hidden state, keep the new
    hidden state, return the probability. *)
Definition process_window (session : InferenceSession) (audio_float : list Q)
           (start : nat) : Py t Q :=
  let chunk := take VAD_CHUNK_SAMPLES (drop start audio_float) in
  let chunk := if (length chunk <? VAD_CHUNK_SAMPLES)%nat
               then chunk ++ replicate (VAD_CHUNK_SAMPLES - length chunk) 0%Q
               else chunk in
  let! sample_rate := gets _sample_rate in
  let sr : ndarray := [inject_Z sample_rate] in
  let! use_state := gets _use_state_input in
  if use_state then
    let! state := gets _state in
    let ort_outputs :=
      run session (<["input" := chunk]> (<["state" := state]> (<["sr" := sr]> ∅))) in
    let! prob := output_prob ort_outputs in
    let! new_state := output_at ort_outputs 1 in
    modify (set_state new_state) >>
    ret prob
  else
    let! oh := gets _h in
    let! oc := gets _c in
    match oh, oc with
    | Some h, Some c =>
        let ort_outputs :=
          run session (<["input" := chunk]> (<["h" := h]> (<["c" := c]> (<["sr" := sr]> ∅)))) in
        let! prob := output_prob ort_outputs in
        let! new_h := output_at ort_outputs 1 in
        modify (fun v => set_h_c (Some new_h) (_c v) v) >>
        let! new_c := output_at ort_outputs 2 in
        modify (fun v => set_h_c (_h v) (Some new_c) v) >>
        ret prob
    | _, _ => raise (AttributeError "'SileroVAD' object has no attribute '_h'")
    end.

Fixpoint process_windows (session : InferenceSession) (audio_float : list Q)
         (starts : list nat) (prob : Q) : Py t Q :=
  match starts with
  | [] => ret prob
  | start :: rest =>
      let! prob' := process_window session audio_float start in
      process_windows session audio_float rest prob'
  end.

(** [process_chunk]: the probability of the last analysis window. *)
Definition process_chunk (audio_int16 : list Z) : Py t Q :=
  let! osession := gets _session in
  match osession with
  | None => raise (RuntimeError "VAD model not loaded. Call load() first.")
  | Some session =>
      let audio_float := (fun x => (inject_Z x / 32768)%Q) <$> audio_int16 in
      process_windows session audio_float
                      (py_range_step (length audio_float) VAD_CHUNK_SAMPLES) 0%Q
  end.

(** [is_speech]; [now] is [time.monotonic()] read after scoring. *)
Definition is_speech (audio_int16 : list Z) (now : Q) : Py t bool :=
  let! prob := process_chunk audio_int16 in
  let! threshold := gets _threshold in
  if Qgeb prob threshold then
    let! detected := gets _speech_detected in
    when (negb detected)
         (modify (set_speech_detected true) >>
          modify (set_speech_start_time (Some now))) >>
    modify (set_last_speech_time now) >>
    ret true
  else ret false.

(** [should_stop]; [now] is [time.monotonic()]. *)
Definition should_stop (now : Q) : Py t bool :=
  let! detected := gets _speech_detected in
  if negb detected then ret false else
  let! ostart := gets _speech_start_time in
  match ostart with
  | None => ret false
  | Some speech_start_time =>
      let! last_speech_time := gets _last_speech_time in
      let speech_duration := (last_speech_time - speech_start_time)%Q in
      let silence_duration := (now - last_speech_time)%Q in
      let! min_speech := gets _min_speech_duration in
      if Qltb speech_duration min_speech then ret false else
      let! silence := gets _silence_duration in
      ret (Qgeb silence_duration silence)
  end.

(** The [speech_detected] property. *)
Definition speech_detected (v : t) : bool := _speech_detected v.

End SileroVAD.

(** ** Python's [struct] and [wave] modules, as [_to_wav] uses them

    Bytes are integers in [0, 256). The writer follows
    [wave.Wave_write] ([setnchannels], [setsampwidth], [setframerate],
    [writeframes], [close] on a seekable file), the reader
    [wave.Wave_read.initfp]. *)

(** Exceptions without state. *)
Definition obind {A B} (m : outcome A) (k : A -> outcome B) : outcome B :=
  match m with Return a => k a | Raise e => Raise e end.

Notation "'try!' x ':=' m 'in' k" := (obind m (fun x => k))
  (at level 10, x name, m at level 100, k at level 200) : py_scope.

Module struct.

(** The [n] low bytes of [x], least significant first. *)
Fixpoint le_bytes (n : nat) (x : Z) : list Z :=
  match n with
  | O => []
  | S n' => (x `mod` 256)%Z :: le_bytes n' (x `div` 256)%Z
  end.

Fixpoint le_value (bs : list Z) : Z :=
  match bs with
  | [] => 0%Z
  | b :: bs' => (b + 256 * le_value bs')%Z
  end.

(** [struct.pack('<H', x)] and [struct.pack('<L', x)]. *)
Definition pack_H (x : Z) : outcome (list Z) :=
  if ((0 <=? x) && (x <? 2 ^ 16))%Z then Return (le_bytes 2 x)
  else Raise (struct_error "'H' format requires 0 <= number <= 65535").
Definition pack_L (x : Z) : outcome (list Z) :=
  if ((0 <=? x) && (x <? 2 ^ 32))%Z then Return (le_bytes 4 x)
  else Raise (struct_error "'L' format requires 0 <= number <= 4294967295").

(** [struct.unpack_from('<H', bs)] and ['<L'] at the head of [bs]. *)
Definition unpack_H (bs : list Z) : outcome Z :=
  if (length bs <? 2)%nat then Raise (struct_error "unpack_from requires a buffer of at least 2 bytes")
  else Return (le_value (take 2 bs)).
Definition unpack_L (bs : list Z) : outcome Z :=
  if (length bs <? 4)%nat then Raise (struct_error "unpack_from requires a buffer of at least 4 bytes")
  else Return (le_value (take 4 bs)).

End struct.

(** [b'RIFF'], [b'WAVE'], [b'fmt '], [b'data']. *)
Definition b_RIFF : list Z := [82; 73; 70; 70]%Z.
Definition b_WAVE : list Z := [87; 65; 86; 69]%Z.
Definition b_fmt : list Z := [102; 109; 116; 32]%Z.
Definition b_data : list Z := [100; 97; 116; 97]%Z.

#[global] Instance list_Z_eq_dec : EqDecision (list Z) := _.

Module wave.

Definition WAVE_FORMAT_PCM : Z := 1.
Definition WAVE_FORMAT_EXTENSIBLE : Z := 65534.

(** *** Writing *)

(** The 44 header bytes for a data chunk of [datalength] bytes:
    [b'RIFF'] followed by
    [struct.pack('<L4s4sLHHLLHH4s', 36 + datalength, b'WAVE', b'fmt ', 16,
       WAVE_FORMAT_PCM, nchannels, framerate, nchannels * framerate * sampwidth,
       nchannels * sampwidth, sampwidth * 8, b'data')]
    and [struct.pack('<L', datalength)]. *)
Definition header (nchannels sampwidth framerate datalength : Z) : outcome (list Z) :=
  try! form_length := struct.pack_L (36 + datalength) in
  try! fmt_length := struct.pack_L 16 in
  try! format_tag := struct.pack_H WAVE_FORMAT_PCM in
  try! channels := struct.pack_H nchannels in
  try! rate := struct.pack_L framerate in
  try! byte_rate := struct.pack_L (nchannels * framerate * sampwidth) in
  try! block_align := struct.pack_H (nchannels * sampwidth) in
  try! bits := struct.pack_H (sampwidth * 8) in
  try! data_length := struct.pack_L datalength in
  Return (b_RIFF ++ form_length ++ b_WAVE ++ b_fmt ++ fmt_length ++ format_tag
            ++ channels ++ rate ++ byte_rate ++ block_align ++ bits
            ++ b_data ++ data_length).

(** [with wave.open(buf, "wb") as wf: wf.setnchannels(nchannels);
    wf.setsampwidth(sampwidth); wf.setframerate(framerate);
    wf.writeframes(data)] and then [buf.getvalue()].

    [writeframes] writes the header for [len(data) // framesize] whole
    frames, appends the data, and patches both length fields to the
    bytes written when they differ. *)
Definition write (nchannels sampwidth framerate : Z) (data : list Z) : outcome (list Z) :=
  if (nchannels <? 1)%Z then Raise (wave_Error "bad # of channels") else
  if ((sampwidth <? 1) || (4 <? sampwidth))%Z then Raise (wave_Error "bad sample width") else
  if (framerate <=? 0)%Z then Raise (wave_Error "bad frame rate") else
  let initlength := Z.of_nat (length data) in
  let nframes := (initlength `div` (nchannels * sampwidth))%Z in
  let datalength := (nframes * nchannels * sampwidth)%Z in
  try! first_header := header nchannels sampwidth framerate datalength in
  let datawritten := Z.of_nat (length data) in
  if bool_decide (datalength = datawritten) then Return (first_header ++ data)
  else
    try! patched := header nchannels sampwidth framerate datawritten in
    Return (patched ++ data).

(** *** Reading *)

Record params : Type := mk_params {
  nchannels : Z;
  sampwidth : Z;
  framerate : Z;
  nframes : Z
}.

(** [_read_fmt_chunk] on the bytes of the chunk: format tag, channels,
    frame rate and bits per sample; returns channels, sample width and
    frame rate. *)
Definition _read_fmt_chunk (chunk : list Z) : outcome (Z * Z * Z) :=
  if (length (take 14 chunk) <? 14)%nat then Raise EOFError else
  let wFormatTag := struct.le_value (take 2 chunk) in
  let nchannels := struct.le_value (take 2 (drop 2 chunk)) in
  let framerate := struct.le_value (take 4 (drop 4 chunk)) in
  if negb (bool_decide (wFormatTag = WAVE_FORMAT_PCM)
           || bool_decide (wFormatTag = WAVE_FORMAT_EXTENSIBLE))
  then Raise (wave_Error "unknown format") else
  if (length (take 2 (drop 14 chunk)) <? 2)%nat then Raise EOFError else
  let bits := struct.le_value (take 2 (drop 14 chunk)) in
  let sampwidth := ((bits + 7) `div` 8)%Z in
  if bool_decide (sampwidth = 0%Z) then Raise (wave_Error "bad sample width") else
  if bool_decide (nchannels = 0%Z) then Raise (wave_Error "bad # of channels") else
  Return (nchannels, sampwidth, framerate).

(** The chunk loop of [initfp] over the bytes left in the RIFF chunk;
    [fmt] is the format read so far. Each round consumes at least the
    eight bytes of a chunk header, so the length of the input bounds the
    number of rounds. *)
Fixpoint read_chunks (fuel : nat) (rest : list Z) (fmt : option (Z * Z * Z))
  : outcome params :=
  match fuel with
  | O => Raise (wave_Error "fmt chunk and/or data chunk missing")
  | S fuel' =>
      if (length rest <? 8)%nat
      then Raise (wave_Error "fmt chunk and/or data chunk missing")
      else
        let chunkname := take 4 rest in
        let chunksize := struct.le_value (take 4 (drop 4 rest)) in
        let body := take (Z.to_nat chunksize) (drop 8 rest) in
        let after := drop (Z.to_nat (chunksize + chunksize `mod` 2)) (drop 8 rest) in
        if bool_decide (chunkname = b_fmt) then
          try! f := _read_fmt_chunk body in
          read_chunks fuel' after (Some f)
        else if bool_decide (chunkname = b_data) then
          match fmt with
          | None => Raise (wave_Error "data chunk before fmt chunk")
          | Some (nchannels, sampwidth, framerate) =>
              let framesize := (nchannels * sampwidth)%Z in
              Return {| nchannels := nchannels; sampwidth := sampwidth;
                        framerate := framerate;
                        nframes := (chunksize `div` framesize)%Z |}
          end
        else read_chunks fuel' after fmt
  end.

(** [wave.open(io.BytesIO(file), "rb")] and the four getters. *)
Definition read (file : list Z) : outcome params :=
  if (length file <? 8)%nat then Raise EOFError else
  if negb (bool_decide (take 4 file = b_RIFF))
  then Raise (wave_Error "file does not start with RIFF id") else
  let riff_size := struct.le_value (take 4 (drop 4 file)) in
  let riff := take (Z.to_nat riff_size) (drop 8 file) in
  if negb (bool_decide (take 4 riff = b_WAVE))
  then Raise (wave_Error "not a WAVE file") else
  read_chunks (length riff) (drop 4 riff) None.

End wave.

(** [ndarray.tobytes()] of an int16 array: two bytes per sample, little
    endian, two's complement. *)
Definition int16_tobytes (a : list Z) : list Z :=
  a ≫= (fun x => struct.le_bytes 2 (x `mod` 2 ^ 16)%Z).

(** ** audio/capture.py *)

(** The lifts of a method of the object and of a runtime operation to the
    object together with the runtime. *)
Definition on_self {S A} (m : Py S A) : Py (S * Runtime) A :=
  zoom fst (fun v s => (v, s.2)) m.
Definition on_rt {S A} (m : Py Runtime A) : Py (S * Runtime) A :=
  zoom snd (fun r s => (s.1, r)) m.
Definition lift_outcome {S A} (o : outcome A) : Py S A := fun s => (o, s).

(** A freshly built object [obj] on which the initialising method [m] is
    called: the object afterwards, or the exception. *)
Definition construct {S} (obj : S) (m : Py (S * Runtime) unit) : Py Runtime S :=
  fun r => match m (obj, r) with
           | (Return _, s) => (Return s.1, s.2)
           | (Raise e, s) => (Raise e, s.2)
           end.

(** What PortAudio answers when the device is opened and started. *)
Inductive PaOutcome : Type := Pa_ok | Pa_open_fails | Pa_start_fails.

(** [sd.InputStream]. *)
Record InputStream : Type := mkInputStream {
  samplerate : Z;
  channels : Z;
  dtype : string;
  blocksize : Z;
  device : option string;
  active : bool
}.

Definition InputStream_started (s : InputStream) : InputStream :=
  {| samplerate := samplerate s; channels := channels s; dtype := dtype s;
     blocksize := blocksize s; device := device s; active := true |}.

(** [sd.InputStream(...)] opens the PortAudio stream, or raises. *)
Definition sd_InputStream {S} (samplerate channels : Z) (dtype : string) (blocksize : Z)
           (device : option string) (pa : PaOutcome) : Py (S * Runtime) InputStream :=
  match pa with
  | Pa_open_fails => raise (PortAudioError "Error opening InputStream")
  | _ =>
      on_rt (pa_call Pa_OpenStream) >>
      ret {| samplerate := samplerate; channels := channels; dtype := dtype;
             blocksize := blocksize; device := device; active := false |}
  end.

Module AudioCapture.

(** [_event_bus] is the runtime's bus; [_lock] makes [start] and [stop]
    atomic with respect to each other, as the methods below are. *)
Record t : Type := mk {
  _sample_rate : Z;
  _device : option string;
  _recording : bool;
  _frames : list (list Z);
  _stream : option InputStream;
  _start_time : Q
}.

Definition __init__ (sample_rate : Z) (device : option string) : t :=
  {| _sample_rate := sample_rate; _device := device; _recording := false;
     _frames := []; _stream := None; _start_time := 0 |}.

Definition set_recording (x : bool) (a : t) : t :=
  {| _sample_rate := _sample_rate a; _device := _device a; _recording := x;
     _frames := _frames a; _stream := _stream a; _start_time := _start_time a |}.
Definition set_frames (x : list (list Z)) (a : t) : t :=
  {| _sample_rate := _sample_rate a; _device := _device a; _recording := _recording a;
     _frames := x; _stream := _stream a; _start_time := _start_time a |}.
Definition set_stream (x : option InputStream) (a : t) : t :=
  {| _sample_rate := _sample_rate a; _device := _device a; _recording := _recording a;
     _frames := _frames a; _stream := x; _start_time := _start_time a |}.
Definition set_start_time (x : Q) (a : t) : t :=
  {| _sample_rate := _sample_rate a; _device := _device a; _recording := _recording a;
     _frames := _frames a; _stream := _stream a; _start_time := x |}.

(** The [is_recording] property. *)
Definition is_recording (a : t) : bool := _recording a.

(** The [duration] property. *)
Definition duration (now : Q) (a : t) : Q :=
  if negb (_recording a) then 0%Q else (now - _start_time a)%Q.

(** [self._stream.start()]. *)
Definition stream_start (pa : PaOutcome) : Py (t * Runtime) unit :=
  match pa with
  | Pa_start_fails => raise (PortAudioError "Error starting stream")
  | _ =>
      on_rt (pa_call Pa_StartStream) >>
      on_self (modify (fun a => set_stream (InputStream_started <$> _stream a) a))
  end.

Definition start (now : Q) (pa : PaOutcome) : Py (t * Runtime) unit :=
  let! recording := on_self (gets _recording) in
  if recording then on_rt (logger WARNING "Already recording")
  else
    on_self (modify (set_frames [])) >>
    on_self (modify (set_recording true)) >>
    on_self (modify (set_start_time now)) >>
    let! self := on_self get in
    let! stream := sd_InputStream (_sample_rate self) AUDIO_CHANNELS AUDIO_DTYPE
                                  AUDIO_BLOCKSIZE (_device self) pa in
    on_self (modify (set_stream (Some stream))) >>
    stream_start pa >>
    on_rt (logger INFO "Recording started (device=%s, rate=%d)").

(** [_to_wav]. *)
Definition _to_wav (self : t) (audio_data : list Z) : outcome (list Z) :=
  wave.write AUDIO_CHANNELS 2 (_sample_rate self) (int16_tobytes audio_data).

Definition stop (now : Q) : Py (t * Runtime) (option (list Z)) :=
  let! recording := on_self (gets _recording) in
  if negb recording then
    on_rt (logger WARNING "Not recording") >> ret None
  else
    on_self (modify (set_recording false)) >>
    let! stream := on_self (gets _stream) in
    match stream with
    | Some _ =>
        on_rt (pa_call Pa_StopStream) >>
        on_rt (pa_call Pa_CloseStream) >>
        on_self (modify (set_stream None))
    | None => ret tt
    end >>
    let! start_time := on_self (gets _start_time) in
    let duration := (now - start_time)%Q in
    on_rt (logger INFO "Recording stopped (duration=%.1fs, frames=%d)") >>
    let! frames := on_self (gets _frames) in
    match frames with
    | [] => on_rt (logger WARNING "No audio frames captured") >> ret None
    | _ =>
        let audio_data := concat frames in
        let! self := on_self get in
        let! wav_bytes := lift_outcome (_to_wav self audio_data) in
        on_rt (EventBus.emit (Ev_audio_ready wav_bytes duration)) >>
        ret (Some wav_bytes)
    end.

(** [np.mean(indata.astype(np.float32) ** 2)]; zero for an empty block,
    where numpy yields [nan]. *)
Definition mean_square (indata : list Z) : Q :=
  match indata with
  | [] => 0%Q
  | _ => (inject_Z (foldr (fun x acc => x * x + acc)%Z 0%Z indata)
          / inject_Z (Z.of_nat (length indata)))%Q
  end.

(** [_audio_callback]; [status] is the truth value of the callback
    flags, [now] the clock read by [self.duration]. *)
Definition _audio_callback (indata : list Z) (status : bool) (now : Q)
  : Py (t * Runtime) unit :=
  when status (on_rt (logger WARNING "Audio callback status: %s")) >>
  let! recording := on_self (gets _recording) in
  if negb recording then ret tt else
  let! d := on_self (gets (duration now)) in
  if Qgeb d MAX_RECORDING_DURATION then
    on_rt (logger WARNING "Max recording duration reached, auto-stopping") >>
    on_rt (Thread_start Th_AudioCapture_stop)
  else
    on_self (modify (fun a => set_frames (_frames a ++ [indata]) a)) >>
    on_rt (EventBus.emit (Ev_audio_level (mean_square indata))).

End AudioCapture.

(** ** config.py: the audio section, as [setup] reads it *)

Module AudioConfig.
Record t : Type := mk {
  sample_rate : Z;
  device : option string;
  silence_threshold : Q;
  silence_duration : Q
}.

(** The dataclass defaults. *)
Definition default : t :=
  {| sample_rate := AUDIO_SAMPLE_RATE; device := None;
     silence_threshold := VAD_THRESHOLD; silence_duration := VAD_SILENCE_DURATION |}.
End AudioConfig.

(** ** app.py: the recording state machine of [LinuxWhispr]

    The record is the application once [setup()] has assigned its
    components, so the [assert ... is not None] at the head of the methods
    hold; [_event_bus] is the runtime's bus. *)

Module LinuxWhispr.

Record t : Type := mk {
  _state : AppState;
  _audio : AudioCapture.t;
  _vad : SileroVAD.t;
  _vad_thread : option Thread;
  _vad_active : bool
}.

Definition set_state (x : AppState) (w : t) : t :=
  {| _state := x; _audio := _audio w; _vad := _vad w;
     _vad_thread := _vad_thread w; _vad_active := _vad_active w |}.
Definition set_audio (x : AudioCapture.t) (w : t) : t :=
  {| _state := _state w; _audio := x; _vad := _vad w;
     _vad_thread := _vad_thread w; _vad_active := _vad_active w |}.
Definition set_vad (x : SileroVAD.t) (w : t) : t :=
  {| _state := _state w; _audio := _audio w; _vad := x;
     _vad_thread := _vad_thread w; _vad_active := _vad_active w |}.
Definition set_vad_thread (x : option Thread) (w : t) : t :=
  {| _state := _state w; _audio := _audio w; _vad := _vad w;
     _vad_thread := x; _vad_active := _vad_active w |}.
Definition set_vad_active (x : bool) (w : t) : t :=
  {| _state := _state w; _audio := _audio w; _vad := _vad w;
     _vad_thread := _vad_thread w; _vad_active := x |}.

(** A method of [self._audio], of [self._vad]. *)
Definition audio {A} (m : Py (AudioCapture.t * Runtime) A) : Py (t * Runtime) A :=
  zoom (fun s => (_audio s.1, s.2)) (fun ar s => (set_audio ar.1 s.1, ar.2)) m.
Definition vad {A} (m : Py SileroVAD.t A) : Py (t * Runtime) A :=
  zoom (fun s => _vad s.1) (fun v s => (set_vad v s.1, s.2)) m.

(** [__init__] then the part of [setup] that builds the capture service
    and the detector and subscribes [_on_audio_ready]. [model] is the
    outcome of loading the ONNX model in [self._vad.load()]. *)
Definition setup (config : AudioConfig.t) (model : outcome InferenceSession)
  : Py Runtime t :=
  logger INFO "Setting up LinuxWhispr..." >>
  let audio := AudioCapture.__init__ (AudioConfig.sample_rate config)
                                     (AudioConfig.device config) in
  let vad := SileroVAD.__init__ (AudioConfig.silence_threshold config)
                                 (AudioConfig.silence_duration config)
                                 VAD_MIN_SPEECH_DURATION AUDIO_SAMPLE_RATE in
  let! vad := construct vad (SileroVAD.load model) in
  EventBus.on "audio.ready" H_on_audio_ready >>
  logger INFO "LinuxWhispr setup complete" >>
  ret {| _state := IDLE; _audio := audio; _vad := vad;
         _vad_thread := None; _vad_active := false |}.

(** The application and its runtime after a [setup] that succeeded
    (and the untouched default otherwise). *)
Definition after_setup (config : AudioConfig.t) (model : outcome InferenceSession)
  : t * Runtime :=
  match setup config model Runtime0 with
  | (Return w, r) => (w, r)
  | (Raise _, r) =>
      ({| _state := IDLE;
          _audio := AudioCapture.__init__ (AudioConfig.sample_rate config)
                                          (AudioConfig.device config);
          _vad := SileroVAD.__init__ (AudioConfig.silence_threshold config)
                                     (AudioConfig.silence_duration config)
                                     VAD_MIN_SPEECH_DURATION AUDIO_SAMPLE_RATE;
          _vad_thread := None; _vad_active := false |}, r)
  end.

Definition _set_state (new_state : AppState) : Py (t * Runtime) unit :=
  let! old_state := on_self (gets _state) in
  on_self (modify (set_state new_state)) >>
  on_rt (EventBus.emit (Ev_state_change old_state new_state)) >>
  on_rt (logger DEBUG "State: %s → %s").

(** [_start_recording]; [now] and [pa] are the clock and the device as
    [self._audio.start()] meets them. *)
Definition _start_recording (now : Q) (pa : PaOutcome) : Py (t * Runtime) unit :=
  _set_state RECORDING >>
  vad SileroVAD.reset >>
  audio (AudioCapture.start now pa) >>
  on_rt (EventBus.emit Ev_hotkey_dictation_start) >>
  on_self (modify (set_vad_active true)) >>
  on_self (modify (set_vad_thread (Some Th_vad_monitor))) >>
  on_rt (Thread_start Th_vad_monitor) >>
  on_rt (logger INFO "Recording started").

Definition _stop_recording (now : Q) : Py (t * Runtime) unit :=
  on_self (modify (set_vad_active false)) >>
  _set_state PROCESSING >>
  on_rt (EventBus.emit Ev_hotkey_dictation_stop) >>
  let! wav_bytes := audio (AudioCapture.stop now) in
  match wav_bytes with
  | None =>
      on_rt (logger WARNING "No audio captured") >>
      _set_state IDLE
  | Some _ => ret tt
  end.

(** [_on_dictation_hotkey]: the toggle. *)
Definition _on_dictation_hotkey (now : Q) (pa : PaOutcome) : Py (t * Runtime) unit :=
  let! state := on_self (gets _state) in
  match state with
  | IDLE => _start_recording now pa
  | RECORDING => _stop_recording now
  | _ => on_rt (logger DEBUG "Ignoring hotkey in state %s")
  end.

(** One round of the [while] loop of [_vad_monitor], up to the sleep.
    The result says whether the loop goes on. [t_speech], [t_stop] and
    [t_fin] are the clock as read by [is_speech], [should_stop] and
    [_stop_recording]. *)
Definition _vad_monitor_round (t_speech t_stop t_fin : Q) : Py (t * Runtime) bool :=
  let! active := on_self (gets _vad_active) in
  let! recording := on_self (gets (fun w => AudioCapture.is_recording (_audio w))) in
  if negb (active && recording) then ret false else
  let! frames := on_self (gets (fun w => AudioCapture._frames (_audio w))) in
  match last frames with
  | None => ret true
  | Some latest =>
      vad (SileroVAD.is_speech latest t_speech) >>
      let! stop := vad (SileroVAD.should_stop t_stop) in
      if stop then
        on_rt (logger INFO "VAD: silence detected, auto-stopping") >>
        on_rt (EventBus.emit Ev_audio_silence) >>
        _stop_recording t_fin >>
        ret false
      else ret true
  end.

(** [stop]: the shutdown. [listener] is the outcome of
    [self._hotkey_listener.stop()], and [others] that of the calls between
    the capture and the bus, in order ([self._stt.unload()],
    [self._history.close()], the web server flag, [self._tray.stop()],
    [self._overlay.destroy()]), each made only when its component is
    there. *)
Definition stop (now : Q) (listener others : outcome unit) : Py (t * Runtime) unit :=
  lift_outcome listener >>
  let! recording := on_self (gets (fun w => AudioCapture.is_recording (_audio w))) in
  when recording (let! _ := audio (AudioCapture.stop now) in ret tt) >>
  lift_outcome others >>
  on_rt EventBus.clear >>
  on_rt (logger INFO "LinuxWhispr stopped").

End LinuxWhispr.

(** ** The environment of the capture service and of the application

    The driver callback, the stop threads started by the duration guard,
    the hotkey, the silence monitor and the pipeline thread run
    concurrently; [start] and [stop] hold the capture lock and the other
    bodies are taken as atomic steps, in any order. A step whose method
    raises keeps the state the exception left behind, as the thread or
    the listener that ran it does. *)

    (* [stop()] called by the application *)

(** The capture service in its runtime, with the number of stop threads
    that have run; those started are in the runtime's thread list. *)
Record CaptureSystem : Type := mkCaptureSystem {
  capture : AudioCapture.t;
  runtime : Runtime;
  stops_run : nat
}.

(** How many elements satisfy [p]. *)
Fixpoint count {A} (p : A -> bool) (l : list A) : nat :=
  match l with
  | [] => 0
  | x :: l' => (if p x then 1 else 0) + count p l'
  end.

Definition count_stop_threads (r : Runtime) : nat :=
  count is_stop_thread (threads r).




(** What the log, the bus and PortAudio have seen. *)
Definition count_log (msg : string) (r : Runtime) : nat :=
  count (fun l => String.eqb l.2 msg) (log r).
Definition finalizations (r : Runtime) : nat :=
  count_log "Recording stopped (duration=%.1fs, frames=%d)" r.
Definition wav_emissions (r : Runtime) : nat := count is_audio_ready (emitted r).
Definition stream_opens (r : Runtime) : nat := count is_open (pa_calls r).
Definition stream_closes (r : Runtime) : nat := count is_close (pa_calls r).
Definition pipeline_runs (r : Runtime) : nat := count is_process_audio (threads r).
Definition monitor_threads (r : Runtime) : nat := count is_vad_monitor (threads r).

Inductive AppEvent : Type :=
| AE_hotkey (now : Q) (pa : PaOutcome)
| AE_callback (indata : list Z) (status : bool) (now : Q)
| AE_run_stop_thread (now : Q)
| AE_monitor_round (t_speech t_stop t_fin : Q)
| AE_pipeline_ends (ok : bool).
    (* [_process_audio] ends with [_set_state(IDLE)], or on a failed
       transcription with [_set_state(ERROR)] *)

Definition app_step (e : AppEvent) (s : LinuxWhispr.t * Runtime) : LinuxWhispr.t * Runtime :=
  match e with
  | AE_hotkey now pa => (LinuxWhispr._on_dictation_hotkey now pa s).2
  | AE_callback indata status now =>
      (LinuxWhispr.audio (AudioCapture._audio_callback indata status now) s).2
  | AE_run_stop_thread now => (LinuxWhispr.audio (AudioCapture.stop now) s).2
  | AE_monitor_round t1 t2 t3 => (LinuxWhispr._vad_monitor_round t1 t2 t3 s).2
  | AE_pipeline_ends ok => (LinuxWhispr._set_state (if ok then IDLE else ERROR) s).2
  end.

Definition app_run (es : list AppEvent) (s : LinuxWhispr.t * Runtime) : LinuxWhispr.t * Runtime :=
  foldl (fun s e => app_step e s) s es.

(** Calls on a detector, in program order. *)
Inductive VadOp : Type :=
| Op_reset
| Op_load (model : outcome InferenceSession)
| Op_is_speech (audio_int16 : list Z) (now : Q).

Definition vad_step (op : VadOp) (v : SileroVAD.t) : SileroVAD.t :=
  match op with
  | Op_reset => (SileroVAD.reset v).2
  | Op_load model => (SileroVAD.load model (v, Runtime0)).2.1
  | Op_is_speech audio now => (SileroVAD.is_speech audio now v).2
  end.

Definition vad_run (ops : list VadOp) (v : SileroVAD.t) : SileroVAD.t :=
  foldl (fun v op => vad_step op v) v ops.

Definition is_load (op : VadOp) : bool :=
  match op with Op_load _ => true | _ => false end.

(** The clock readings of a run, in order, and what a monotonic clock
    makes of them. *)
Definition op_times (ops : list VadOp) : list Q :=
  ops ≫= (fun op => match op with Op_is_speech _ now => [now] | _ => [] end).

Fixpoint monotonic_from (t : Q) (ts : list Q) : Prop :=
  match ts with
  | [] => True
  | t' :: rest => (t <= t')%Q /\ monotonic_from t' rest
  end.

Definition monotonic (ts : list Q) : Prop :=
  match ts with
  | [] => True
  | t :: rest => monotonic_from t rest
  end.

(** ** Fixtures of the examples *)

(** A scoring function for the examples: probability 0.9 when the first
    sample of the window is at least half of full scale, 0.1 otherwise;
    the hidden state counts the windows seen. *)
Definition level_session : InferenceSession :=
  {| get_inputs := ["input"; "state"; "sr"];
     run := fun inputs =>
       let prob := match inputs !! "input" with
                   | Some (x :: _) => if Qle_bool (1 # 2) x then (9 # 10)%Q else (1 # 10)%Q
                   | _ => (1 # 10)%Q
                   end in
       let state := match inputs !! "state" with
                    | Some (n :: rest) => (n + 1)%Q :: rest
                    | _ => []
                    end in
       [[prob]; state] |}.

Definition speech_block : list Z := replicate 1024 20000%Z.
Definition silence_block : list Z := replicate 1024 0%Z.

(** The session of the auto-stop example: a detector with
    [min_speech_duration] 0.3 s and [silence_duration] 2.0 s hears speech
    at t = 0 and t = 0.5 and silence at the later polls. *)
Definition P3_detector : SileroVAD.t :=
  (SileroVAD.load (Return level_session)
     (SileroVAD.__init__ VAD_THRESHOLD 2 (3 # 10) AUDIO_SAMPLE_RATE, Runtime0)).2.1.

Definition P3_until_2 : list VadOp :=
  [Op_reset; Op_is_speech speech_block 0; Op_is_speech speech_block (1 # 2);
   Op_is_speech silence_block 1; Op_is_speech silence_block (3 # 2);
   Op_is_speech silence_block 2].

Definition P3_until_2_5 : list VadOp :=
  P3_until_2 ++ [Op_is_speech silence_block (5 # 2)].

(** The application set up with the default configuration and the example
    scoring function, idle; and the same recording, after one hotkey press
    at t = 0 with a working device. *)
Definition demo_idle : LinuxWhispr.t * Runtime :=
  LinuxWhispr.after_setup AudioConfig.default (Return level_session).

Definition demo_recording : LinuxWhispr.t * Runtime :=
  app_run [AE_hotkey 0 Pa_ok] demo_idle.

(** The capture service of the recording example, no stop thread started;
    and a session that runs past the limit: a block at 1 s, blocks at
    361 s and 362 s that each trip the guard, then the two stop threads. *)
Definition demo_capture : CaptureSystem :=
  {| capture := LinuxWhispr._audio demo_recording.1;
     runtime := demo_recording.2;
     stops_run := 0 |}.


(** Triggers in a row with audio in between: start, two blocks, stop
    (handing the audio over), a trigger while processing, the pipeline
    ending, then a start on a device that fails, the trigger that clears
    it, and a last start. *)
Definition busy_day : list AppEvent :=
  [AE_hotkey 0 Pa_ok;
   AE_callback speech_block false (1 # 10);
   AE_monitor_round (2 # 10) (2 # 10) (2 # 10);
   AE_callback silence_block false (3 # 10);
   AE_hotkey 1 Pa_ok;
   AE_hotkey 2 Pa_ok;
   AE_pipeline_ends true;
   AE_hotkey 3 Pa_open_fails;
   AE_hotkey 4 Pa_ok;
   AE_hotkey 5 Pa_ok].






(** ** Vocabulary of the properties *)

Section RuntimeVocabulary.

Definition stop_message : string := "Recording stopped (duration=%.1fs, frames=%d)".

Definition is_stop_message (l : LogLevel * string) : bool := String.eqb l.2 stop_message.

Definition log_at (lvl : LogLevel) (msg : string) (r : Runtime) : Runtime :=
  {| handlers := handlers r; emitted := emitted r; threads := threads r;
     log := log r ++ [(lvl, msg)]; pa_calls := pa_calls r |}.

Definition with_pa_calls (cs : list PaCall) (r : Runtime) : Runtime :=
  {| handlers := handlers r; emitted := emitted r; threads := threads r;
     log := log r; pa_calls := pa_calls r ++ cs |}.

Definition spawn (th : Thread) (r : Runtime) : Runtime :=
  set_threads (threads r ++ [th]) r.

(** [r] with threads and log records appended. *)
Definition grown (th : list Thread) (lg : list (LogLevel * string)) (r : Runtime) : Runtime :=
  {| handlers := handlers r; emitted := emitted r; threads := threads r ++ th;
     log := log r ++ lg; pa_calls := pa_calls r |}.

(** What handlers of the event [e] may start and log: pipeline threads,
    and only for [audio.ready]; never the record of a finalization. *)
Definition benign (e : Event) (th : list Thread) (lg : list (LogLevel * string)) : Prop :=
  count is_stop_thread th = 0%nat ∧ count is_vad_monitor th = 0%nat ∧
  (is_audio_ready e = false → th = []) ∧
  count is_stop_message lg = 0%nat.

Definition emit_to (e : Event) (r : Runtime) : Runtime := (EventBus.emit e r).2.

(** The threads started and the records logged by the handlers of [e]. *)
Definition emit_threads (e : Event) (r : Runtime) : list Thread :=
  drop (length (threads r)) (threads (emit_to e r)).

Definition emit_log (e : Event) (r : Runtime) : list (LogLevel * string) :=
  drop (length (log r)) (log (emit_to e r)).

Definition state_logged (old new : AppState) (r : Runtime) : Runtime :=
  log_at DEBUG "State: %s → %s" (emit_to (Ev_state_change old new) r).

End RuntimeVocabulary.

Section DetectorVocabulary.

Import SileroVAD.

(** The speech tracking and the settings of a detector. *)
Definition tracking (v : t) : bool * option Q * Q :=
  (_speech_detected v, _speech_start_time v, _last_speech_time v).

Definition settings (v : t) : Q * Q * Q * Z * option InferenceSession * bool :=
  (_threshold v, _silence_duration v, _min_speech_duration v, _sample_rate v,
   _session v, _use_state_input v).

(** The timing invariant, relative to the last clock reading. *)
Definition timing_ok (clock : Q) (v : t) : Prop :=
  _speech_detected v = true →
  ∃ speech_start_time, _speech_start_time v = Some speech_start_time ∧
    (speech_start_time <= _last_speech_time v)%Q ∧ (_last_speech_time v <= clock)%Q.

(** The hidden state the input format in use reads and writes. *)
Definition hidden (v : t) : option ndarray * option ndarray * option ndarray :=
  if _use_state_input v then (Some (_state v), None, None) else (None, _h v, _c v).

(** A detector as a previous session may have left it: any hidden
    state, any speech tracking. *)
Definition leftover (state : ndarray) (h c : option ndarray) (detected : bool)
           (start : option Q) (last : Q) (v : t) : t :=
  set_last_speech_time last
    (set_speech_start_time start
       (set_speech_detected detected (set_h_c h c (set_state state v)))).

End DetectorVocabulary.

Section CaptureVocabulary.

Import AudioCapture.

(** The capture and the runtime once the stream is closed. *)
Definition closed (a : t) : t :=
  if _stream a is Some _ then set_stream None (set_recording false a)
  else set_recording false a.

Definition closed_rt (a : t) (r : Runtime) : Runtime :=
  log_at INFO stop_message
    (if _stream a is Some _ then with_pa_calls [Pa_StopStream; Pa_CloseStream] r else r).

(** The stream [start] asks PortAudio for. *)
Definition requested_stream (a : t) : InputStream :=
  {| samplerate := _sample_rate a; channels := AUDIO_CHANNELS; dtype := AUDIO_DTYPE;
     blocksize := AUDIO_BLOCKSIZE; device := _device a; active := false |}.

(** The capture once [start] has passed its guard. *)
Definition armed (now : Q) (a : t) : t :=
  set_start_time now (set_recording true (set_frames [] a)).



End CaptureVocabulary.

Section ApplicationVocabulary.

Import LinuxWhispr.

(** The claim as the specification words it: the failed transition
    leaves the controller idle and nothing of a recording behind. *)
Definition aborted_atomically (before after : t * Runtime) : Prop :=
  _state after.1 = IDLE ∧
  AudioCapture._recording (_audio after.1) = false ∧
  _vad_active after.1 = false ∧
  monitor_threads after.2 = monitor_threads before.2.

(** The capture service and PortAudio agree: the streams opened and not
    closed are the one the service holds, and it holds none unless its
    recording flag is up. *)
Definition consistent (a : AudioCapture.t) (r : Runtime) : Prop :=
  stream_opens r
  = (stream_closes r + if AudioCapture._stream a is Some _ then 1 else 0)%nat ∧
  (AudioCapture._recording a = false → AudioCapture._stream a = None).


End ApplicationVocabulary.

(** ** Vocabulary of the further properties *)

Section WindowVocabulary.

Import SileroVAD.

(** [audio_int16.astype(np.float32) / 32768.0]. *)
Definition to_float (audio_int16 : list Z) : list Q :=
  (fun x => (inject_Z x / 32768)%Q) <$> audio_int16.

(** The analysis window [process_chunk] cuts at [start]: the slice, padded
    with zeros to the window size. *)
Definition window_at (audio_float : list Q) (start : nat) : list Q :=
  let chunk := take VAD_CHUNK_SAMPLES (drop start audio_float) in
  if (length chunk <? VAD_CHUNK_SAMPLES)%nat
  then chunk ++ replicate (VAD_CHUNK_SAMPLES - length chunk) 0%Q
  else chunk.

(** The windows of a block, in the order they are scored. *)
Definition analysis_windows (audio_float : list Q) : list (list Q) :=
  window_at audio_float <$> py_range_step (length audio_float) VAD_CHUNK_SAMPLES.

(** Scoring ready-made windows one after the other, as [process_chunk]
    does with those it cuts. *)
Fixpoint score_each (session : InferenceSession) (windows : list (list Q)) (prob : Q)
  : Py t Q :=
  match windows with
  | [] => ret prob
  | w :: rest =>
      let! prob' := process_window session w 0 in
      score_each session rest prob'
  end.

(** The times at which [is_speech] answered true along a run. *)
Fixpoint speech_times (ops : list VadOp) (v : t) : list Q :=
  match ops with
  | [] => []
  | op :: rest =>
      match op with
      | Op_is_speech audio now =>
          match (is_speech audio now v).1 with
          | Return true => [now]
          | _ => []
          end
      | _ => []
      end ++ speech_times rest (vad_step op v)
  end.

(** The zeros that complete the last window of [n] samples. *)
Definition padding (n : nat) : nat := ((512 - n `mod` 512) `mod` 512)%nat.

Definition is_scoring (op : VadOp) : bool :=
  match op with Op_is_speech _ _ => true | _ => false end.

End WindowVocabulary.

(** Driver callbacks in a row, each a block, the truth value of its
    status flags and the clock; and whether a callback arrives before the
    duration limit. *)
Definition callbacks_run (cbs : list (list Z * bool * Q)) (s : AudioCapture.t * Runtime)
  : AudioCapture.t * Runtime :=
  foldl (fun s cb => (AudioCapture._audio_callback cb.1.1 cb.1.2 cb.2 s).2) s cbs.

Definition under_limit (start_time : Q) (cb : list Z * bool * Q) : bool :=
  negb (Qgeb (cb.2 - start_time) MAX_RECORDING_DURATION).

Section BusVocabulary.

(** The handlers [emit] finds for an event name:
    [self._handlers.get(event, [])]. *)
Definition subscribers (event : string) (r : Runtime) : list Handler :=
  default [] (handlers r !! event).

(** What a call of the handler with the event starts, and what [emit]
    logs for it. *)
Definition handler_threads (e : Event) (h : Handler) : list Thread :=
  match h, e with
  | H_on_audio_ready, Ev_audio_ready wav duration => [Th_process_audio wav duration]
  | _, _ => []
  end.

Definition handler_log (e : Event) (h : Handler) : list (LogLevel * string) :=
  match h, e with
  | H_on_audio_ready, Ev_audio_ready _ _ => []
  | H_on_audio_ready, _ => [(LOG_ERROR, "Error in handler %s for event '%s'")]
  | H_observer _, _ => []
  end.

End BusVocabulary.

Section SessionVocabulary.

(** The recording example after a block of silence and a block of
    speech. *)
Definition demo_two_blocks : LinuxWhispr.t * Runtime :=
  app_run [AE_hotkey 0 Pa_ok; AE_callback silence_block false (1 # 10);
           AE_callback speech_block false (2 # 10)] demo_idle.

(** Driver callbacks as steps of the application. *)
Definition as_callbacks (cbs : list (list Z * bool * Q)) : list AppEvent :=
  (fun cb => AE_callback cb.1.1 cb.1.2 cb.2) <$> cbs.

(** The state that the [state.change] events among [evs] lead to from
    [st], if each starts from the state the one before ended in. *)
Fixpoint follow (st : AppState) (evs : list Event) : option AppState :=
  match evs with
  | [] => Some st
  | Ev_state_change old new :: rest =>
      if bool_decide (old = st) then follow new rest else None
  | _ :: rest => follow st rest
  end.

End SessionVocabulary.

(** ** features/dictionary.py *)

Module Dictionary.

Record DictionaryEntry : Type := mkEntry {
  word : string;
  source : string;          (* "manual" | "auto-learned" *)
  frequency : Z;
  added_at : string;
  category : string
}.

Record CorrectionPair : Type := mkPair {
  heard : string;
  corrected : string;
  count : Z;
  last_seen : string
}.

(** The dictionary; beside it [saved] records what the last [save] that
    returned wrote, if any did. *)
Record t : Type := mk {
  _entries : list DictionaryEntry;
  _corrections : list CorrectionPair;
  saved : option (list DictionaryEntry * list CorrectionPair)
}.

Definition __init__ : t := {| _entries := []; _corrections := []; saved := None |}.

Definition set_entries (x : list DictionaryEntry) (d : t) : t :=
  {| _entries := x; _corrections := _corrections d; saved := saved d |}.
Definition set_corrections (x : list CorrectionPair) (d : t) : t :=
  {| _entries := _entries d; _corrections := x; saved := saved d |}.
Definition set_saved (x : option (list DictionaryEntry * list CorrectionPair)) (d : t) : t :=
  {| _entries := _entries d; _corrections := _corrections d; saved := x |}.

(** [save]: [io] is the outcome of creating the directory and writing
    the file. What a write that raised leaves in the file is not
    modelled. *)
Definition save (io : outcome unit) : Py t unit :=
  match io with
  | Raise e => raise e
  | Return _ => modify (fun d => set_saved (Some (_entries d, _corrections d)) d)
  end.

Section Methods.

(** [str.lower]. *)
Variable lower : string -> string.

(** The loop of [add_word]: the first entry with the word, compared in
    lower case, gets [frequency += 1]; [None] when the loop runs out. *)
Fixpoint bump_first (w : string) (entries : list DictionaryEntry)
  : option (list DictionaryEntry) :=
  match entries with
  | [] => None
  | entry :: rest =>
      if String.eqb (lower (word entry)) (lower w)
      then Some ({| word := word entry; source := source entry;
                    frequency := (frequency entry + 1)%Z;
                    added_at := added_at entry; category := category entry |} :: rest)
      else (entry ::.) <$> bump_first w rest
  end.

(** [add_word(word, source, category)]; [now] is
    [datetime.now().isoformat()]. *)
Definition add_word (now : string) (io : outcome unit) (w src cat : string) : Py t unit :=
  let! entries := gets _entries in
  match bump_first w entries with
  | Some entries' => modify (set_entries entries')
  | None =>
      modify (set_entries
                (entries ++ [{| word := w; source := src; frequency := 0;
                                added_at := now; category := cat |}])) >>
      save io
  end.

(** The loop of [remove_word]: [self._entries.pop(i)] at the first entry
    with the word. *)
Fixpoint pop_first (w : string) (entries : list DictionaryEntry)
  : option (list DictionaryEntry) :=
  match entries with
  | [] => None
  | entry :: rest =>
      if String.eqb (lower (word entry)) (lower w) then Some rest
      else (entry ::.) <$> pop_first w rest
  end.

Definition remove_word (io : outcome unit) (w : string) : Py t bool :=
  let! entries := gets _entries in
  match pop_first w entries with
  | Some entries' => modify (set_entries entries') >> save io >> ret true
  | None => ret false
  end.

(** The loop of [add_correction]: the first pair heard the same in lower
    case and corrected the same gets [count += 1] and a new
    [last_seen]. *)
Fixpoint count_first (now h c : string) (pairs : list CorrectionPair)
  : option (list CorrectionPair) :=
  match pairs with
  | [] => None
  | p :: rest =>
      if String.eqb (lower (heard p)) (lower h) && String.eqb (corrected p) c
      then Some ({| heard := heard p; corrected := corrected p;
                    count := (count p + 1)%Z; last_seen := now |} :: rest)
      else (p ::.) <$> count_first now h c rest
  end.

Definition add_correction (now : string) (io : outcome unit) (h c : string) : Py t unit :=
  let! pairs := gets _corrections in
  match count_first now h c pairs with
  | Some pairs' => modify (set_corrections pairs') >> save io
  | None =>
      modify (set_corrections
                (pairs ++ [{| heard := h; corrected := c; count := 1;
                              last_seen := now |}])) >>
      save io
  end.

End Methods.

(** [list(dict.fromkeys(words))]: the first occurrence of each word, in
    order. *)
Fixpoint fromkeys (words : list string) : list string :=
  match words with
  | [] => []
  | w :: rest => w :: List.filter (fun w' => negb (String.eqb w' w)) (fromkeys rest)
  end.

(** The words [build_initial_prompt] collects: entries added by hand or
    frequent enough, then the corrections confirmed often enough. *)
Definition prompt_words (promotion_threshold : Z) (d : t) : list string :=
  (word <$> List.filter (fun entry => String.eqb (source entry) "manual"
                                      || (promotion_threshold <=? frequency entry)%Z)
                        (_entries d))
  ++ (corrected <$> List.filter (fun p => (promotion_threshold <=? count p)%Z)
                                (_corrections d)).

Definition build_initial_prompt (promotion_threshold : Z) (d : t) : option string :=
  match prompt_words promotion_threshold d with
  | [] => None
  | words =>
      Some (String.append "Context words: "
              (String.append (String.concat ", " (fromkeys words)) "."))
  end.

End Dictionary.

Section DictionaryVocabulary.

Import Dictionary.

(** The words of the entries as [add_word] and [remove_word] compare
    them. *)
Definition keys (lower : string -> string) (entries : list DictionaryEntry) : list string :=
  (fun entry => lower (word entry)) <$> entries.

(** An entry after [frequency += 1]. *)
Definition bumped (entry : DictionaryEntry) : DictionaryEntry :=
  {| word := word entry; source := source entry; frequency := (frequency entry + 1)%Z;
     added_at := added_at entry; category := category entry |}.

(** The pair [add_correction] looks for. *)
Definition same_correction (lower : string -> string) (h c : string) (p : CorrectionPair)
  : bool :=
  String.eqb (lower (heard p)) (lower h) && String.eqb (corrected p) c.

(** [add_correction(h, c)] called once at each of the times [nows], every
    save succeeding. *)
Definition corrections_run (lower : string -> string) (h c : string) (nows : list string)
           (d : t) : t :=
  foldl (fun d now => (add_correction lower now (Return tt) h c d).2) d nows.

(** [str.lower] on the letters A to Z, for the examples. *)
Fixpoint ascii_lower (s : string) : string :=
  match s with
  | EmptyString => EmptyString
  | String ch rest =>
      let n := Ascii.nat_of_ascii ch in
      String (if ((65 <=? n) && (n <=? 90))%nat then Ascii.ascii_of_nat (n + 32) else ch)
             (ascii_lower rest)
  end.

Definition demo_dictionary : t :=
  {| _entries := [ {| word := "Kubernetes"; source := "manual"; frequency := 0;
                      added_at := "2025-01-01T00:00:00"; category := "technical" |};
                   {| word := "Anthropic"; source := "auto-learned"; frequency := 1;
                      added_at := "2025-01-02T00:00:00"; category := "brand" |} ];
     _corrections := [ {| heard := "cube control"; corrected := "kubectl"; count := 3;
                          last_seen := "2025-01-03T00:00:00" |} ];
     saved := None |}.

End DictionaryVocabulary.

(** ** app.py: the pipeline

    [_process_audio] runs in the [stt-pipeline] thread that
    [_on_audio_ready] starts. The components it drives (the STT backend,
    the snippet engine, the refinement, the injector, the history, the
    adaptive learner, the notifier) are outside the core: each answers as
    a function of its arguments, and the calls made are recorded in order.
    What those components do to the bus is not modelled; the events
    [stt.started] and [stt.complete], which [_process_audio] itself emits
    and which no handler of the core subscribes to, are recorded among the
    calls. *)

Module Pipeline.

(** [TranscriptionResult], the fields the pipeline reads. *)
Record TranscriptionResult : Type := mkResult {
  text : string;
  language : option string
}.

Inductive Call : Type :=
| emit_stt_started
| stt_load
| stt_transcribe (wav_bytes : list Z) (language initial_prompt : option string)
| emit_stt_complete (text : string) (language : option string)
| snippets_expand (text : string)
| refinement_refine (raw_text : string) (app_name : option string)
                    (dictionary_context : string)
| injector_inject (text : string)
| history_add (raw_text : string) (refined_text : option string) (duration : Q)
              (app_context language : option string)
| notify (title body urgency : string)
| adaptive_start_watching (injected_text : string).

(** The configuration read and the components as one run meets them; an
    optional component that is [None] was not set up. *)
Record Components : Type := mkComponents {
  config_stt_language : option string;
  config_promotion_threshold : Z;
  stt_is_loaded : bool;
  stt_load_outcome : outcome unit;
  stt_transcribe_outcome :
    list Z -> option string -> option string -> outcome TranscriptionResult;
  dictionary : option Dictionary.t;
  snippets_expand_outcome : option (string -> outcome string);
  refinement_refine_outcome : option (string -> option string -> string -> outcome string);
  window_name_for_refinement : option string;   (* _get_active_window_name() *)
  window_name_for_history : option string;      (* _get_active_window_name() *)
  injector_inject_outcome : string -> outcome bool;
  history_add_outcome : option (string -> option string -> outcome unit);
  adaptive_start_watching_outcome : option (string -> outcome unit)
}.

(** The application with its runtime, the calls made so far, and the
    attributes [_process_audio] assigns. *)
Record State : Type := mkState {
  app : LinuxWhispr.t * Runtime;
  calls : list Call;
  _last_raw_text : string;
  _last_duration : Q;
  _last_language : option string
}.

Definition State0 (app : LinuxWhispr.t * Runtime) : State :=
  {| app := app; calls := []; _last_raw_text := ""; _last_duration := 0;
     _last_language := None |}.

Definition set_app (x : LinuxWhispr.t * Runtime) (s : State) : State :=
  {| app := x; calls := calls s; _last_raw_text := _last_raw_text s;
     _last_duration := _last_duration s; _last_language := _last_language s |}.
Definition add_call (c : Call) (s : State) : State :=
  {| app := app s; calls := calls s ++ [c]; _last_raw_text := _last_raw_text s;
     _last_duration := _last_duration s; _last_language := _last_language s |}.
Definition set_last (raw_text : string) (duration : Q) (language : option string)
           (s : State) : State :=
  {| app := app s; calls := calls s; _last_raw_text := raw_text;
     _last_duration := duration; _last_language := language |}.

(** The local variables assigned inside the [try] block; they keep what
    was assigned before an exception. *)
Record Locals : Type := mkLocals {
  final_text : string;
  refined_text : option string;
  success : bool
}.

Definition set_final_text (x : string) (l : Locals) : Locals :=
  {| final_text := x; refined_text := refined_text l; success := success l |}.
Definition set_refined_text (x : option string) (l : Locals) : Locals :=
  {| final_text := final_text l; refined_text := x; success := success l |}.
Definition set_success (x : bool) (l : Locals) : Locals :=
  {| final_text := final_text l; refined_text := refined_text l; success := x |}.

(** A call on a component, answered by [o]. *)
Definition call {A} (c : Call) (o : outcome A) : Py (State * Locals) A :=
  fun s => (o, (add_call c s.1, s.2)).

Definition on_app {A} (m : Py (LinuxWhispr.t * Runtime) A) : Py (State * Locals) A :=
  zoom (fun s => app s.1) (fun x s => (set_app x s.1, s.2)) m.

Definition log (lvl : LogLevel) (msg : string) : Py (State * Locals) unit :=
  on_app (on_rt (logger lvl msg)).

Definition locals {A} (m : Py Locals A) : Py (State * Locals) A :=
  zoom snd (fun l s => (s.1, l)) m.

(** [try: body] with [except Exception: handler]. *)
Definition try_except {S A} (body handler : Py S A) : Py S A :=
  fun s => match body s with
           | (Return a, s') => (Return a, s')
           | (Raise _, s') => handler s'
           end.

(** [_get_dictionary_prompt]. *)
Definition _get_dictionary_prompt (c : Components) : option string :=
  match dictionary c with
  | Some d => Dictionary.build_initial_prompt (config_promotion_threshold c) d
  | None => None
  end.

(** [_get_correction_context]. *)
Definition _get_correction_context (c : Components) : string :=
  match dictionary c with
  | None => ""
  | Some d =>
      let pairs :=
        (fun p => String.append (Dictionary.corrected p)
                    (String.append " (not " (String.append (Dictionary.heard p) ")")))
          <$> List.filter (fun p => (config_promotion_threshold c <=? Dictionary.count p)%Z)
                          (Dictionary._corrections d) in
      match pairs with
      | [] => ""
      | _ => String.concat ", " pairs
      end
  end.

Section ProcessAudio.

(** [str.strip]. *)
Variable strip : string -> string.

(** The body of the second [try]: snippets, refinement, injection. *)
Definition post_transcription (c : Components) (raw_text : string)
  : Py (State * Locals) unit :=
  match snippets_expand_outcome c with
  | Some expand =>
      let! text := locals (gets final_text) in
      let! expanded := call (snippets_expand text) (expand text) in
      locals (modify (set_final_text expanded)) >>
      when (negb (String.eqb expanded raw_text)) (log INFO "Snippet expanded: %s")
  | None => ret tt
  end >>
  match refinement_refine_outcome c with
  | Some refine =>
      let app_name := window_name_for_refinement c in
      let dict_context := _get_correction_context c in
      let! text := locals (gets final_text) in
      let! refined := call (refinement_refine text app_name dict_context)
                           (refine text app_name dict_context) in
      when (negb (String.eqb refined text))
           (locals (modify (set_refined_text (Some refined))) >>
            locals (modify (set_final_text refined)) >>
            log INFO "Refined: %s")
  | None => ret tt
  end >>
  let! text := locals (gets final_text) in
  let! ok := call (injector_inject text) (injector_inject_outcome c text) in
  locals (modify (set_success ok)) >>
  if ok then log INFO "Text injected (%d chars)"
  else log LOG_ERROR "Text injection failed".

(** The [finally] clause: the history entry. *)
Definition save_history (c : Components) (raw_text : string) (duration : Q)
           (language : option string) : Py (State * Locals) unit :=
  match history_add_outcome c with
  | Some add =>
      try_except
        (let app_context := window_name_for_history c in
         let! refined := locals (gets refined_text) in
         call (history_add raw_text refined duration app_context language)
              (add raw_text refined))
        (log LOG_ERROR "Failed to save transcription to history")
  | None => ret tt
  end.

(** What follows a transcription that returned. *)
Definition after_transcription (c : Components) (duration : Q) (result : TranscriptionResult)
  : Py (State * Locals) unit :=
  if String.eqb (strip (text result)) "" then
    log INFO "Empty transcription, skipping injection" >>
    on_app (LinuxWhispr._set_state IDLE)
  else
    call (emit_stt_complete (text result) (language result)) (Return tt) >>
    let raw_text := strip (text result) in
    modify (fun s => (set_last raw_text duration (language result) s.1, s.2)) >>
    log INFO "Transcribed: %s" >>
    locals (modify (fun _ => {| final_text := raw_text; refined_text := None;
                                success := false |})) >>
    try_except (post_transcription c raw_text)
               (log LOG_ERROR "Post-transcription pipeline failed") >>
    save_history c raw_text duration (language result) >>
    let! ok := locals (gets success) in
    match adaptive_start_watching_outcome c with
    | Some start_watching =>
        if ok then
          let! text := locals (gets final_text) in
          call (adaptive_start_watching text) (start_watching text)
        else ret tt
    | None => ret tt
    end >>
    on_app (LinuxWhispr._set_state IDLE).

(** The head of [_process_audio]: the model is loaded on first use. *)
Definition load_stt (c : Components) : Py (State * Locals) unit :=
  if negb (stt_is_loaded c) then
    log INFO "Loading STT model (first use)..." >>
    call emit_stt_started (Return tt) >>
    call stt_load (stt_load_outcome c)
  else ret tt.

(** The first [try]: the transcription, or [None] where the [except]
    clause returns from [_process_audio]. *)
Definition transcribe (c : Components) (wav_bytes : list Z)
  : Py (State * Locals) (option TranscriptionResult) :=
  try_except
    (let language := config_stt_language c in
     let initial_prompt := _get_dictionary_prompt c in
     let! result := call (stt_transcribe wav_bytes language initial_prompt)
                         (stt_transcribe_outcome c wav_bytes language initial_prompt) in
     ret (Some result))
    (log LOG_ERROR "Transcription failed" >>
     on_app (LinuxWhispr._set_state ERROR) >>
     call (notify "Transcription Failed" "Check logs for details" "critical")
          (Return tt) >>
     ret None).

(** [_process_audio(wav_bytes, duration)]. *)
Definition _process_audio (c : Components) (wav_bytes : list Z) (duration : Q)
  : Py (State * Locals) unit :=
  load_stt c >>
  call emit_stt_started (Return tt) >>
  let! result := transcribe c wav_bytes in
  match result with
  | Some result => after_transcription c duration result
  | None => ret tt
  end.

(** The run of the pipeline thread on the application [s]. *)
Definition run (c : Components) (wav_bytes : list Z) (duration : Q)
           (s : LinuxWhispr.t * Runtime) : outcome unit * State :=
  let res := _process_audio c wav_bytes duration
               (State0 s, {| final_text := ""; refined_text := None; success := false |}) in
  (res.1, res.2.1).

End ProcessAudio.

End Pipeline.

Section PipelineVocabulary.

Import Pipeline.

(** The application [b] is [a] but for log records. *)
Definition untouched (a b : LinuxWhispr.t * Runtime) : Prop :=
  b.1 = a.1 ∧ handlers b.2 = handlers a.2 ∧ emitted b.2 = emitted a.2 ∧
  threads b.2 = threads a.2 ∧ pa_calls b.2 = pa_calls a.2.

(** The application [b] is [a] after one [_set_state(final)], but for log
    records. *)
Definition settled (final : AppState) (a b : LinuxWhispr.t * Runtime) : Prop :=
  b.1 = LinuxWhispr.set_state final a.1 ∧ handlers b.2 = handlers a.2 ∧
  emitted b.2 = emitted a.2 ++ [Ev_state_change (LinuxWhispr._state a.1) final] ∧
  threads b.2 = threads a.2 ∧ pa_calls b.2 = pa_calls a.2.

Definition is_history_add (c : Call) : bool :=
  match c with history_add _ _ _ _ _ => true | _ => false end.

Definition is_injector_inject (c : Call) : bool :=
  match c with injector_inject _ => true | _ => false end.

(** The answer of the transcription in a run. *)
Definition transcription (c : Components) (wav_bytes : list Z)
  : outcome TranscriptionResult :=
  stt_transcribe_outcome c wav_bytes (config_stt_language c) (_get_dictionary_prompt c).

(** What the [try] block computes from the stripped transcription: the
    snippet expansion, its refinement, and so the text handed to the
    injector. *)
Definition expanded_text (c : Components) (raw_text : string) : outcome string :=
  match snippets_expand_outcome c with
  | Some expand => expand raw_text
  | None => Return raw_text
  end.

Definition refined_of (c : Components) (text : string) : outcome string :=
  match refinement_refine_outcome c with
  | Some refine => refine text (window_name_for_refinement c) (_get_correction_context c)
  | None => Return text
  end.

Definition text_to_inject (c : Components) (raw_text : string) : outcome string :=
  match expanded_text c raw_text with
  | Return expanded => refined_of c expanded
  | Raise e => Raise e
  end.

(** The [refined_text] of the history entry: the refinement, when there
    was one and it changed the text. *)
Definition refined_text_of (c : Components) (raw_text : string) : option string :=
  match expanded_text c raw_text with
  | Return expanded =>
      match refined_of c expanded with
      | Return refined => if String.eqb refined expanded then None else Some refined
      | Raise _ => None
      end
  | Raise _ => None
  end.

(** The text [start_watching] is called with in a run, if it is called:
    the injected text, when the injector answered [True] and there is a
    learner; and the outcome of that call. *)
Definition watched_text (c : Components) (raw_text : string) : option string :=
  match text_to_inject c raw_text with
  | Return text =>
      match injector_inject_outcome c text with
      | Return true =>
          if adaptive_start_watching_outcome c is Some _ then Some text else None
      | _ => None
      end
  | Raise _ => None
  end.

Definition watch_outcome (c : Components) (raw_text : string) : outcome unit :=
  match watched_text c raw_text, adaptive_start_watching_outcome c with
  | Some text, Some start_watching => start_watching text
  | _, _ => Return tt
  end.

(** The STT model is loaded, or loads. *)
Definition stt_ready (c : Components) : Prop :=
  stt_is_loaded c = true ∨ stt_load_outcome c = Return tt.

(** Components for the examples: a backend that hears " hello world ",
    snippets that expand nothing, a refinement that raises, an injector
    that succeeds, a history that saves. *)
Definition demo_components : Components :=
  {| config_stt_language := Some "en";
     config_promotion_threshold := 2;
     stt_is_loaded := true;
     stt_load_outcome := Return tt;
     stt_transcribe_outcome := fun _ _ _ =>
       Return {| text := " hello world "; language := Some "en" |};
     dictionary := Some demo_dictionary;
     snippets_expand_outcome := Some (fun text => Return text);
     refinement_refine_outcome := Some (fun _ _ _ => Raise (RuntimeError "LLM unreachable"));
     window_name_for_refinement := Some "editor";
     window_name_for_history := Some "editor";
     injector_inject_outcome := fun _ => Return true;
     history_add_outcome := Some (fun _ _ => Return tt);
     adaptive_start_watching_outcome := None |}.

(** The same with a backend that fails to load on first use. *)
Definition demo_unloaded : Components :=
  {| config_stt_language := config_stt_language demo_components;
     config_promotion_threshold := config_promotion_threshold demo_components;
     stt_is_loaded := false;
     stt_load_outcome := Raise (RuntimeError "model file missing");
     stt_transcribe_outcome := stt_transcribe_outcome demo_components;
     dictionary := dictionary demo_components;
     snippets_expand_outcome := snippets_expand_outcome demo_components;
     refinement_refine_outcome := refinement_refine_outcome demo_components;
     window_name_for_refinement := window_name_for_refinement demo_components;
     window_name_for_history := window_name_for_history demo_components;
     injector_inject_outcome := injector_inject_outcome demo_components;
     history_add_outcome := history_add_outcome demo_components;
     adaptive_start_watching_outcome := adaptive_start_watching_outcome demo_components |}.

(** [str.strip] on spaces, for the examples. *)
Fixpoint lstrip_spaces (s : string) : string :=
  match s with
  | String ch rest =>
      if Ascii.eqb ch (Ascii.ascii_of_nat 32) then lstrip_spaces rest else s
  | EmptyString => s
  end.

Definition strip_spaces (s : string) : string :=
  String.rev (lstrip_spaces (String.rev (lstrip_spaces s))).

(** The application of the examples while the pipeline runs. *)
Definition demo_processing : LinuxWhispr.t * Runtime :=
  app_run [AE_hotkey 1 Pa_ok] demo_two_blocks.

End PipelineVocabulary.

(** * Properties *)

(** ** Comparisons on rationals *)

Lemma Qgeb_true (x y : Q) : Qgeb x y = true <-> (y <= x)%Q.
Proof. unfold Qgeb. apply Qle_bool_iff. Qed.

Lemma Qltb_false (x y : Q) : Qltb x y = false <-> (y <= x)%Q.
Proof.
  unfold Qltb. rewrite negb_false_iff. apply Qle_bool_iff.
Qed.

Lemma Qltb_true (x y : Q) : Qltb x y = true <-> (x < y)%Q.
Proof.
  unfold Qltb. rewrite negb_true_iff. split; intros H.
  - apply Qnot_le_lt. intros Hle. apply Qle_bool_iff in Hle. congruence.
  - destruct (Qle_bool y x) eqn:E; [|reflexivity].
    apply Qle_bool_iff in E. exfalso. exact (Qlt_not_le _ _ H E).
Qed.


(** ** Tactics *)

Arguments Qgeb : simpl never.
Arguments Qltb : simpl never.
Arguments SileroVAD.reset : simpl never.
Arguments SileroVAD.load : simpl never.
Arguments SileroVAD.process_chunk : simpl never.
Arguments SileroVAD.is_speech : simpl never.
Arguments SileroVAD.should_stop : simpl never.
Arguments AudioCapture.start : simpl never.
Arguments AudioCapture.stop : simpl never.
Arguments AudioCapture._audio_callback : simpl never.
Arguments EventBus.emit : simpl never.
Arguments EventBus.on : simpl never.
Arguments LinuxWhispr._set_state : simpl never.
Arguments LinuxWhispr._start_recording : simpl never.
Arguments LinuxWhispr._stop_recording : simpl never.
Arguments LinuxWhispr._on_dictation_hotkey : simpl never.
Arguments LinuxWhispr._vad_monitor_round : simpl never.
Arguments wave.write : simpl never.
Arguments wave.read : simpl never.

Ltac py_unfold :=
  unfold on_self, on_rt, lift_outcome, construct, when in *;
  unfold zoom, bind, ret, raise, gets, get, modify in *.

(** ** The detector: [should_stop] *)

Section ShouldStop.

Import SileroVAD.

Lemma should_stop_pure (now : Q) (v : t) :
  ∃ b, should_stop now v = (Return b, v).
Proof.
  unfold should_stop. py_unfold.
  destruct (_speech_detected v); cbn; [|eauto].
  destruct (_speech_start_time v); cbn; [|eauto].
  destruct (Qltb _ _); eauto.
Qed.

Lemma should_stop_true_iff (now : Q) (v : t) :
  (should_stop now v).1 = Return true ↔
  _speech_detected v = true ∧
  ∃ speech_start_time, _speech_start_time v = Some speech_start_time ∧
    (_min_speech_duration v <= _last_speech_time v - speech_start_time)%Q ∧
    (_silence_duration v <= now - _last_speech_time v)%Q.
Proof.
  unfold should_stop. py_unfold.
  destruct (_speech_detected v); cbn.
  2: { split; [discriminate | intros [? _]; discriminate]. }
  destruct (_speech_start_time v) as [t0|]; cbn.
  2: { split; [discriminate | intros (_ & ? & ? & _); discriminate]. }
  destruct (Qltb _ _) eqn:Hlt; cbn.
  - apply Qltb_true in Hlt. split; [discriminate|].
    intros (_ & t1 & [= <-] & Hmin & _).
    exfalso. exact (Qlt_not_le _ _ Hlt Hmin).
  - apply Qltb_false in Hlt. split.
    + intros [= Hge]. apply Qgeb_true in Hge. eauto 6.
    + intros (_ & t1 & [= <-] & _ & Hsil). f_equal. by apply Qgeb_true.
Qed.

Lemma should_stop_undetected (now : Q) (v : t) :
  _speech_detected v = false → should_stop now v = (Return false, v).
Proof. intros H. unfold should_stop. py_unfold. by rewrite H. Qed.

(** C2. [should_stop] answers true exactly when speech was detected,
    the observed speech lasted at least [min_speech_duration] and the
    silence since the last speech at least [silence_duration]; it never
    raises and leaves the detector as it was. With 0.3 s and 2.0 s and
    speech from t = 0 to t = 0.5 it answers false at t = 2.0 and true at
    t = 2.5. *)
Theorem should_stop_spec :
  (∀ (now : Q) (v : t),
      (should_stop now v).1 = Return true ↔
      _speech_detected v = true ∧
      ∃ speech_start_time, _speech_start_time v = Some speech_start_time ∧
        (_min_speech_duration v <= _last_speech_time v - speech_start_time)%Q ∧
        (_silence_duration v <= now - _last_speech_time v)%Q) ∧
  (∀ (now : Q) (v : t),
      (should_stop now v).2 = v ∧ raises (should_stop now v).1 = false) ∧
  (let v := vad_run P3_until_2 P3_detector in
   _speech_start_time v = Some 0%Q ∧ _last_speech_time v = (1 # 2)%Q ∧
   (should_stop 2 v).1 = Return false) ∧
  (let v := vad_run P3_until_2_5 P3_detector in
   _speech_start_time v = Some 0%Q ∧ _last_speech_time v = (1 # 2)%Q ∧
   (should_stop (5 # 2) v).1 = Return true).
Proof.
  split; [exact should_stop_true_iff|].
  split.
  { intros now v. destruct (should_stop_pure now v) as [b ->]. done. }
  split; vm_compute; done.
Qed.

End ShouldStop.

(** ** The detector: what a run can reach *)

Section Reachable.

Import SileroVAD.

Lemma process_window_frame session audio_float start (v : t) :
  let v' := (process_window session audio_float start v).2 in
  tracking v' = tracking v ∧ settings v' = settings v.
Proof.
  unfold process_window, output_prob, output_at. py_unfold. cbn.
  repeat case_match; simplify_eq; cbn; done.
Qed.

Lemma process_windows_frame session audio_float starts prob (v : t) :
  let v' := (process_windows session audio_float starts prob v).2 in
  tracking v' = tracking v ∧ settings v' = settings v.
Proof.
  revert prob v. induction starts as [|start rest IH]; intros prob v; cbn; [done|].
  unfold bind.
  pose proof (process_window_frame session audio_float start v) as Hw.
  destruct (process_window session audio_float start v) as [[p|e] v1]; cbn in *; [|done].
  destruct Hw as [Ht Hs]. rewrite <- Ht, <- Hs. apply IH.
Qed.

Lemma process_chunk_frame audio (v : t) :
  let v' := (process_chunk audio v).2 in
  tracking v' = tracking v ∧ settings v' = settings v.
Proof.
  unfold process_chunk. py_unfold.
  destruct (_session v) as [session|]; cbn; [|done].
  apply process_windows_frame.
Qed.

Lemma process_chunk_not_loaded audio (v : t) :
  _session v = None →
  process_chunk audio v
  = (Raise (RuntimeError "VAD model not loaded. Call load() first."), v).
Proof. intros H. unfold process_chunk. py_unfold. by rewrite H. Qed.

Lemma is_speech_not_loaded audio now (v : t) :
  _session v = None →
  is_speech audio now v
  = (Raise (RuntimeError "VAD model not loaded. Call load() first."), v).
Proof.
  intros H. unfold is_speech, bind. by rewrite process_chunk_not_loaded.
Qed.

(** What [is_speech] does to the tracking, by its result. *)
Lemma is_speech_tracking audio now (v : t) :
  let r := is_speech audio now v in
  settings r.2 = settings v ∧
  match r.1 with
  | Return true =>
      tracking r.2
      = (true,
         if _speech_detected v then _speech_start_time v else Some now,
         now)
  | _ => tracking r.2 = tracking v
  end.
Proof.
  unfold is_speech, bind.
  pose proof (process_chunk_frame audio v) as Hf.
  destruct (process_chunk audio v) as [[p|e] v1]; cbn in *; [|by destruct Hf].
  destruct Hf as [Ht Hs]. py_unfold.
  assert (_speech_detected v1 = _speech_detected v
          ∧ _speech_start_time v1 = _speech_start_time v) as [Hd Hst].
  { unfold tracking in Ht. by simplify_eq. }
  destruct (Qgeb p (_threshold v1)); cbn; [|done].
  rewrite Hd. destruct (_speech_detected v); cbn.
  - split; [done|]. unfold tracking. cbn. by rewrite Hd, Hst.
  - done.
Qed.

Lemma reset_tracking (v : t) :
  tracking (reset v).2 = (false, None, 0%Q) ∧ _session (reset v).2 = _session v.
Proof. unfold reset. py_unfold. by destruct (_use_state_input v). Qed.

Lemma timing_ok_of_tracking clock (v v' : t) :
  tracking v' = tracking v → timing_ok clock v → timing_ok clock v'.
Proof.
  unfold tracking, timing_ok. intros [= -> -> ->]. done.
Qed.

Lemma timing_ok_later c c' (v : t) :
  (c <= c')%Q → timing_ok c v → timing_ok c' v.
Proof.
  intros Hc Hv Hd. destruct (Hv Hd) as (t0 & ? & ? & ?).
  exists t0. repeat split; [done..|]. by eapply Qle_trans.
Qed.

Lemma load_tracking model (v : t) r :
  let v' := (load model (v, r)).2.1 in
  tracking v' = tracking v ∨ tracking v' = (false, None, 0%Q).
Proof.
  destruct model as [session|e]; cbn; [|by left].
  right. unfold load, reset. py_unfold. cbn.
  by destruct (bool_decide _).
Qed.

Lemma vad_run_timing_ok (ops : list VadOp) (clock : Q) (v : t) :
  monotonic_from clock (op_times ops) → timing_ok clock v →
  ∃ clock', timing_ok clock' (vad_run ops v).
Proof.
  revert clock v. induction ops as [|op ops IH]; intros clock v Hm Hv; [by exists clock|].
  destruct op as [|model|audio now]; cbn in Hm |- *.
  - apply (IH clock); [done|].
    intros Hd. destruct (reset_tracking v) as [Ht _].
    unfold tracking in Ht. simplify_eq. congruence.
  - apply (IH clock); [done|].
    destruct (load_tracking model v Runtime0) as [Ht|Ht].
    + by eapply timing_ok_of_tracking.
    + intros Hd. unfold tracking in Ht. simplify_eq. congruence.
  - destruct Hm as [Hle Hm]. apply (IH now); [done|].
    destruct (is_speech_tracking audio now v) as [_ Ht].
    destruct (is_speech audio now v) as [[[|]|e] v1]; cbn in *.
    + unfold tracking in Ht. injection Ht as Hd1 Hs1 Hl1.
      intros _. rewrite Hs1, Hl1.
      destruct (_speech_detected v) eqn:Hd.
      * destruct (Hv Hd) as (t0 & Hs & H1 & H2).
        exists t0. repeat split; [done| |apply Qle_refl].
        eapply Qle_trans; [exact H1|]. by eapply Qle_trans.
      * exists now. repeat split; apply Qle_refl.
    + eapply timing_ok_of_tracking; [done|]. by eapply timing_ok_later.
    + eapply timing_ok_of_tracking; [done|]. by eapply timing_ok_later.
Qed.

End Reachable.

Section ReachableClaims.

Import SileroVAD.

Lemma monotonic_from_head (ts : list Q) :
  monotonic ts → ∃ clock, monotonic_from clock ts.
Proof.
  destruct ts as [|t rest]; cbn; intros H; [by exists 0%Q|].
  exists t. split; [apply Qle_refl | done].
Qed.

Lemma timing_ok_init threshold silence min_speech sr clock :
  timing_ok clock (__init__ threshold silence min_speech sr).
Proof. intros Hd. discriminate Hd. Qed.

(** C7. In every state a detector reaches from [__init__] by [reset],
    [load] and [is_speech] calls under a monotonic clock: when speech
    has been detected the last speech is not before its onset; when it
    has not, [should_stop] is false; and a block below the threshold
    leaves the speech tracking, [speech_detected] included, as it was. *)
Theorem vad_timing_invariant (threshold silence min_speech : Q) (sr : Z)
        (ops : list VadOp) :
  monotonic (op_times ops) →
  let v := vad_run ops (__init__ threshold silence min_speech sr) in
  (_speech_detected v = true →
   ∃ speech_start_time, _speech_start_time v = Some speech_start_time ∧
     (speech_start_time <= _last_speech_time v)%Q) ∧
  (_speech_detected v = false → ∀ now, should_stop now v = (Return false, v)) ∧
  (∀ audio now,
      (is_speech audio now v).1 = Return false →
      _speech_detected (is_speech audio now v).2 = _speech_detected v ∧
      tracking (is_speech audio now v).2 = tracking v).
Proof.
  intros Hm v. repeat split.
  - intros Hd. apply monotonic_from_head in Hm as [clock Hm].
    destruct (vad_run_timing_ok ops clock (__init__ threshold silence min_speech sr) Hm
                (timing_ok_init _ _ _ _ _)) as [clock' Hok].
    destruct (Hok Hd) as (t0 & ? & ? & _). eauto.
  - intros Hd now. by apply should_stop_undetected.
  - destruct (is_speech_tracking audio now v) as [_ Ht]. rewrite H in Ht.
    unfold tracking in Ht. by injection Ht.
  - destruct (is_speech_tracking audio now v) as [_ Ht]. by rewrite H in Ht.
Qed.

Lemma vad_timing_invariant_witness :
  monotonic (op_times (Op_load (Return level_session) :: P3_until_2_5)) ∧
  let v := vad_run (Op_load (Return level_session) :: P3_until_2_5)
                   (__init__ VAD_THRESHOLD 2 (3 # 10) AUDIO_SAMPLE_RATE) in
  _speech_detected v = true ∧
  ∃ speech_start_time, _speech_start_time v = Some speech_start_time ∧
    (speech_start_time <= _last_speech_time v)%Q.
Proof.
  assert (monotonic (op_times (Op_load (Return level_session) :: P3_until_2_5))) as Hm.
  { cbn. repeat split; done. }
  split; [exact Hm|].
  split; [by vm_compute|].
  apply (vad_timing_invariant VAD_THRESHOLD 2 (3 # 10) AUDIO_SAMPLE_RATE _ Hm).
  by vm_compute.
Defined.

Lemma vad_run_not_loaded (ops : list VadOp) (v : t) :
  Forall (λ op, is_load op = false) ops →
  _session v = None → _session (vad_run ops v) = None.
Proof.
  intros Hops. revert v. induction Hops as [|op ops Hop Hops IH]; intros v Hv; [done|].
  cbn. apply IH. destruct op as [|model|audio now]; cbn.
  - destruct (reset_tracking v) as [_ ->]. done.
  - discriminate Hop.
  - by rewrite is_speech_not_loaded.
Qed.

(** C10. While [load()] has not been called, for every block
    [process_chunk] raises "VAD model not loaded" instead of returning a
    probability, and [is_speech] raises the same error and leaves the
    detector, its speech tracking included, unchanged. *)
Theorem not_loaded_raises (threshold silence min_speech : Q) (sr : Z)
        (ops : list VadOp) :
  Forall (λ op, is_load op = false) ops →
  let v := vad_run ops (__init__ threshold silence min_speech sr) in
  ∀ audio now,
    process_chunk audio v
    = (Raise (RuntimeError "VAD model not loaded. Call load() first."), v) ∧
    is_speech audio now v
    = (Raise (RuntimeError "VAD model not loaded. Call load() first."), v) ∧
    tracking (is_speech audio now v).2 = tracking v.
Proof.
  intros Hops v audio now.
  assert (_session v = None) as Hv by (by apply vad_run_not_loaded).
  rewrite is_speech_not_loaded, process_chunk_not_loaded by done. done.
Qed.

Lemma not_loaded_raises_witness :
  Forall (λ op, is_load op = false) [Op_reset; Op_is_speech speech_block 0] ∧
  let v := vad_run [Op_reset; Op_is_speech speech_block 0]
                   (__init__ VAD_THRESHOLD 2 (3 # 10) AUDIO_SAMPLE_RATE) in
  is_speech silence_block 1 v
  = (Raise (RuntimeError "VAD model not loaded. Call load() first."), v).
Proof.
  assert (Forall (λ op, is_load op = false) [Op_reset; Op_is_speech speech_block 0]) as H.
  { repeat constructor. }
  split; [exact H|].
  apply (not_loaded_raises VAD_THRESHOLD 2 (3 # 10) AUDIO_SAMPLE_RATE _ H silence_block 1).
Defined.

End ReachableClaims.

(** ** The event bus *)

Section Bus.

Lemma count_app {A} (p : A → bool) (l1 l2 : list A) :
  count p (l1 ++ l2) = (count p l1 + count p l2)%nat.
Proof. induction l1 as [|x l1 IH]; cbn; [done|]. rewrite IH. lia. Qed.

Lemma grown_nil r : grown [] [] r = r.
Proof. destruct r. unfold grown. cbn. by rewrite !app_nil_r. Qed.

Lemma grown_grown th1 lg1 th2 lg2 r :
  grown th2 lg2 (grown th1 lg1 r) = grown (th1 ++ th2) (lg1 ++ lg2) r.
Proof. unfold grown. cbn. by rewrite !app_assoc. Qed.

Lemma benign_app e th1 lg1 th2 lg2 :
  benign e th1 lg1 → benign e th2 lg2 → benign e (th1 ++ th2) (lg1 ++ lg2).
Proof.
  intros (H1 & H2 & H3 & H4) (H1' & H2' & H3' & H4').
  unfold benign. rewrite !count_app, H1, H2, H4, H1', H2', H4'.
  split_and!; try done. intros He. by rewrite H3, H3'.
Qed.

Lemma dispatch_grown e h r :
  ∃ th lg, EventBus.dispatch e h r = (Return tt, grown th lg r) ∧ benign e th lg.
Proof.
  unfold EventBus.dispatch, EventBus.call_handler.
  destruct h as [|name].
  2: { exists [], []. cbn. by rewrite grown_nil. }
  destruct e; cbn;
    try (exists [], [(LOG_ERROR, "Error in handler %s for event '%s'")];
         unfold grown; cbn; rewrite app_nil_r; by destruct r).
  exists [Th_process_audio wav_bytes duration], [].
  unfold Thread_start, modify, set_threads, grown. cbn. rewrite app_nil_r.
  split; [done|]. by unfold benign.
Qed.

Lemma for_each_dispatch_grown e hs r :
  ∃ th lg, for_each hs (EventBus.dispatch e) r = (Return tt, grown th lg r) ∧ benign e th lg.
Proof.
  revert r. induction hs as [|h hs IH]; intros r; cbn.
  { exists [], []. by rewrite grown_nil. }
  unfold bind. destruct (dispatch_grown e h r) as (th1 & lg1 & -> & Hb1).
  destruct (IH (grown th1 lg1 r)) as (th2 & lg2 & -> & Hb2).
  exists (th1 ++ th2), (lg1 ++ lg2). rewrite grown_grown.
  split; [done|]. by apply benign_app.
Qed.

(** What [emit] does: nothing is raised, the event is recorded, and the
    handlers' threads and log records are appended. *)
Lemma emit_grown e r :
  EventBus.emit e r
  = (Return tt,
     {| handlers := handlers r; emitted := emitted r ++ [e];
        threads := threads r ++ emit_threads e r;
        log := log r ++ emit_log e r; pa_calls := pa_calls r |}) ∧
  benign e (emit_threads e r) (emit_log e r).
Proof.
  assert (∃ th lg,
             EventBus.emit e r
             = (Return tt,
                {| handlers := handlers r; emitted := emitted r ++ [e];
                   threads := threads r ++ th;
                   log := log r ++ lg; pa_calls := pa_calls r |}) ∧
             benign e th lg) as (th & lg & Heq & Hb).
  { unfold EventBus.emit. py_unfold. cbn.
    destruct (default [] (handlers r !! event_name e)) as [|h hs] eqn:Hhs.
    { exists [], []. by rewrite !app_nil_r. }
    match goal with
    | |- context [for_each ?l ?f ?r0] =>
        destruct (for_each_dispatch_grown e l r0) as (th & lg & -> & Hb)
    end.
    exists th, ((DEBUG, "Emitting event '%s' to %d handler(s)") :: lg).
    unfold grown. cbn. rewrite <- app_assoc. cbn. split; [done|].
    destruct Hb as (? & ? & ? & ?). by unfold benign. }
  unfold emit_threads, emit_log, emit_to. rewrite Heq. cbn.
  by rewrite !drop_app_length.
Qed.

Lemma emit_eq e r : EventBus.emit e r = (Return tt, emit_to e r).
Proof. unfold emit_to. destruct (emit_grown e r) as [-> _]. done. Qed.

Lemma emit_to_eq e r :
  emit_to e r
  = {| handlers := handlers r; emitted := emitted r ++ [e];
       threads := threads r ++ emit_threads e r;
       log := log r ++ emit_log e r; pa_calls := pa_calls r |}.
Proof. unfold emit_to at 1. destruct (emit_grown e r) as [-> _]. done. Qed.

Lemma emit_threads_quiet e r : is_audio_ready e = false → emit_threads e r = [].
Proof. destruct (emit_grown e r) as (_ & _ & _ & H & _). exact H. Qed.

Lemma emit_threads_stop e r : count is_stop_thread (emit_threads e r) = 0%nat.
Proof. destruct (emit_grown e r) as (_ & H & _). exact H. Qed.

Lemma emit_threads_monitor e r : count is_vad_monitor (emit_threads e r) = 0%nat.
Proof. destruct (emit_grown e r) as (_ & _ & H & _). exact H. Qed.

Lemma emit_log_stop e r : count is_stop_message (emit_log e r) = 0%nat.
Proof. destruct (emit_grown e r) as (_ & _ & _ & _ & H). exact H. Qed.

End Bus.

Arguments emit_to : simpl never.
Arguments emit_threads : simpl never.
Arguments emit_log : simpl never.

(** ** The capture service *)

Section Capture.

Import AudioCapture.

Lemma stop_not_recording now (a : t) r :
  _recording a = false →
  stop now (a, r) = (Return None, (a, log_at WARNING "Not recording" r)).
Proof. intros H. unfold stop. py_unfold. cbn. by rewrite H. Qed.

(** [stop], by cases. *)
Lemma stop_eq now (a : t) r :
  stop now (a, r) =
  if _recording a then
    match _frames a with
    | [] => (Return None, (closed a, log_at WARNING "No audio frames captured" (closed_rt a r)))
    | _ =>
        match _to_wav a (concat (_frames a)) with
        | Return wav =>
            (Return (Some wav),
             (closed a, emit_to (Ev_audio_ready wav (now - _start_time a)%Q) (closed_rt a r)))
        | Raise e => (Raise e, (closed a, closed_rt a r))
        end
    end
  else (Return None, (a, log_at WARNING "Not recording" r)).
Proof.
  unfold stop, closed, closed_rt, with_pa_calls, log_at.
  py_unfold. cbn.
  destruct (_recording a); cbn; [|done].
  destruct (_stream a) as [stream|]; cbn;
    destruct (_frames a) as [|f fs]; cbn; rewrite <- ?app_assoc; cbn; try done;
    unfold _to_wav; cbn;
    (destruct (wave.write _ _ _ _) as [wav|err]; cbn; [|done]);
    rewrite emit_eq; done.
Qed.

(** [start], by cases. *)
Lemma start_eq now pa (a : t) r :
  start now pa (a, r) =
  if _recording a then (Return tt, (a, log_at WARNING "Already recording" r))
  else
    match pa with
    | Pa_open_fails =>
        (Raise (PortAudioError "Error opening InputStream"), (armed now a, r))
    | Pa_start_fails =>
        (Raise (PortAudioError "Error starting stream"),
         (set_stream (Some (requested_stream a)) (armed now a),
          with_pa_calls [Pa_OpenStream] r))
    | Pa_ok =>
        (Return tt,
         (set_stream (Some (InputStream_started (requested_stream a))) (armed now a),
          log_at INFO "Recording started (device=%s, rate=%d)"
                   (with_pa_calls [Pa_OpenStream; Pa_StartStream] r)))
    end.
Proof.
  unfold start, sd_InputStream, stream_start, armed, requested_stream,
    with_pa_calls, log_at.
  py_unfold. cbn.
  destruct (_recording a); cbn; [done|].
  destruct pa; cbn; rewrite <- ?app_assoc; done.
Qed.

(** [_audio_callback], by cases. *)
Lemma callback_eq indata status now (a : t) r :
  _audio_callback indata status now (a, r) =
  let r0 := if status then log_at WARNING "Audio callback status: %s" r else r in
  if _recording a then
    if Qgeb (now - _start_time a) MAX_RECORDING_DURATION then
      (Return tt,
       (a, spawn Th_AudioCapture_stop
             (log_at WARNING "Max recording duration reached, auto-stopping" r0)))
    else
      (Return tt,
       (set_frames (_frames a ++ [indata]) a,
        emit_to (Ev_audio_level (mean_square indata)) r0))
  else (Return tt, (a, r0)).
Proof.
  unfold _audio_callback, duration, spawn, log_at, Thread_start.
  py_unfold. cbn.
  destruct status; cbn; destruct (_recording a) eqn:Hr; cbn; try done;
    rewrite ?Hr; cbn;
    destruct (Qgeb _ _); cbn; try done; by rewrite emit_eq.
Qed.

End Capture.

Arguments log_at : simpl never.
Arguments with_pa_calls : simpl never.
Arguments spawn : simpl never.
Arguments closed : simpl never.
Arguments closed_rt : simpl never.
Arguments armed : simpl never.
Arguments requested_stream : simpl never.

(** ** The application: the methods by cases *)

Section App.

Import LinuxWhispr.

Lemma _set_state_eq st (w : t) r :
  _set_state st (w, r) = (Return tt, (set_state st w, state_logged (_state w) st r)).
Proof.
  unfold _set_state, state_logged, log_at. py_unfold. cbn. by rewrite emit_eq.
Qed.

Lemma _start_recording_eq now pa (w : t) r :
  _start_recording now pa (w, r) =
  let w1 := set_vad (SileroVAD.reset (_vad w)).2 (set_state RECORDING w) in
  let r1 := state_logged (_state w) RECORDING r in
  match AudioCapture.start now pa (_audio w, r1) with
  | (Raise e, (a', r2)) => (Raise e, (set_audio a' w1, r2))
  | (Return _, (a', r2)) =>
      (Return tt,
       (set_vad_thread (Some Th_vad_monitor) (set_vad_active true (set_audio a' w1)),
        log_at INFO "Recording started"
               (spawn Th_vad_monitor (emit_to Ev_hotkey_dictation_start r2))))
  end.
Proof.
  unfold _start_recording, audio, vad. py_unfold. rewrite _set_state_eq. cbn.
  assert ((SileroVAD.reset (_vad w)).1 = Return tt) as Hreset.
  { unfold SileroVAD.reset. py_unfold. by destruct (SileroVAD._use_state_input _). }
  destruct (SileroVAD.reset (_vad w)) as [o v1]. cbn in *. subst o. cbn.
  destruct (AudioCapture.start _ _ _) as [[[]|e] [a' r2]]; cbn; [|done].
  rewrite emit_eq. done.
Qed.

Lemma _stop_recording_eq now (w : t) r :
  _stop_recording now (w, r) =
  let w1 := set_state PROCESSING (set_vad_active false w) in
  let r1 := emit_to Ev_hotkey_dictation_stop (state_logged (_state w) PROCESSING r) in
  match AudioCapture.stop now (_audio w, r1) with
  | (Raise e, (a', r2)) => (Raise e, (set_audio a' w1, r2))
  | (Return None, (a', r2)) =>
      (Return tt,
       (set_state IDLE (set_audio a' w1),
        state_logged PROCESSING IDLE (log_at WARNING "No audio captured" r2)))
  | (Return (Some _), (a', r2)) => (Return tt, (set_audio a' w1, r2))
  end.
Proof.
  unfold _stop_recording, audio. py_unfold. cbn. rewrite _set_state_eq. cbn.
  rewrite emit_eq. cbn.
  destruct (AudioCapture.stop _ _) as [[[wav|]|e] [a' r2]]; cbn; [done| |done].
  rewrite _set_state_eq. done.
Qed.

Lemma _on_dictation_hotkey_eq now pa (w : t) r :
  _on_dictation_hotkey now pa (w, r) =
  match _state w with
  | IDLE => _start_recording now pa (w, r)
  | RECORDING => _stop_recording now (w, r)
  | _ => (Return tt, (w, log_at DEBUG "Ignoring hotkey in state %s" r))
  end.
Proof.
  unfold _on_dictation_hotkey. py_unfold. cbn. by destruct (_state w), w.
Qed.

End App.

Arguments state_logged : simpl never.

(** ** Stopping an empty session *)

Ltac rt_norm :=
  unfold state_logged, closed_rt;
  rewrite ?emit_to_eq;
  unfold log_at, with_pa_calls, spawn, set_threads; cbn;
  rewrite ?emit_threads_quiet by done;
  rewrite ?app_nil_r.

Section EmptyCapture.

Import LinuxWhispr.

Lemma stop_empty now (a : AudioCapture.t) r0 :
  AudioCapture._frames a = [] →
  ∃ a' r', AudioCapture.stop now (a, r0) = (Return None, (a', r'))
           ∧ AudioCapture._recording a' = false
           ∧ (AudioCapture._recording a = true → AudioCapture._stream a' = None)
           ∧ emitted r' = emitted r0 ∧ threads r' = threads r0.
Proof.
  intros Hf. rewrite stop_eq, Hf.
  destruct (AudioCapture._recording a) eqn:Hrec.
  - eexists _, _. split; [done|].
    unfold closed, closed_rt, log_at, with_pa_calls.
    by destruct (AudioCapture._stream a) eqn:Hs.
  - eexists _, _. split; [done|]. unfold log_at. cbn. rewrite Hrec. by split_and!.
Qed.

(** Stopping with an empty frame list, whatever the state before. *)
Lemma _stop_recording_empty (w : t) (r : Runtime) (now : Q) :
  AudioCapture._frames (_audio w) = [] →
  let res := _stop_recording now (w, r) in
  res.1 = Return tt ∧
  _state res.2.1 = IDLE ∧
  AudioCapture._recording (_audio res.2.1) = false ∧
  (AudioCapture._recording (_audio w) = true →
   AudioCapture._stream (_audio res.2.1) = None) ∧
  emitted res.2.2
  = emitted r ++ [Ev_state_change (_state w) PROCESSING; Ev_hotkey_dictation_stop;
                  Ev_state_change PROCESSING IDLE] ∧
  wav_emissions res.2.2 = wav_emissions r ∧
  threads res.2.2 = threads r ∧
  pipeline_runs res.2.2 = pipeline_runs r.
Proof.
  intros Hf res. subst res. rewrite _stop_recording_eq. cbn zeta.
  destruct (stop_empty now (_audio w)
              (emit_to Ev_hotkey_dictation_stop (state_logged (_state w) PROCESSING r)) Hf)
    as (a' & r' & -> & Hrec & Hstream & Hem & Hth).
  cbn.
  assert (threads (state_logged PROCESSING IDLE (log_at WARNING "No audio captured" r'))
          = threads r) as Hthreads.
  { rt_norm. rewrite Hth. by rt_norm. }
  assert (emitted (state_logged PROCESSING IDLE (log_at WARNING "No audio captured" r'))
          = emitted r ++ [Ev_state_change (_state w) PROCESSING; Ev_hotkey_dictation_stop;
                          Ev_state_change PROCESSING IDLE]) as Hemitted.
  { rt_norm. rewrite Hem. rt_norm. by rewrite <- !app_assoc. }
  split_and!; try done.
  - unfold wav_emissions. rewrite Hemitted, count_app. cbn. lia.
  - unfold pipeline_runs. by rewrite Hthreads.
Qed.

(** C3. Stopping a recording session whose frame list is empty:
    [AudioCapture.stop] returns [None], the controller ends in [IDLE],
    no [audio.ready] is emitted and no pipeline thread is started; the
    events emitted are the two state changes and the stop signal. The
    hotkey in state [RECORDING] is this stop. *)
Theorem empty_capture_not_handed_over (w : t) (r : Runtime) (now : Q) (pa : PaOutcome) :
  _state w = RECORDING →
  AudioCapture._frames (_audio w) = [] →
  let res := _stop_recording now (w, r) in
  (∀ r0, (AudioCapture.stop now (_audio w, r0)).1 = Return None) ∧
  _on_dictation_hotkey now pa (w, r) = res ∧
  res.1 = Return tt ∧
  _state res.2.1 = IDLE ∧
  AudioCapture._recording (_audio res.2.1) = false ∧
  emitted res.2.2
  = emitted r ++ [Ev_state_change RECORDING PROCESSING; Ev_hotkey_dictation_stop;
                  Ev_state_change PROCESSING IDLE] ∧
  wav_emissions res.2.2 = wav_emissions r ∧
  threads res.2.2 = threads r ∧
  pipeline_runs res.2.2 = pipeline_runs r.
Proof.
  intros Hst Hf res.
  split. { intros r0. by destruct (stop_empty now _ r0 Hf) as (a' & r' & -> & _). }
  split. { by rewrite _on_dictation_hotkey_eq, Hst. }
  destruct (_stop_recording_empty w r now Hf) as (H1 & H2 & H3 & _ & H5 & H6 & H7 & H8).
  rewrite Hst in H5. done.
Qed.

Lemma empty_capture_not_handed_over_witness :
  _state demo_recording.1 = RECORDING ∧
  AudioCapture._frames (_audio demo_recording.1) = [] ∧
  _state (_stop_recording 1 demo_recording).2.1 = IDLE ∧
  wav_emissions (_stop_recording 1 demo_recording).2.2 = wav_emissions demo_recording.2.
Proof.
  assert (_state demo_recording.1 = RECORDING) as H1 by (by vm_compute).
  assert (AudioCapture._frames (_audio demo_recording.1) = []) as H2 by (by vm_compute).
  split; [exact H1|]. split; [exact H2|].
  destruct (empty_capture_not_handed_over demo_recording.1 demo_recording.2 1 Pa_ok H1 H2)
    as (_ & _ & _ & H4 & _ & _ & H7 & _).
  destruct demo_recording as [w r]. by split.
Defined.

End EmptyCapture.

(** ** A new session starts from a fresh detector *)

Section FreshDetector.

Import SileroVAD.

Lemma process_window_hidden session audio_float start (v1 v2 : t) :
  settings v1 = settings v2 → hidden v1 = hidden v2 →
  (process_window session audio_float start v1).1
  = (process_window session audio_float start v2).1 ∧
  hidden (process_window session audio_float start v1).2
  = hidden (process_window session audio_float start v2).2.
Proof.
  destruct v1 as [thr1 sil1 min1 sr1 ses1 st1 use1 h1 c1 d1 s1 l1].
  destruct v2 as [thr2 sil2 min2 sr2 ses2 st2 use2 h2 c2 d2 s2 l2].
  unfold settings, hidden. cbn. intros [= -> -> -> -> -> ->] Hh.
  unfold process_window, output_prob, output_at. py_unfold. cbn.
  destruct use2; cbn; simplify_eq; repeat case_match; simplify_eq; done.
Qed.

Lemma process_windows_hidden session audio_float starts prob (v1 v2 : t) :
  settings v1 = settings v2 → hidden v1 = hidden v2 →
  (process_windows session audio_float starts prob v1).1
  = (process_windows session audio_float starts prob v2).1.
Proof.
  revert prob v1 v2. induction starts as [|start rest IH]; intros prob v1 v2 Hs Hh; [done|].
  cbn. unfold bind.
  destruct (process_window_hidden session audio_float start v1 v2 Hs Hh) as [Hr Hh'].
  destruct (process_window_frame session audio_float start v1) as [_ Hs1].
  destruct (process_window_frame session audio_float start v2) as [_ Hs2].
  destruct (process_window session audio_float start v1) as [o1 v1'].
  destruct (process_window session audio_float start v2) as [o2 v2'].
  cbn in *. subst o2. destruct o1 as [p|e]; [|done].
  apply IH; [congruence|done].
Qed.

Lemma process_chunk_hidden audio (v1 v2 : t) :
  settings v1 = settings v2 → hidden v1 = hidden v2 →
  (process_chunk audio v1).1 = (process_chunk audio v2).1.
Proof.
  intros Hs Hh. unfold process_chunk. py_unfold.
  assert (_session v1 = _session v2) as -> by (unfold settings in Hs; congruence).
  destruct (_session v2) as [session|]; cbn; [|done].
  by apply process_windows_hidden.
Qed.

Lemma reset_fresh (v : t) :
  let v' := (reset v).2 in
  (if _use_state_input v' then _state v' = np_zeros (2 * 1 * 128)
   else _h v' = Some (np_zeros (2 * 1 * 64)) ∧ _c v' = Some (np_zeros (2 * 1 * 64))) ∧
  tracking v' = (false, None, 0%Q) ∧ settings v' = settings v.
Proof. unfold reset. py_unfold. by destruct (_use_state_input v) eqn:Hu; cbn; rewrite Hu. Qed.

Lemma reset_leftover state h c detected start last (v : t) :
  settings (reset (leftover state h c detected start last v)).2 = settings (reset v).2 ∧
  hidden (reset (leftover state h c detected start last v)).2 = hidden (reset v).2 ∧
  tracking (reset (leftover state h c detected start last v)).2 = tracking (reset v).2.
Proof.
  unfold reset, leftover, hidden. py_unfold. cbn.
  by destruct (_use_state_input v) eqn:Hu; cbn; rewrite Hu.
Qed.

Lemma _start_recording_vad now pa (w : LinuxWhispr.t) r :
  LinuxWhispr._vad (LinuxWhispr._start_recording now pa (w, r)).2.1
  = (reset (LinuxWhispr._vad w)).2.
Proof.
  rewrite _start_recording_eq. cbn zeta.
  by destruct (AudioCapture.start _ _ _) as [[[]|e] [a' r2]].
Qed.

(** C6. Every start of a recording session leaves the detector reset:
    the hidden state of the input format in use is all zeros, no speech
    detected, no onset time, last speech time zero, settings untouched,
    whether or not the device then opens. Hence the score of the first
    block of the session, and what [is_speech] answers for it, do not
    depend on the hidden state or the tracking the previous session
    left. *)
Theorem start_resets_detector (w : LinuxWhispr.t) (r : Runtime) (now : Q) (pa : PaOutcome) :
  let v := LinuxWhispr._vad (LinuxWhispr._start_recording now pa (w, r)).2.1 in
  (if _use_state_input v then _state v = np_zeros (2 * 1 * 128)
   else _h v = Some (np_zeros (2 * 1 * 64)) ∧ _c v = Some (np_zeros (2 * 1 * 64))) ∧
  _speech_detected v = false ∧ _speech_start_time v = None ∧
  _last_speech_time v = 0%Q ∧
  settings v = settings (LinuxWhispr._vad w) ∧
  ∀ state h c detected start last block t_block,
    let stale :=
      LinuxWhispr.set_vad (leftover state h c detected start last (LinuxWhispr._vad w)) w in
    let v' := LinuxWhispr._vad (LinuxWhispr._start_recording now pa (stale, r)).2.1 in
    (process_chunk block v').1 = (process_chunk block v).1 ∧
    (is_speech block t_block v').1 = (is_speech block t_block v).1 ∧
    tracking (is_speech block t_block v').2 = tracking (is_speech block t_block v).2.
Proof.
  intros v. subst v. rewrite _start_recording_vad.
  destruct (reset_fresh (LinuxWhispr._vad w)) as (Hh & Ht & Hs).
  unfold tracking in Ht. injection Ht as Hd Hst Hl.
  split_and!; try done.
  intros state h c detected start last block t_block stale v'. subst v' stale.
  rewrite _start_recording_vad. cbn.
  destruct (reset_leftover state h c detected start last (LinuxWhispr._vad w))
    as (Hs' & Hh' & Ht').
  set (v1 := (reset (leftover state h c detected start last (LinuxWhispr._vad w))).2) in *.
  set (v2 := (reset (LinuxWhispr._vad w)).2) in *.
  pose proof (process_chunk_hidden block v1 v2 Hs' Hh') as Hp.
  split; [done|].
  pose proof (process_chunk_frame block v1) as [Ht1 Hs1].
  pose proof (process_chunk_frame block v2) as [Ht2 Hs2].
  unfold is_speech, bind.
  destruct (process_chunk block v1) as [o1 v1'], (process_chunk block v2) as [o2 v2'].
  cbn in *. subst o2. destruct o1 as [p|e]; cbn; [|split; congruence].
  py_unfold.
  assert (_threshold v1' = _threshold v2') as ->.
  { unfold settings in *. congruence. }
  assert (tracking v1' = tracking v2') as Htr by congruence.
  destruct (Qgeb p (_threshold v2')); cbn; [|by split].
  unfold tracking in Htr. injection Htr as Hd' Hst' Hl'.
  rewrite Hd'. destruct (_speech_detected v2') eqn:E; cbn; unfold tracking; cbn;
    by rewrite ?Hst', ?Hd', ?E.
Qed.

End FreshDetector.

(** ** The device fails to open *)

Section DeviceFailure.

Import LinuxWhispr.

(** C1, refuted as stated. With the default setup, idle, a hotkey press
    on a device that cannot be opened makes [start()] raise, and the
    controller is left in [RECORDING] with the capture's recording flag
    set. *)
Lemma device_failure_not_atomic :
  _state demo_idle.1 = IDLE ∧
  (_on_dictation_hotkey 0 Pa_open_fails demo_idle).1
  = Raise (PortAudioError "Error opening InputStream") ∧
  _state (_on_dictation_hotkey 0 Pa_open_fails demo_idle).2.1 = RECORDING ∧
  AudioCapture._recording (_audio (_on_dictation_hotkey 0 Pa_open_fails demo_idle).2.1)
  = true ∧
  ¬ aborted_atomically demo_idle (_on_dictation_hotkey 0 Pa_open_fails demo_idle).2.
Proof.
  split_and!; try by vm_compute.
  intros (H & _). vm_compute in H. discriminate H.
Qed.

(** C1, amended. When the device fails to open or to start during the
    transition from [IDLE], the error propagates out of the hotkey
    handler and no silence monitor is started: [_vad_active] and the
    monitor thread are untouched, no thread is started, and the only
    event emitted is the state change. The transition is not undone:
    the state is [RECORDING] and the capture's recording flag is set,
    with an empty frame list. The next trigger takes the stop path and
    returns the controller to [IDLE] with the flag cleared, no stream
    held, and nothing handed to the pipeline. *)
Theorem device_failure_effect (w : t) (r : Runtime) (now : Q) (pa : PaOutcome) :
  _state w = IDLE →
  AudioCapture._recording (_audio w) = false →
  pa ≠ Pa_ok →
  let res := _on_dictation_hotkey now pa (w, r) in
  (∃ msg, res.1 = Raise (PortAudioError msg)) ∧
  _state res.2.1 = RECORDING ∧
  AudioCapture._recording (_audio res.2.1) = true ∧
  AudioCapture._frames (_audio res.2.1) = [] ∧
  _vad_active res.2.1 = _vad_active w ∧
  _vad_thread res.2.1 = _vad_thread w ∧
  threads res.2.2 = threads r ∧
  emitted res.2.2 = emitted r ++ [Ev_state_change IDLE RECORDING] ∧
  ∀ now' pa',
    let res' := _on_dictation_hotkey now' pa' res.2 in
    res'.1 = Return tt ∧
    _state res'.2.1 = IDLE ∧
    AudioCapture._recording (_audio res'.2.1) = false ∧
    AudioCapture._stream (_audio res'.2.1) = None ∧
    wav_emissions res'.2.2 = wav_emissions r ∧
    pipeline_runs res'.2.2 = pipeline_runs r.
Proof.
  intros Hst Hrec Hpa res.
  assert (∃ msg a' r',
             res = (Raise (PortAudioError msg),
                    (set_audio a' (set_vad (SileroVAD.reset (_vad w)).2 (set_state RECORDING w)),
                     r'))
             ∧ AudioCapture._recording a' = true ∧ AudioCapture._frames a' = []
             ∧ threads r' = threads r
             ∧ emitted r' = emitted r ++ [Ev_state_change IDLE RECORDING])
    as (msg & a' & r' & Hres & Hrec' & Hfr & Hth & Hem).
  { subst res. rewrite _on_dictation_hotkey_eq, Hst, _start_recording_eq. cbn zeta.
    rewrite start_eq, Hrec, Hst.
    destruct pa; [done| |]; eexists _, _, _; (split; [reflexivity|]);
      rt_norm; done. }
  rewrite Hres. cbn.
  split_and!; try done; [by exists msg|].
  intros now' pa'. rewrite _on_dictation_hotkey_eq. cbn.
  match goal with
  | |- context [_stop_recording now' (?w1, r')] =>
      destruct (_stop_recording_empty w1 r' now' Hfr)
        as (H1 & H2 & H3 & H4 & H5 & H6 & H7 & H8)
  end.
  split_and!; try done.
  - by apply H4.
  - rewrite H6. unfold wav_emissions. rewrite Hem, count_app. cbn. lia.
  - rewrite H8. unfold pipeline_runs. by rewrite Hth.
Qed.

Lemma device_failure_effect_witness :
  _state demo_idle.1 = IDLE ∧
  AudioCapture._recording (_audio demo_idle.1) = false ∧
  Pa_open_fails ≠ Pa_ok ∧
  _state (_on_dictation_hotkey 0 Pa_open_fails (demo_idle.1, demo_idle.2)).2.1 = RECORDING.
Proof.
  assert (_state demo_idle.1 = IDLE) as H1 by (by vm_compute).
  assert (AudioCapture._recording (_audio demo_idle.1) = false) as H2 by (by vm_compute).
  assert (Pa_open_fails ≠ Pa_ok) as H3 by discriminate.
  destruct (device_failure_effect demo_idle.1 demo_idle.2 0 Pa_open_fails H1 H2 H3)
    as (_ & H & _).
  exact (conj H1 (conj H2 (conj H3 H))).
Defined.

End DeviceFailure.

(** ** What each step of the runtime adds to the counts *)

Ltac count_solve :=
  unfold closed_rt, state_logged;
  rewrite ?emit_to_eq;
  unfold finalizations, count_log, wav_emissions, stream_opens, stream_closes,
    pipeline_runs, monitor_threads, count_stop_threads,
    log_at, with_pa_calls, spawn, set_threads;
  repeat match goal with
         | |- context [AudioCapture._stream ?a] => destruct (AudioCapture._stream a)
         end;
  cbn; rewrite ?count_app; cbn;
  fold is_stop_message;
  rewrite ?emit_threads_stop, ?emit_threads_monitor, ?emit_log_stop;
  rewrite ?emit_threads_quiet by done;
  try (cbn; lia).

Lemma finalizations_log_at lvl msg r :
  finalizations (log_at lvl msg r)
  = (finalizations r + if String.eqb msg stop_message then 1 else 0)%nat.
Proof.
  unfold finalizations, count_log, log_at. cbn. rewrite count_app. cbn.
  fold stop_message. destruct (String.eqb msg stop_message); lia.
Qed.
Lemma finalizations_with_pa_calls cs r : finalizations (with_pa_calls cs r) = finalizations r.
Proof. count_solve. Qed.
Lemma finalizations_spawn th r : finalizations (spawn th r) = finalizations r.
Proof. count_solve. Qed.
Lemma finalizations_emit_to e r : finalizations (emit_to e r) = finalizations r.
Proof. count_solve. Qed.
Lemma finalizations_closed_rt a r : finalizations (closed_rt a r) = S (finalizations r).
Proof. count_solve. Qed.

Lemma wav_emissions_log_at lvl msg r : wav_emissions (log_at lvl msg r) = wav_emissions r.
Proof. count_solve. Qed.
Lemma wav_emissions_with_pa_calls cs r : wav_emissions (with_pa_calls cs r) = wav_emissions r.
Proof. count_solve. Qed.
Lemma wav_emissions_spawn th r : wav_emissions (spawn th r) = wav_emissions r.
Proof. count_solve. Qed.
Lemma wav_emissions_emit_to e r :
  wav_emissions (emit_to e r) = (wav_emissions r + if is_audio_ready e then 1 else 0)%nat.
Proof. count_solve. Qed.
Lemma wav_emissions_closed_rt a r : wav_emissions (closed_rt a r) = wav_emissions r.
Proof. count_solve. Qed.

Lemma stream_opens_log_at lvl msg r : stream_opens (log_at lvl msg r) = stream_opens r.
Proof. count_solve. Qed.
Lemma stream_opens_with_pa_calls cs r :
  stream_opens (with_pa_calls cs r) = (stream_opens r + count is_open cs)%nat.
Proof. count_solve. Qed.
Lemma stream_opens_spawn th r : stream_opens (spawn th r) = stream_opens r.
Proof. count_solve. Qed.
Lemma stream_opens_emit_to e r : stream_opens (emit_to e r) = stream_opens r.
Proof. count_solve. Qed.
Lemma stream_opens_closed_rt a r : stream_opens (closed_rt a r) = stream_opens r.
Proof. count_solve. Qed.

Lemma stream_closes_log_at lvl msg r : stream_closes (log_at lvl msg r) = stream_closes r.
Proof. count_solve. Qed.
Lemma stream_closes_with_pa_calls cs r :
  stream_closes (with_pa_calls cs r) = (stream_closes r + count is_close cs)%nat.
Proof. count_solve. Qed.
Lemma stream_closes_spawn th r : stream_closes (spawn th r) = stream_closes r.
Proof. count_solve. Qed.
Lemma stream_closes_emit_to e r : stream_closes (emit_to e r) = stream_closes r.
Proof. count_solve. Qed.
Lemma stream_closes_closed_rt a r :
  stream_closes (closed_rt a r)
  = (stream_closes r + if AudioCapture._stream a is Some _ then 1 else 0)%nat.
Proof. count_solve. Qed.

Lemma count_stop_threads_log_at lvl msg r :
  count_stop_threads (log_at lvl msg r) = count_stop_threads r.
Proof. count_solve. Qed.
Lemma count_stop_threads_with_pa_calls cs r :
  count_stop_threads (with_pa_calls cs r) = count_stop_threads r.
Proof. count_solve. Qed.
Lemma count_stop_threads_spawn th r :
  count_stop_threads (spawn th r)
  = (count_stop_threads r + if is_stop_thread th then 1 else 0)%nat.
Proof. count_solve. Qed.
Lemma count_stop_threads_emit_to e r : count_stop_threads (emit_to e r) = count_stop_threads r.
Proof. count_solve. Qed.
Lemma count_stop_threads_closed_rt a r :
  count_stop_threads (closed_rt a r) = count_stop_threads r.
Proof. count_solve. Qed.

Lemma state_logged_eq old new r :
  state_logged old new r = log_at DEBUG "State: %s → %s" (emit_to (Ev_state_change old new) r).
Proof. done. Qed.

Create Rewrite HintDb rt_counts.
#[global] Hint Rewrite
  state_logged_eq
  finalizations_log_at finalizations_with_pa_calls finalizations_spawn
  finalizations_emit_to finalizations_closed_rt
  wav_emissions_log_at wav_emissions_with_pa_calls wav_emissions_spawn
  wav_emissions_emit_to wav_emissions_closed_rt
  stream_opens_log_at stream_opens_with_pa_calls stream_opens_spawn
  stream_opens_emit_to stream_opens_closed_rt
  stream_closes_log_at stream_closes_with_pa_calls stream_closes_spawn
  stream_closes_emit_to stream_closes_closed_rt
  count_stop_threads_log_at count_stop_threads_with_pa_calls count_stop_threads_spawn
  count_stop_threads_emit_to count_stop_threads_closed_rt
  : rt_counts.

Ltac counts := autorewrite with rt_counts in *; cbn in *; try lia.

(** ** The duration guard *)

Section DurationGuard.

Import AudioCapture.

Lemma closed_fields (a : t) :
  _recording (closed a) = false ∧ _stream (closed a) = None
  ∧ _start_time (closed a) = _start_time a.
Proof. unfold closed. by destruct (_stream a) eqn:E. Qed.








End DurationGuard.

(** ** One recording session at a time *)

Section SingleSession.

Import LinuxWhispr.

Ltac flag_done :=
  try done; try (intros ?; congruence); try (cbn in *; congruence);
  try (intros ?; auto).

Lemma start_consistent now pa (a : AudioCapture.t) r :
  consistent a r →
  consistent (AudioCapture.start now pa (a, r)).2.1 (AudioCapture.start now pa (a, r)).2.2.
Proof.
  intros [Hc Hs]. rewrite start_eq. unfold consistent.
  destruct (AudioCapture._recording a) eqn:Hrec; cbn.
  { split; [by counts|flag_done]. }
  rewrite (Hs eq_refl) in Hc.
  destruct pa; cbn; unfold armed; cbn; rewrite ?(Hs eq_refl); (split; [counts|flag_done]).
Qed.

Lemma stop_consistent now (a : AudioCapture.t) r :
  consistent a r →
  consistent (AudioCapture.stop now (a, r)).2.1 (AudioCapture.stop now (a, r)).2.2 ∧
  stream_opens (AudioCapture.stop now (a, r)).2.2 = stream_opens r.
Proof.
  intros [Hc Hs]. rewrite stop_eq. unfold consistent.
  destruct (closed_fields a) as (Hr & Hst & _).
  assert (stream_opens r = stream_closes (closed_rt a r)) as Hcl.
  { rewrite stream_closes_closed_rt. exact Hc. }
  destruct (AudioCapture._recording a) eqn:Hrec.
  - destruct (AudioCapture._frames a) as [|f fs];
      [|destruct (AudioCapture._to_wav _ _) as [wav|err]]; cbn;
      rewrite Hst; (split; [split; [counts|flag_done]|counts]).
  - cbn. split; [split; [counts|flag_done]|counts].
Qed.

Lemma callback_consistent indata status now (a : AudioCapture.t) r :
  consistent a r →
  let s' := (AudioCapture._audio_callback indata status now (a, r)).2 in
  consistent s'.1 s'.2 ∧ stream_opens s'.2 = stream_opens r.
Proof.
  intros [Hc Hs]. rewrite callback_eq. cbn zeta. unfold consistent.
  destruct (AudioCapture._recording a) eqn:Hrec; [destruct (Qgeb _ _)|];
    cbn; rewrite ?Hrec; destruct status;
    (split; [split; [counts|flag_done]|counts]).
Qed.

Lemma _set_state_consistent st (w : t) r :
  consistent (_audio w) r →
  let s' := (_set_state st (w, r)).2 in
  consistent (_audio s'.1) s'.2 ∧ stream_opens s'.2 = stream_opens r.
Proof.
  intros [Hc Hs]. rewrite _set_state_eq. unfold consistent. cbn.
  split_and!; try done; counts.
Qed.

Lemma _start_recording_consistent now pa (w : t) r :
  consistent (_audio w) r →
  let s' := (_start_recording now pa (w, r)).2 in
  consistent (_audio s'.1) s'.2.
Proof.
  intros Hc. rewrite _start_recording_eq. cbn zeta.
  assert (consistent (_audio w) (state_logged (_state w) RECORDING r)) as Hc1.
  { destruct Hc as [Hc Hs]. split; [|done]. counts. }
  pose proof (start_consistent now pa _ _ Hc1) as Hc2.
  destruct (AudioCapture.start _ _ _) as [[[]|e] [a' r2]]; cbn in *; [|done].
  destruct Hc2 as [Hc2 Hs2]. split; [|done]. counts.
Qed.

Lemma _stop_recording_consistent now (w : t) r :
  consistent (_audio w) r →
  let s' := (_stop_recording now (w, r)).2 in
  consistent (_audio s'.1) s'.2 ∧
  stream_opens s'.2 = stream_opens r ∧
  AudioCapture._recording (_audio s'.1) = false ∧
  (_state s'.1 = PROCESSING ∨ _state s'.1 = IDLE).
Proof.
  intros Hc. rewrite _stop_recording_eq. cbn zeta.
  set (r1 := emit_to Ev_hotkey_dictation_stop (state_logged (_state w) PROCESSING r)).
  assert (consistent (_audio w) r1 ∧ stream_opens r1 = stream_opens r) as [Hc1 Ho1].
  { destruct Hc as [Hc Hs]. subst r1. split; [split; [|done]|]; counts. }
  destruct (stop_consistent now _ _ Hc1) as [Hc2 Ho2].
  assert (AudioCapture._recording (AudioCapture.stop now (_audio w, r1)).2.1 = false) as Hr.
  { rewrite stop_eq. destruct (closed_fields (_audio w)) as (Hr & _).
    destruct (AudioCapture._recording (_audio w)) eqn:Hrec; [|done].
    destruct (AudioCapture._frames _); [done|]. by destruct (AudioCapture._to_wav _ _). }
  destruct (AudioCapture.stop _ _) as [[[wav|]|e] [a' r2]]; cbn in *.
  - split_and!; try done; [congruence|by left].
  - destruct Hc2 as [Hc2 Hs2]. split_and!; try done; [split; [|done]| |by right]; counts.
  - split_and!; try done; [congruence|by left].
Qed.

(** One round of the silence monitor either only scores (the detector
    alone changes) or also stops the recording. *)
Lemma _vad_monitor_round_cases t_speech t_stop t_fin (w : t) r :
  let s' := (_vad_monitor_round t_speech t_stop t_fin (w, r)).2 in
  (s'.2 = r ∧ _audio s'.1 = _audio w ∧ _state s'.1 = _state w) ∨
  (∃ v, s' = (_stop_recording t_fin
                (set_vad v w,
                 emit_to Ev_audio_silence
                         (log_at INFO "VAD: silence detected, auto-stopping" r))).2).
Proof.
  unfold _vad_monitor_round, vad. py_unfold. cbn.
  destruct (_vad_active w && AudioCapture.is_recording (_audio w)); cbn; [|by left].
  destruct (last (AudioCapture._frames (_audio w))) as [latest|]; cbn; [|by left].
  destruct (SileroVAD.is_speech latest t_speech (_vad w)) as [[b|e] v1]; cbn; [|by left].
  destruct (should_stop_pure t_stop v1) as [stop ->]. cbn.
  destruct stop; cbn; [|by left].
  right. exists v1. rewrite emit_eq. cbn.
  by destruct (_stop_recording _ _) as [[[]|e] s'].
Qed.

Lemma app_step_consistent (e : AppEvent) (s : t * Runtime) :
  consistent (_audio s.1) s.2 →
  consistent (_audio (app_step e s).1) (app_step e s).2.
Proof.
  destruct s as [w r]. intros Hc. destruct e as [now pa|indata status now|now|t1 t2 t3|ok];
    cbn [app_step].
  - rewrite _on_dictation_hotkey_eq. destruct (_state w).
    + by apply _start_recording_consistent.
    + by apply _stop_recording_consistent.
    + cbn. destruct Hc as [Hc Hs]. split; [|done]. counts.
    + cbn. destruct Hc as [Hc Hs]. split; [|done]. counts.
  - unfold audio, zoom. cbn.
    destruct (callback_consistent indata status now _ _ Hc) as [Hc' _].
    by destruct (AudioCapture._audio_callback _ _ _ _) as [o [a' r']].
  - unfold audio, zoom. cbn.
    destruct (stop_consistent now _ _ Hc) as [Hc' _].
    by destruct (AudioCapture.stop _ _) as [o [a' r']].
  - destruct (_vad_monitor_round_cases t1 t2 t3 w r) as [(Hr & Ha & _)|[v ->]].
    + cbn in Ha, Hr. by rewrite Ha, Hr.
    + apply _stop_recording_consistent. cbn. destruct Hc as [Hc Hs]. split; [|done]. counts.
  - by apply _set_state_consistent.
Qed.

Lemma app_run_consistent (es : list AppEvent) (s : t * Runtime) :
  consistent (_audio s.1) s.2 →
  consistent (_audio (app_run es s).1) (app_run es s).2.
Proof.
  revert s. induction es as [|e es IH]; intros s Hc; [done|].
  cbn. apply IH. by apply app_step_consistent.
Qed.

Lemma consistent_at_most_one (a : AudioCapture.t) r :
  consistent a r → (stream_opens r ≤ stream_closes r + 1)%nat.
Proof. intros [Hc _]. destruct (AudioCapture._stream a); lia. Qed.

Lemma _start_recording_ok now (w : t) r :
  let s' := (_start_recording now Pa_ok (w, r)).2 in
  (_start_recording now Pa_ok (w, r)).1 = Return tt ∧
  _state s'.1 = RECORDING ∧ AudioCapture._recording (_audio s'.1) = true ∧
  _vad_active s'.1 = true.
Proof.
  rewrite _start_recording_eq. cbn zeta. rewrite start_eq.
  by destruct (AudioCapture._recording (_audio w)) eqn:Hrec.
Qed.

(** C5. After any sequence of triggers, driver callbacks, stop threads,
    monitor rounds and pipeline completions, PortAudio has at most one
    stream open, before and after a further trigger. That trigger, by the
    state it finds: in [IDLE] it is [_start_recording], which with a
    working device leaves the state [RECORDING] and the capture
    recording; in [RECORDING] it is [_stop_recording], which opens no
    stream, clears the recording flag and leaves [PROCESSING] or [IDLE];
    in [PROCESSING] (and [ERROR]) it returns leaving the application, the
    events, the threads and PortAudio untouched. *)
Theorem single_active_session (s0 : t * Runtime) (es : list AppEvent) :
  consistent (_audio s0.1) s0.2 →
  let s := app_run es s0 in
  (stream_opens s.2 ≤ stream_closes s.2 + 1)%nat ∧
  ∀ now pa,
    let res := _on_dictation_hotkey now pa s in
    (stream_opens res.2.2 ≤ stream_closes res.2.2 + 1)%nat ∧
    match _state s.1 with
    | IDLE =>
        res = _start_recording now pa s ∧
        (pa = Pa_ok →
         res.1 = Return tt ∧ _state res.2.1 = RECORDING ∧
         AudioCapture._recording (_audio res.2.1) = true ∧ _vad_active res.2.1 = true)
    | RECORDING =>
        res = _stop_recording now s ∧
        stream_opens res.2.2 = stream_opens s.2 ∧
        AudioCapture._recording (_audio res.2.1) = false ∧
        (_state res.2.1 = PROCESSING ∨ _state res.2.1 = IDLE)
    | PROCESSING | ERROR =>
        res.1 = Return tt ∧ res.2.1 = s.1 ∧
        emitted res.2.2 = emitted s.2 ∧ threads res.2.2 = threads s.2 ∧
        pa_calls res.2.2 = pa_calls s.2
    end.
Proof.
  intros Hc0 s.
  assert (consistent (_audio s.1) s.2) as Hc by (by apply app_run_consistent).
  split; [by eapply consistent_at_most_one|].
  intros now pa res. split.
  { apply (consistent_at_most_one (_audio res.2.1)).
    exact (app_step_consistent (AE_hotkey now pa) s Hc). }
  subst res. destruct s as [w r]. rewrite _on_dictation_hotkey_eq. cbn [fst snd].
  destruct (_state w) eqn:Hst.
  - split; [done|]. intros ->. apply _start_recording_ok.
  - split; [done|].
    destruct (_stop_recording_consistent now w r Hc) as (_ & Ho & Hr & Hs). done.
  - done.
  - done.
Qed.

Lemma single_active_session_witness :
  consistent (_audio demo_idle.1) demo_idle.2 ∧
  (stream_opens (app_run busy_day demo_idle).2
   ≤ stream_closes (app_run busy_day demo_idle).2 + 1)%nat ∧
  stream_opens (app_run busy_day demo_idle).2 = 2%nat.
Proof.
  assert (consistent (_audio demo_idle.1) demo_idle.2) as H by (by vm_compute).
  destruct (single_active_session demo_idle busy_day H) as [H1 _].
  split; [exact H|]. split; [exact H1|]. by vm_compute.
Defined.

End SingleSession.

(** ** The WAV container *)

Section Wav.

Local Open Scope Z_scope.

Lemma le_bytes_length n x : length (struct.le_bytes n x) = n.
Proof. revert x. induction n as [|n IH]; intros x; cbn; [done|]. by rewrite IH. Qed.

Lemma le_value_le_bytes n x :
  0 ≤ x < 256 ^ Z.of_nat n → struct.le_value (struct.le_bytes n x) = x.
Proof.
  revert x. induction n as [|n IH]; intros x Hx.
  { cbn in *. lia. }
  cbn [struct.le_bytes struct.le_value].
  rewrite IH.
  - pose proof (Z.div_mod x 256). lia.
  - rewrite Nat2Z.inj_succ, Z.pow_succ_r in Hx by lia.
    split; [apply Z.div_pos; lia|]. apply Z.div_lt_upper_bound; lia.
Qed.

Lemma int16_tobytes_length a : length (int16_tobytes a) = (2 * length a)%nat.
Proof.
  induction a as [|x a IH]; [done|].
  change (int16_tobytes (x :: a))
    with (struct.le_bytes 2 (x `mod` 2 ^ 16) ++ int16_tobytes a).
  rewrite length_app, IH, le_bytes_length. cbn. lia.
Qed.

Lemma pack_L_ok x : 0 ≤ x < 2 ^ 32 → struct.pack_L x = Return (struct.le_bytes 4 x).
Proof.
  intros H. unfold struct.pack_L.
  replace (0 <=? x) with true by lia. replace (x <? 2 ^ 32) with true by lia. done.
Qed.

Lemma pack_H_ok x : 0 ≤ x < 2 ^ 16 → struct.pack_H x = Return (struct.le_bytes 2 x).
Proof.
  intros H. unfold struct.pack_H.
  replace (0 <=? x) with true by lia. replace (x <? 2 ^ 16) with true by lia. done.
Qed.

Lemma le_bytes_4_cells x :
  ∃ a b c d, struct.le_bytes 4 x = [a; b; c; d].
Proof. by eexists _, _, _, _. Qed.

Lemma header_ok (rate dl : Z) :
  0 < rate → 2 * rate < 2 ^ 32 → 0 ≤ dl → 36 + dl < 2 ^ 32 →
  wave.header 1 2 rate dl
  = Return (b_RIFF ++ struct.le_bytes 4 (36 + dl) ++ b_WAVE ++ b_fmt
              ++ [16; 0; 0; 0] ++ [1; 0] ++ [1; 0] ++ struct.le_bytes 4 rate
              ++ struct.le_bytes 4 (2 * rate) ++ [2; 0] ++ [16; 0]
              ++ b_data ++ struct.le_bytes 4 dl).
Proof.
  intros Hr Hr2 Hd Hd36. unfold wave.header.
  rewrite !pack_L_ok, !pack_H_ok by (unfold wave.WAVE_FORMAT_PCM; lia).
  cbn [obind]. replace (1 * rate * 2) with (2 * rate) by lia. done.
Qed.

Lemma read_chunks_step fuel rest fmt :
  wave.read_chunks (S fuel) rest fmt =
  if (length rest <? 8)%nat
  then Raise (wave_Error "fmt chunk and/or data chunk missing")
  else
    let chunkname := take 4 rest in
    let chunksize := struct.le_value (take 4 (drop 4 rest)) in
    let body := take (Z.to_nat chunksize) (drop 8 rest) in
    let after := drop (Z.to_nat (chunksize + chunksize `mod` 2)) (drop 8 rest) in
    if bool_decide (chunkname = b_fmt) then
      try! f := wave._read_fmt_chunk body in
      wave.read_chunks fuel after (Some f)
    else if bool_decide (chunkname = b_data) then
      match fmt with
      | None => Raise (wave_Error "data chunk before fmt chunk")
      | Some (nchannels, sampwidth, framerate) =>
          Return {| wave.nchannels := nchannels; wave.sampwidth := sampwidth;
                    wave.framerate := framerate;
                    wave.nframes := (chunksize `div` (nchannels * sampwidth))%Z |}
      end
    else wave.read_chunks fuel after fmt.
Proof. done. Qed.

Lemma _read_fmt_chunk_pcm16 (r1 r2 r3 r4 y1 y2 y3 y4 : Z) :
  wave._read_fmt_chunk [1; 0; 1; 0; r1; r2; r3; r4; y1; y2; y3; y4; 2; 0; 16; 0]
  = Return (1, 2, struct.le_value [r1; r2; r3; r4]).
Proof.
  unfold wave._read_fmt_chunk. cbn [take drop length Nat.ltb Nat.leb].
  change (struct.le_value [1; 0]) with 1. change (struct.le_value [16; 0]) with 16.
  change ((16 + 7) `div` 8) with 2.
  rewrite (bool_decide_true (1 = wave.WAVE_FORMAT_PCM)) by done.
  rewrite (bool_decide_false (2 = 0)) by done.
  rewrite (bool_decide_false (1 = 0)) by done.
  done.
Qed.

Lemma read_header_data (rate dl : Z) (data : list Z) :
  0 ≤ rate < 2 ^ 32 → 0 ≤ dl → 36 + dl < 2 ^ 32 → Z.of_nat (length data) = dl →
  wave.read (b_RIFF ++ struct.le_bytes 4 (36 + dl) ++ b_WAVE ++ b_fmt
              ++ [16; 0; 0; 0] ++ [1; 0] ++ [1; 0] ++ struct.le_bytes 4 rate
              ++ struct.le_bytes 4 (2 * rate) ++ [2; 0] ++ [16; 0]
              ++ b_data ++ struct.le_bytes 4 dl ++ data)
  = Return {| wave.nchannels := 1; wave.sampwidth := 2; wave.framerate := rate;
              wave.nframes := dl `div` 2 |}.
Proof.
  intros Hr Hd Hd36 Hlen.
  destruct (le_bytes_4_cells (36 + dl)) as (f1 & f2 & f3 & f4 & Hf).
  destruct (le_bytes_4_cells rate) as (r1 & r2 & r3 & r4 & Hrate).
  destruct (le_bytes_4_cells (2 * rate)) as (y1 & y2 & y3 & y4 & Hy).
  destruct (le_bytes_4_cells dl) as (d1 & d2 & d3 & d4 & Hdl).
  rewrite Hf, Hrate, Hy, Hdl.
  unfold wave.read, b_RIFF, b_WAVE, b_fmt, b_data. cbn [app length take drop Nat.ltb Nat.leb].
  rewrite bool_decide_true by done. cbn [negb].
  rewrite <- Hf, le_value_le_bytes by (change (256 ^ Z.of_nat 4) with (2 ^ 32); lia).
  replace (Z.to_nat (36 + dl)) with (36 + length data)%nat by lia.
  cbn [Nat.add take]. rewrite (take_ge data) by lia.
  rewrite bool_decide_true by done. cbn [negb length drop].
  rewrite read_chunks_step. cbv zeta. cbn [length Nat.ltb Nat.leb take drop].
  rewrite bool_decide_true by done.
  change (struct.le_value [16; 0; 0; 0]) with 16.
  change (Z.to_nat 16) with 16%nat. change (Z.to_nat (16 + 16 `mod` 2)) with 16%nat.
  cbn [take drop].
  rewrite _read_fmt_chunk_pcm16. cbn [obind].
  rewrite read_chunks_step. cbv zeta. cbn [length Nat.ltb Nat.leb take drop].
  rewrite (bool_decide_false (_ = b_fmt)) by done.
  rewrite (bool_decide_true (_ = b_data)) by done.
  rewrite take_0.
  rewrite <- Hrate, <- Hdl, !le_value_le_bytes
    by (change (256 ^ Z.of_nat 4) with (2 ^ 32); lia).
  done.
Qed.

(** Writing then reading a mono 16-bit container gives back the format
    and the number of frames. *)
Lemma wave_roundtrip (rate : Z) (data : list Z) :
  0 < rate → 2 * rate < 2 ^ 32 →
  36 + Z.of_nat (length data) < 2 ^ 32 →
  Z.of_nat (length data) `mod` 2 = 0 →
  ∃ wav, wave.write 1 2 rate data = Return wav ∧
         wave.read wav = Return {| wave.nchannels := 1; wave.sampwidth := 2;
                                   wave.framerate := rate;
                                   wave.nframes := Z.of_nat (length data) `div` 2 |}.
Proof.
  intros Hr Hr2 Hlen Heven.
  unfold wave.write.
  replace (1 <? 1) with false by done.
  replace ((2 <? 1) || (4 <? 2)) with false by done.
  replace (rate <=? 0) with false by lia.
  cbv zeta. change (1 * 2) with 2.
  assert (Z.of_nat (length data) `div` 2 * 1 * 2 = Z.of_nat (length data)) as ->.
  { pose proof (Z.div_mod (Z.of_nat (length data)) 2 ltac:(lia)) as H. rewrite Heven in H. lia. }
  rewrite bool_decide_true by done.
  rewrite header_ok by lia. cbn [obind].
  eexists. split; [done|].
  rewrite <- !app_assoc. apply read_header_data; lia.
Qed.

(** C9. A buffer of N seconds of 16 kHz mono int16 audio (N x 16000
    samples, small enough for the 32-bit length fields) is serialized by
    [_to_wav] to a container that [wave] reads back as 1 channel, 2 bytes
    per sample, 16000 frames per second and N x 16000 frames; and this is
    the container [stop] returns and emits for a recording whose frames
    concatenate to that buffer. *)
Theorem to_wav_roundtrip (a : AudioCapture.t) (audio_data : list Z) (N : nat) :
  AudioCapture._sample_rate a = AUDIO_SAMPLE_RATE →
  Z.of_nat (length audio_data) = Z.of_nat N * 16000 →
  36 + 2 * (Z.of_nat N * 16000) < 2 ^ 32 →
  ∃ wav,
    AudioCapture._to_wav a audio_data = Return wav ∧
    wave.read wav = Return {| wave.nchannels := 1; wave.sampwidth := 2;
                              wave.framerate := 16000;
                              wave.nframes := Z.of_nat N * 16000 |} ∧
    ∀ now r,
      AudioCapture._recording a = true →
      AudioCapture._frames a ≠ [] →
      concat (AudioCapture._frames a) = audio_data →
      (AudioCapture.stop now (a, r)).1 = Return (Some wav) ∧
      wav_emissions (AudioCapture.stop now (a, r)).2.2 = S (wav_emissions r).
Proof.
  intros Hrate Hlen Hbound.
  unfold AudioCapture._to_wav. rewrite Hrate. unfold AUDIO_CHANNELS, AUDIO_SAMPLE_RATE.
  assert (Z.of_nat (length (int16_tobytes audio_data)) = 2 * Z.of_nat (length audio_data))
    as Hbytes.
  { rewrite int16_tobytes_length. lia. }
  destruct (wave_roundtrip 16000 (int16_tobytes audio_data)) as (wav & Hw & Hread);
    [lia|lia|lia| |].
  { rewrite Hbytes. by rewrite Z.mul_comm, Z_mod_mult. }
  exists wav. split; [done|]. split.
  { rewrite Hread. do 2 f_equal.
    rewrite Hbytes, Hlen, Z.mul_comm, Z.div_mul by done. done. }
  intros now r Hrec Hf Hcat. rewrite stop_eq, Hrec.
  destruct (AudioCapture._frames a) as [|f fs] eqn:Hfr; [done|].
  rewrite Hcat. unfold AudioCapture._to_wav.
  rewrite Hrate. unfold AUDIO_CHANNELS, AUDIO_SAMPLE_RATE. rewrite Hw. cbn.
  split; [done|]. rewrite wav_emissions_emit_to, wav_emissions_closed_rt. cbn. lia.
Qed.

Lemma to_wav_roundtrip_witness :
  AudioCapture._sample_rate (AudioCapture.__init__ 16000 None) = AUDIO_SAMPLE_RATE ∧
  Z.of_nat (length (replicate (Z.to_nat 16000) 0)) = Z.of_nat 1 * 16000 ∧
  36 + 2 * (Z.of_nat 1 * 16000) < 2 ^ 32 ∧
  ∃ wav,
    AudioCapture._to_wav (AudioCapture.__init__ 16000 None) (replicate (Z.to_nat 16000) 0)
    = Return wav ∧
    wave.read wav = Return {| wave.nchannels := 1; wave.sampwidth := 2;
                              wave.framerate := 16000; wave.nframes := Z.of_nat 1 * 16000 |}.
Proof.
  assert (AudioCapture._sample_rate (AudioCapture.__init__ 16000 None) = AUDIO_SAMPLE_RATE)
    as H1 by done.
  assert (Z.of_nat (length (replicate (Z.to_nat 16000) 0)) = Z.of_nat 1 * 16000) as H2.
  { rewrite length_replicate. by vm_compute. }
  assert (36 + 2 * (Z.of_nat 1 * 16000) < 2 ^ 32) as H3 by (by vm_compute).
  destruct (to_wav_roundtrip _ _ 1%nat H1 H2 H3) as (wav & Hw & Hr & _).
  split; [exact H1|]. split; [exact H2|]. split; [exact H3|].
  exists wav. split; [exact Hw|exact Hr].
Defined.

End Wav.

(** ** Capture rate and detector rate *)

Section SampleRate.

Import LinuxWhispr.





End SampleRate.

(** * Further properties of the detector *)

Section Windows.

Import SileroVAD.

Lemma py_range_step_length (n : nat) :
  py_range_step n VAD_CHUNK_SAMPLES
  = (fun i => i * VAD_CHUNK_SAMPLES)%nat <$> seq 0 ((n + 511) `div` 512).
Proof.
  unfold py_range_step, VAD_CHUNK_SAMPLES.
  by replace (n + 512 - 1)%nat with (n + 511)%nat by lia.
Qed.

Lemma window_at_length (audio_float : list Q) (start : nat) :
  length (window_at audio_float start) = VAD_CHUNK_SAMPLES.
Proof.
  unfold window_at. cbv zeta.
  pose proof (length_take_le (drop start audio_float) VAD_CHUNK_SAMPLES) as Hle.
  destruct (length (take VAD_CHUNK_SAMPLES (drop start audio_float)) <? VAD_CHUNK_SAMPLES)%nat
    eqn:Hlt.
  - apply Nat.ltb_lt in Hlt. rewrite length_app, length_replicate. lia.
  - apply Nat.ltb_ge in Hlt. rewrite length_take in *. lia.
Qed.

Lemma window_at_shift (l : list Q) (i : nat) :
  window_at l (S i * VAD_CHUNK_SAMPLES) = window_at (drop VAD_CHUNK_SAMPLES l) (i * VAD_CHUNK_SAMPLES).
Proof.
  unfold window_at. rewrite drop_drop.
  by replace (VAD_CHUNK_SAMPLES + i * VAD_CHUNK_SAMPLES)%nat with (S i * VAD_CHUNK_SAMPLES)%nat by lia.
Qed.

Lemma windows_concat_aux (k : nat) (l : list Q) :
  k = ((length l + 511) `div` 512)%nat →
  concat ((fun i => window_at l (i * VAD_CHUNK_SAMPLES)) <$> seq 0 k)
  = l ++ replicate (padding (length l)) 0%Q.
Proof.
  revert l. induction k as [|k IH]; intros l Hk.
  - assert (length l = 0)%nat as Hl.
    { destruct (length l) eqn:E; [done|].
      assert (1 ≤ (S n + 511) `div` 512)%nat; [|lia].
      apply Nat.div_le_lower_bound; lia. }
    apply length_zero_iff_nil in Hl. by subst l.
  - cbn [seq]. rewrite fmap_cons. cbn [concat].
    rewrite <- fmap_S_seq, <- list_fmap_compose.
    rewrite (list_fmap_ext _ (fun i => window_at (drop VAD_CHUNK_SAMPLES l)
                                                 (i * VAD_CHUNK_SAMPLES)%nat))
      by (intros ? i ?; apply window_at_shift).
    destruct (decide (length l ≤ 512)%nat) as [Hshort|Hlong].
    + assert (k = 0)%nat as ->.
      { assert ((length l + 511) `div` 512 < 2)%nat; [|lia].
        apply Nat.Div0.div_lt_upper_bound; lia. }
      cbn [seq fmap list_fmap concat]. rewrite app_nil_r.
      unfold window_at. change (0 * VAD_CHUNK_SAMPLES)%nat with 0%nat. rewrite drop_0.
      rewrite take_ge by (unfold VAD_CHUNK_SAMPLES; lia).
      unfold VAD_CHUNK_SAMPLES, padding.
      destruct (decide (length l = 512)%nat) as [Heq|Hne].
      * rewrite Heq. replace (512 <? 512)%nat with false by done. cbn. by rewrite app_nil_r.
      * replace (length l <? 512)%nat with true by (symmetry; apply Nat.ltb_lt; lia).
        assert (length l ≠ 0)%nat.
        { intros E. rewrite E in Hk. cbn in Hk. lia. }
        rewrite (Nat.mod_small (length l)) by lia.
        by rewrite Nat.mod_small by lia.
    + rewrite (IH (drop VAD_CHUNK_SAMPLES l)).
      * unfold window_at. change (0 * VAD_CHUNK_SAMPLES)%nat with 0%nat. rewrite drop_0.
        assert (length (take VAD_CHUNK_SAMPLES l) = 512)%nat as Ht.
        { rewrite length_take. unfold VAD_CHUNK_SAMPLES. lia. }
        rewrite Ht. unfold VAD_CHUNK_SAMPLES. replace (512 <? 512)%nat with false by done.
        rewrite app_assoc, take_drop, length_drop. unfold padding.
        do 2 f_equal.
        replace (length l) with ((length l - 512) + 1 * 512)%nat at 2 by lia.
        by rewrite Nat.Div0.mod_add.
      * rewrite length_drop. unfold VAD_CHUNK_SAMPLES.
        replace (length l + 511)%nat with ((length l - 512 + 511) + 1 * 512)%nat in Hk by lia.
        rewrite Nat.div_add in Hk by lia. lia.
Qed.

Lemma window_at_idem (audio_float : list Q) (start : nat) :
  window_at (window_at audio_float start) 0 = window_at audio_float start.
Proof.
  pose proof (window_at_length audio_float start) as Hlen.
  unfold window_at at 1. cbv zeta. rewrite drop_0, take_ge by lia.
  rewrite Hlen. by replace (VAD_CHUNK_SAMPLES <? VAD_CHUNK_SAMPLES)%nat with false
    by (symmetry; apply Nat.ltb_irrefl).
Qed.

Lemma process_window_window_at session (audio_float : list Q) (start : nat) (v : t) :
  process_window session audio_float start v
  = process_window session (window_at audio_float start) 0 v.
Proof.
  unfold process_window. cbv zeta.
  fold (window_at audio_float start). fold (window_at (window_at audio_float start) 0).
  by rewrite window_at_idem.
Qed.

Lemma process_windows_score_each session (audio_float : list Q) starts prob (v : t) :
  process_windows session audio_float starts prob v
  = score_each session (window_at audio_float <$> starts) prob v.
Proof.
  revert prob v. induction starts as [|start rest IH]; intros prob v; [done|].
  cbn [process_windows fmap list_fmap score_each]. unfold bind.
  rewrite process_window_window_at.
  destruct (process_window session (window_at audio_float start) 0 v) as [[p|e] v1]; [|done].
  apply IH.
Qed.

(** X1. [process_chunk] scores, one after the other, the analysis windows
    of the block: ceil(n / 512) windows of exactly 512 samples, which laid
    end to end are the block's samples, each divided by 32768, followed by
    fewer than 512 zeros. An empty block is not scored at all: the answer
    is 0.0 and the detector is untouched. *)
Theorem process_chunk_windows (audio_int16 : list Z) (session : InferenceSession) (v : t) :
  _session v = Some session →
  let windows := analysis_windows (to_float audio_int16) in
  process_chunk audio_int16 v = score_each session windows 0%Q v ∧
  length windows = ((length audio_int16 + 511) `div` 512)%nat ∧
  Forall (fun w => length w = 512%nat) windows ∧
  concat windows
  = to_float audio_int16 ++ replicate (padding (length audio_int16)) 0%Q ∧
  (padding (length audio_int16) < 512)%nat ∧
  (audio_int16 = [] → process_chunk audio_int16 v = (Return 0%Q, v)).
Proof.
  intros Hs windows.
  assert (length (to_float audio_int16) = length audio_int16) as Hlen.
  { unfold to_float. by rewrite length_fmap. }
  split_and!.
  - unfold process_chunk. py_unfold. rewrite Hs. cbn.
    apply process_windows_score_each.
  - subst windows. unfold analysis_windows.
    by rewrite length_fmap, py_range_step_length, length_fmap, length_seq, Hlen.
  - subst windows. unfold analysis_windows. apply Forall_fmap, Forall_forall.
    intros start _. apply window_at_length.
  - subst windows. unfold analysis_windows.
    rewrite py_range_step_length, <- list_fmap_compose, <- Hlen.
    by apply windows_concat_aux.
  - unfold padding. apply Nat.mod_upper_bound. lia.
  - intros ->. unfold process_chunk. py_unfold. by rewrite Hs.
Qed.

Lemma process_chunk_windows_witness :
  _session P3_detector = Some level_session ∧
  length (analysis_windows (to_float speech_block)) = 2%nat ∧
  (process_chunk speech_block P3_detector).1 = Return (9 # 10)%Q.
Proof.
  assert (_session P3_detector = Some level_session) as H by (by vm_compute).
  destruct (process_chunk_windows speech_block level_session P3_detector H)
    as (H1 & H2 & _).
  split; [exact H|]. split; [by rewrite H2|].
  rewrite H1. by vm_compute.
Defined.

End Windows.

Section SpeechTimes.

Import SileroVAD.

Lemma speech_times_tracking (ops : list VadOp) (v : t) :
  Forall (fun op => is_scoring op = true) ops →
  let ts := speech_times ops v in
  tracking (vad_run ops v)
  = (_speech_detected v || bool_decide (ts ≠ []),
     if _speech_detected v then _speech_start_time v
     else if ts is t0 :: _ then Some t0 else _speech_start_time v,
     default (_last_speech_time v) (last ts)).
Proof.
  intros Hops. revert v. induction Hops as [|op ops Hop Hops IH]; intros v.
  { cbn. unfold tracking. by destruct (_speech_detected v). }
  destruct op as [| |audio now]; try discriminate Hop.
  cbn [speech_times vad_run foldl vad_step]. fold (vad_run ops (is_speech audio now v).2).
  cbv zeta in IH. rewrite IH.
  destruct (is_speech_tracking audio now v) as [_ Ht].
  set (ts := speech_times ops (is_speech audio now v).2) in *.
  destruct (is_speech audio now v) as [[[|]|e] v1]; cbn in Ht |- *.
  - unfold tracking in Ht. injection Ht as -> -> ->. cbn.
    rewrite orb_true_r. f_equal.
    rewrite (last_cons now ts). by destruct (last ts).
  - unfold tracking in Ht. by injection Ht as -> -> ->.
  - unfold tracking in Ht. by injection Ht as -> -> ->.
Qed.

(** X2. Along the [is_speech] calls of a session (from a reset detector),
    the tracking is read off the calls that answered true: speech is
    detected exactly when there was one, the onset is the time of the
    first and the last speech time that of the last; with none, the
    tracking is as [reset] left it. *)
Theorem tracking_is_first_and_last (ops : list VadOp) (v0 : t) :
  Forall (fun op => is_scoring op = true) ops →
  let v := (reset v0).2 in
  let ts := speech_times ops v in
  _speech_detected (vad_run ops v) = bool_decide (ts ≠ []) ∧
  _speech_start_time (vad_run ops v) = head ts ∧
  _last_speech_time (vad_run ops v) = default 0%Q (last ts).
Proof.
  intros Hops v ts.
  pose proof (speech_times_tracking ops v Hops) as Ht. cbv zeta in Ht. fold ts in Ht.
  destruct (reset_tracking v0) as [Hr _]. fold v in Hr.
  unfold tracking in Hr. injection Hr as Hd Hs Hl.
  rewrite Hd, Hs, Hl in Ht. unfold tracking in Ht. injection Ht as -> -> ->.
  split_and!; [done| |done]. by destruct ts.
Qed.

Lemma tracking_is_first_and_last_witness :
  Forall (fun op => is_scoring op = true) (tail P3_until_2_5) ∧
  speech_times (tail P3_until_2_5) (reset P3_detector).2 = [0%Q; (1 # 2)%Q] ∧
  _speech_start_time (vad_run (tail P3_until_2_5) (reset P3_detector).2) = Some 0%Q ∧
  _last_speech_time (vad_run (tail P3_until_2_5) (reset P3_detector).2) = (1 # 2)%Q.
Proof.
  assert (Forall (fun op => is_scoring op = true) (tail P3_until_2_5)) as H.
  { repeat constructor. }
  assert (speech_times (tail P3_until_2_5) (reset P3_detector).2 = [0%Q; (1 # 2)%Q]) as Hts
      by (by vm_compute).
  destruct (tracking_is_first_and_last (tail P3_until_2_5) P3_detector H) as (_ & H2 & H3).
  cbv zeta in H2, H3. rewrite Hts in H2, H3.
  exact (conj H (conj Hts (conj H2 H3))).
Defined.

(** X3. Waiting never withdraws the decision to stop: once [should_stop]
    is true at some time it is true at every later time, as long as the
    detector is not touched. *)
Theorem should_stop_stays_true (v : t) (now later : Q) :
  (should_stop now v).1 = Return true →
  (now <= later)%Q →
  (should_stop later v).1 = Return true.
Proof.
  intros Hnow Hle. apply should_stop_true_iff in Hnow as (Hd & t0 & Hs & Hmin & Hsil).
  apply should_stop_true_iff. split; [done|]. exists t0. split_and!; [done..|].
  eapply Qle_trans; [exact Hsil|].
  unfold Qminus. apply Qplus_le_compat; [done|apply Qle_refl].
Qed.

Lemma should_stop_stays_true_witness :
  (should_stop (5 # 2) (vad_run P3_until_2_5 P3_detector)).1 = Return true ∧
  ((5 # 2) <= 360)%Q ∧
  (should_stop 360 (vad_run P3_until_2_5 P3_detector)).1 = Return true.
Proof.
  assert ((should_stop (5 # 2) (vad_run P3_until_2_5 P3_detector)).1 = Return true) as H1
      by (by vm_compute).
  assert ((5 # 2) <= 360)%Q as H2 by done.
  exact (conj H1 (conj H2 (should_stop_stays_true _ _ _ H1 H2))).
Defined.

(** X4. Speech restarts the silence window: after an [is_speech] that
    answered true at time [now], [should_stop] is false at every time
    closer to [now] than [silence_duration], whatever was tracked before. *)
Theorem speech_postpones_stop (v : t) (audio : list Z) (now later : Q) :
  (is_speech audio now v).1 = Return true →
  (later - now < _silence_duration v)%Q →
  (should_stop later (is_speech audio now v).2).1 = Return false ∧
  _last_speech_time (is_speech audio now v).2 = now.
Proof.
  intros Htrue Hlt.
  destruct (is_speech_tracking audio now v) as [Hset Ht]. rewrite Htrue in Ht.
  unfold tracking in Ht. injection Ht as Hd Hs Hl.
  split; [|done].
  destruct (should_stop_pure later (is_speech audio now v).2) as [[|] Hb];
    [|by rewrite Hb].
  assert ((should_stop later (is_speech audio now v).2).1 = Return true) as Hstop
      by (by rewrite Hb).
  apply should_stop_true_iff in Hstop as (_ & t0 & _ & _ & Hsil).
  rewrite Hl in Hsil.
  assert (_silence_duration (is_speech audio now v).2 = _silence_duration v) as Hsd.
  { unfold settings in Hset. by injection Hset. }
  rewrite Hsd in Hsil. exfalso. exact (Qlt_not_le _ _ Hlt Hsil).
Qed.

Lemma speech_postpones_stop_witness :
  (is_speech speech_block 10 (vad_run P3_until_2_5 P3_detector)).1 = Return true ∧
  (11 - 10 < _silence_duration (vad_run P3_until_2_5 P3_detector))%Q ∧
  (should_stop 11 (is_speech speech_block 10 (vad_run P3_until_2_5 P3_detector)).2).1
  = Return false.
Proof.
  assert ((is_speech speech_block 10 (vad_run P3_until_2_5 P3_detector)).1 = Return true)
    as H1 by (by vm_compute).
  assert (11 - 10 < _silence_duration (vad_run P3_until_2_5 P3_detector))%Q as H2
      by (by vm_compute).
  destruct (speech_postpones_stop _ _ _ _ H1 H2) as [H3 _].
  exact (conj H1 (conj H2 H3)).
Defined.

End SpeechTimes.

(** * Further properties of the event bus *)

Section BusMore.

Lemma dispatch_spec e h r :
  EventBus.dispatch e h r = (Return tt, grown (handler_threads e h) (handler_log e h) r).
Proof.
  unfold EventBus.dispatch, EventBus.call_handler, handler_threads, handler_log.
  destruct h as [|name]; [|by rewrite grown_nil].
  destruct e; cbn; unfold grown, Thread_start, modify, set_threads, logger; cbn;
    by rewrite ?app_nil_r.
Qed.

Lemma for_each_dispatch_spec e hs r :
  for_each hs (EventBus.dispatch e) r
  = (Return tt, grown (hs ≫= handler_threads e) (hs ≫= handler_log e) r).
Proof.
  revert r. induction hs as [|h hs IH]; intros r; cbn; [by rewrite grown_nil|].
  unfold bind. rewrite dispatch_spec, IH, grown_grown. done.
Qed.

Lemma emit_spec e r :
  EventBus.emit e r
  = (Return tt,
     {| handlers := handlers r;
        emitted := emitted r ++ [e];
        threads := threads r ++ (subscribers (event_name e) r ≫= handler_threads e);
        log := log r ++ (if subscribers (event_name e) r is [] then []
                         else (DEBUG, "Emitting event '%s' to %d handler(s)")
                              :: (subscribers (event_name e) r ≫= handler_log e));
        pa_calls := pa_calls r |}).
Proof.
  unfold EventBus.emit, subscribers. py_unfold. cbn.
  destruct (default [] (handlers r !! event_name e)) as [|h hs] eqn:Hhs.
  { cbn. by rewrite !app_nil_r. }
  rewrite for_each_dispatch_spec. unfold grown. cbn. by rewrite <- !app_assoc.
Qed.



Lemma list_remove_absent (h : Handler) (l : list Handler) :
  h ∉ l → list_remove h l = None.
Proof.
  induction l as [|y l IH]; [done|]. intros Hn. cbn.
  rewrite not_elem_of_cons in Hn. destruct Hn as [Hne Hn].
  rewrite decide_False by done. by rewrite IH.
Qed.

Lemma list_remove_present (h : Handler) (l : list Handler) :
  h ∈ l → ∃ l1 l2, l = l1 ++ h :: l2 ∧ (h ∉ l1) ∧ list_remove h l = Some (l1 ++ l2).
Proof.
  induction l as [|y l IH]; [by intros ?%elem_of_nil|]. intros Hin. cbn.
  destruct (decide (y = h)) as [->|Hne].
  { exists [], l. split_and!; [done|apply not_elem_of_nil|done]. }
  rewrite elem_of_cons in Hin. destruct Hin as [->|Hin]; [done|].
  destruct (IH Hin) as (l1 & l2 & -> & Hn & ->).
  exists (y :: l1), l2. split_and!; [done| |done].
  rewrite not_elem_of_cons. done.
Qed.

Lemma list_remove_snoc (h : Handler) (l : list Handler) :
  h ∉ l → list_remove h (l ++ [h]) = Some l.
Proof.
  induction l as [|y l IH]; intros Hn; cbn.
  { by rewrite decide_True. }
  rewrite not_elem_of_cons in Hn. destruct Hn as [Hne Hn].
  rewrite decide_False by done. by rewrite IH.
Qed.

(** X6. [off] never raises. It takes out the first subscription of the
    handler to the event and leaves the other subscriptions, in their
    order, and the other events as they were; if the handler is not
    subscribed to the event, every event keeps its handlers. *)
Theorem off_removes_first (event : string) (h : Handler) (r : Runtime) :
  let res := EventBus.off event h r in
  res.1 = Return tt ∧
  (∀ k, k ≠ event → subscribers k res.2 = subscribers k r) ∧
  (h ∉ subscribers event r → subscribers event res.2 = subscribers event r) ∧
  (h ∈ subscribers event r →
   ∃ l1 l2, subscribers event r = l1 ++ h :: l2 ∧ (h ∉ l1) ∧
            subscribers event res.2 = l1 ++ l2) ∧
  emitted res.2 = emitted r ∧ threads res.2 = threads r ∧ log res.2 = log r.
Proof.
  cbv zeta. unfold EventBus.off, subscribers. py_unfold. cbn.
  destruct (list_remove h (default [] (handlers r !! event))) as [hs'|] eqn:Hrm; cbn.
  - split_and!; try done.
    + intros k Hk. by rewrite lookup_insert_ne.
    + intros Hn. by rewrite list_remove_absent in Hrm.
    + intros Hin. destruct (list_remove_present _ _ Hin) as (l1 & l2 & Heq & Hn & Hrm').
      exists l1, l2. rewrite lookup_insert_eq. cbn. split_and!; try done. congruence.
  - split_and!; try done.
    + intros k Hk. by rewrite lookup_insert_ne.
    + intros _. by rewrite lookup_insert_eq.
    + intros Hin. destruct (list_remove_present _ _ Hin) as (l1 & l2 & Heq & Hn & Hrm').
      congruence.
Qed.

(** X7. Subscribing a handler that was not subscribed to the event and
    unsubscribing it again gives every event the handlers it had. *)
Theorem on_then_off (event : string) (h : Handler) (r : Runtime) :
  h ∉ subscribers event r →
  let r' := (EventBus.off event h (EventBus.on event h r).2).2 in
  (∀ k, subscribers k r' = subscribers k r) ∧
  emitted r' = emitted r ∧ threads r' = threads r.
Proof.
  intros Hn. cbv zeta. unfold EventBus.off, EventBus.on, subscribers in *.
  unfold logger. py_unfold. cbn.
  rewrite lookup_insert_eq. cbn. rewrite list_remove_snoc by done. cbn.
  split; [|done]. intros k. destruct (decide (k = event)) as [->|Hk].
  - by rewrite lookup_insert_eq.
  - by rewrite !lookup_insert_ne.
Qed.

Lemma on_then_off_witness :
  (H_observer "tray" ∉ subscribers "audio.ready" demo_idle.2) ∧
  subscribers "audio.ready"
    (EventBus.off "audio.ready" (H_observer "tray")
       (EventBus.on "audio.ready" (H_observer "tray") demo_idle.2).2).2
  = subscribers "audio.ready" demo_idle.2.
Proof.
  assert (H_observer "tray" ∉ subscribers "audio.ready" demo_idle.2) as H.
  { vm_compute. intros Hin. apply list_elem_of_singleton in Hin. discriminate. }
  destruct (on_then_off "audio.ready" (H_observer "tray") demo_idle.2 H) as (H1 & _).
  exact (conj H (H1 "audio.ready")).
Defined.

End BusMore.

(** * The fields of the runtime after its transformers *)

Section RuntimeFields.

Lemma log_at_fields lvl msg r :
  handlers (log_at lvl msg r) = handlers r ∧ emitted (log_at lvl msg r) = emitted r ∧
  threads (log_at lvl msg r) = threads r ∧ pa_calls (log_at lvl msg r) = pa_calls r ∧
  log (log_at lvl msg r) = log r ++ [(lvl, msg)].
Proof. done. Qed.

Lemma with_pa_calls_fields cs r :
  handlers (with_pa_calls cs r) = handlers r ∧ emitted (with_pa_calls cs r) = emitted r ∧
  threads (with_pa_calls cs r) = threads r ∧
  pa_calls (with_pa_calls cs r) = pa_calls r ++ cs ∧
  log (with_pa_calls cs r) = log r.
Proof. done. Qed.

Lemma spawn_fields th r :
  handlers (spawn th r) = handlers r ∧ emitted (spawn th r) = emitted r ∧
  threads (spawn th r) = threads r ++ [th] ∧ pa_calls (spawn th r) = pa_calls r ∧
  log (spawn th r) = log r.
Proof. done. Qed.

Lemma emit_to_fields e r :
  handlers (emit_to e r) = handlers r ∧ emitted (emit_to e r) = emitted r ++ [e] ∧
  threads (emit_to e r) = threads r ++ emit_threads e r ∧
  pa_calls (emit_to e r) = pa_calls r.
Proof. by rewrite emit_to_eq. Qed.

Lemma closed_rt_fields a r :
  handlers (closed_rt a r) = handlers r ∧ emitted (closed_rt a r) = emitted r ∧
  threads (closed_rt a r) = threads r ∧
  pa_calls (closed_rt a r)
  = pa_calls r ++ (if AudioCapture._stream a is Some _
                   then [Pa_StopStream; Pa_CloseStream] else []).
Proof.
  unfold closed_rt, log_at, with_pa_calls. destruct (AudioCapture._stream a); cbn;
    by rewrite ?app_nil_r.
Qed.

Lemma state_logged_fields old new r :
  handlers (state_logged old new r) = handlers r ∧
  emitted (state_logged old new r) = emitted r ++ [Ev_state_change old new] ∧
  threads (state_logged old new r) = threads r ∧
  pa_calls (state_logged old new r) = pa_calls r.
Proof.
  unfold state_logged. destruct (emit_to_fields (Ev_state_change old new) r)
    as (H1 & H2 & H3 & H4).
  rewrite emit_threads_quiet, app_nil_r in H3 by done. done.
Qed.

Lemma handlers_log_at lvl msg r : handlers (log_at lvl msg r) = handlers r.
Proof. done. Qed.
Lemma handlers_with_pa_calls cs r : handlers (with_pa_calls cs r) = handlers r.
Proof. done. Qed.
Lemma handlers_spawn th r : handlers (spawn th r) = handlers r.
Proof. done. Qed.
Lemma handlers_emit_to e r : handlers (emit_to e r) = handlers r.
Proof. apply emit_to_fields. Qed.
Lemma handlers_closed_rt a r : handlers (closed_rt a r) = handlers r.
Proof. apply closed_rt_fields. Qed.
Lemma handlers_state_logged old new r : handlers (state_logged old new r) = handlers r.
Proof. apply state_logged_fields. Qed.

Lemma emitted_log_at lvl msg r : emitted (log_at lvl msg r) = emitted r.
Proof. done. Qed.
Lemma emitted_with_pa_calls cs r : emitted (with_pa_calls cs r) = emitted r.
Proof. done. Qed.
Lemma emitted_spawn th r : emitted (spawn th r) = emitted r.
Proof. done. Qed.
Lemma emitted_emit_to e r : emitted (emit_to e r) = emitted r ++ [e].
Proof. apply emit_to_fields. Qed.
Lemma emitted_closed_rt a r : emitted (closed_rt a r) = emitted r.
Proof. apply closed_rt_fields. Qed.
Lemma emitted_state_logged old new r :
  emitted (state_logged old new r) = emitted r ++ [Ev_state_change old new].
Proof. apply state_logged_fields. Qed.

Lemma threads_log_at lvl msg r : threads (log_at lvl msg r) = threads r.
Proof. done. Qed.
Lemma threads_with_pa_calls cs r : threads (with_pa_calls cs r) = threads r.
Proof. done. Qed.
Lemma threads_spawn th r : threads (spawn th r) = threads r ++ [th].
Proof. done. Qed.
Lemma threads_emit_to e r :
  threads (emit_to e r) = threads r ++ (subscribers (event_name e) r ≫= handler_threads e).
Proof. unfold emit_to. by rewrite emit_spec. Qed.
Lemma threads_closed_rt a r : threads (closed_rt a r) = threads r.
Proof. apply closed_rt_fields. Qed.
Lemma threads_state_logged old new r : threads (state_logged old new r) = threads r.
Proof. apply state_logged_fields. Qed.

Lemma pa_calls_log_at lvl msg r : pa_calls (log_at lvl msg r) = pa_calls r.
Proof. done. Qed.
Lemma pa_calls_with_pa_calls cs r : pa_calls (with_pa_calls cs r) = pa_calls r ++ cs.
Proof. done. Qed.
Lemma pa_calls_spawn th r : pa_calls (spawn th r) = pa_calls r.
Proof. done. Qed.
Lemma pa_calls_emit_to e r : pa_calls (emit_to e r) = pa_calls r.
Proof. apply emit_to_fields. Qed.
Lemma pa_calls_closed_rt a r :
  pa_calls (closed_rt a r)
  = pa_calls r ++ (if AudioCapture._stream a is Some _
                   then [Pa_StopStream; Pa_CloseStream] else []).
Proof. apply closed_rt_fields. Qed.
Lemma pa_calls_state_logged old new r : pa_calls (state_logged old new r) = pa_calls r.
Proof. apply state_logged_fields. Qed.

Lemma subscribers_handlers k r r' : handlers r' = handlers r → subscribers k r' = subscribers k r.
Proof. unfold subscribers. by intros ->. Qed.

End RuntimeFields.

Create Rewrite HintDb rt_fields.
#[global] Hint Rewrite
  handlers_log_at handlers_with_pa_calls handlers_spawn handlers_emit_to
  handlers_closed_rt handlers_state_logged
  emitted_log_at emitted_with_pa_calls emitted_spawn emitted_emit_to
  emitted_closed_rt emitted_state_logged
  threads_log_at threads_with_pa_calls threads_spawn threads_emit_to
  threads_closed_rt threads_state_logged
  pa_calls_log_at pa_calls_with_pa_calls pa_calls_spawn pa_calls_emit_to
  pa_calls_closed_rt pa_calls_state_logged
  : rt_fields.

Ltac fields := autorewrite with rt_fields.

(** * Further properties of the capture service *)

Section CaptureMore.

Import AudioCapture.

Lemma callbacks_run_cons cb cbs (s : t * Runtime) :
  callbacks_run (cb :: cbs) s
  = callbacks_run cbs (_audio_callback cb.1.1 cb.1.2 cb.2 s).2.
Proof. done. Qed.

Lemma status_log_fields (status : bool) r :
  emitted (if status then log_at WARNING "Audio callback status: %s" r else r) = emitted r
  ∧ threads (if status then log_at WARNING "Audio callback status: %s" r else r) = threads r
  ∧ pa_calls (if status then log_at WARNING "Audio callback status: %s" r else r) = pa_calls r
  ∧ handlers (if status then log_at WARNING "Audio callback status: %s" r else r)
    = handlers r.
Proof. by destruct status. Qed.

Lemma filter_length_le {A} (p : A → bool) (l : list A) :
  (length (List.filter p l) ≤ length l)%nat.
Proof. induction l as [|x l IH]; cbn; [lia|]. destruct (p x); cbn; lia. Qed.

Lemma filter_all {A} (p : A → bool) (l : list A) :
  forallb p l = true → List.filter p l = l.
Proof.
  induction l as [|x l IH]; cbn; [done|]. intros [Hx Hl]%andb_true_iff.
  by rewrite Hx, IH.
Qed.

(** Callbacks on a recording capture. *)
Lemma callbacks_run_recording (a : t) (r : Runtime) (cbs : list (list Z * bool * Q)) :
  _recording a = true →
  let s' := callbacks_run cbs (a, r) in
  let kept := List.filter (under_limit (_start_time a)) cbs in
  s'.1 = set_frames (_frames a ++ ((fun cb => cb.1.1) <$> kept)) a ∧
  emitted s'.2 = emitted r ++ ((fun cb => Ev_audio_level (mean_square cb.1.1)) <$> kept) ∧
  threads s'.2 = threads r ++ replicate (length cbs - length kept) Th_AudioCapture_stop ∧
  pa_calls s'.2 = pa_calls r ∧ handlers s'.2 = handlers r.
Proof.
  revert a r. induction cbs as [|[[indata status] now] cbs IH]; intros a r Hrec.
  { cbn. rewrite !app_nil_r. by destruct a. }
  cbv zeta. rewrite callbacks_run_cons. cbn [fst snd]. rewrite callback_eq, Hrec. cbv zeta.
  destruct (status_log_fields status r) as (He & Ht & Hp & Hh).
  cbn [List.filter].
  assert (under_limit (_start_time a) (indata, status, now)
          = negb (Qgeb (now - _start_time a) MAX_RECORDING_DURATION)) as Hu by done.
  rewrite Hu. clear Hu.
  pose proof (filter_length_le (under_limit (_start_time a)) cbs) as Hle.
  destruct (Qgeb (now - _start_time a) MAX_RECORDING_DURATION); cbn [negb snd].
  - specialize (IH a (spawn Th_AudioCapture_stop
                        (log_at WARNING "Max recording duration reached, auto-stopping"
                           (if status then log_at WARNING "Audio callback status: %s" r else r)))
                   Hrec).
    cbv zeta in IH. destruct IH as (H1 & H2 & H3 & H4 & H5).
    split_and!; try done.
    + rewrite H2. f_equal. exact He.
    + rewrite H3, threads_spawn, threads_log_at, Ht.
      rewrite <- app_assoc. f_equal.
      replace (length ((indata, status, now) :: cbs)
               - length (List.filter (under_limit (_start_time a)) cbs))%nat
        with (S (length cbs - length (List.filter (under_limit (_start_time a)) cbs)))
        by (cbn [length]; lia).
      done.
    + rewrite H4. exact Hp.
    + rewrite H5. exact Hh.
  - specialize (IH (set_frames (_frames a ++ [indata]) a)
                   (emit_to (Ev_audio_level (mean_square indata))
                      (if status then log_at WARNING "Audio callback status: %s" r else r))
                   Hrec).
    cbv zeta in IH. cbn [_start_time set_frames _frames _stream] in IH.
    destruct IH as (H1 & H2 & H3 & H4 & H5).
    split_and!.
    + rewrite H1. cbn. by rewrite <- app_assoc.
    + rewrite H2, emit_to_eq. cbn. rewrite He. by rewrite <- app_assoc.
    + rewrite H3, emit_to_eq. cbn [threads]. rewrite emit_threads_quiet by done.
      rewrite app_nil_r, Ht. done.
    + rewrite H4, emit_to_eq. cbn. exact Hp.
    + rewrite H5, emit_to_eq. cbn. exact Hh.
Qed.

(** X8. While the capture records, the frame list grows by exactly the
    blocks delivered before the duration limit, in the order delivered,
    with one [audio.level] event for each; every callback at or past the
    limit appends nothing and starts one stop thread, and no other thread
    is started. The recording flag, the stream, the start time and
    PortAudio are not touched. *)
Theorem callbacks_append_in_order (a : t) (r : Runtime) (cbs : list (list Z * bool * Q)) :
  _recording a = true →
  let s' := callbacks_run cbs (a, r) in
  let kept := List.filter (under_limit (_start_time a)) cbs in
  _frames s'.1 = _frames a ++ ((fun cb => cb.1.1) <$> kept) ∧
  emitted s'.2 = emitted r ++ ((fun cb => Ev_audio_level (mean_square cb.1.1)) <$> kept) ∧
  threads s'.2 = threads r ++ replicate (length cbs - length kept) Th_AudioCapture_stop ∧
  _recording s'.1 = true ∧ _stream s'.1 = _stream a ∧ _start_time s'.1 = _start_time a ∧
  pa_calls s'.2 = pa_calls r.
Proof.
  intros Hrec.
  destruct (callbacks_run_recording a r cbs Hrec) as (H1 & H2 & H3 & H4 & H5).
  cbv zeta. rewrite H1. done.
Qed.

Lemma callbacks_append_in_order_witness :
  _recording (capture demo_capture) = true ∧
  _frames (callbacks_run [(speech_block, false, 1%Q); (silence_block, false, 361%Q);
                          (silence_block, true, 2%Q)]
             (capture demo_capture, runtime demo_capture)).1
  = [speech_block; silence_block].
Proof.
  assert (_recording (capture demo_capture) = true) as H by (by vm_compute).
  destruct (callbacks_append_in_order (capture demo_capture) (runtime demo_capture)
              [(speech_block, false, 1%Q); (silence_block, false, 361%Q);
               (silence_block, true, 2%Q)] H) as (H1 & _).
  split; [exact H|]. rewrite H1. by vm_compute.
Defined.

Lemma callbacks_idle (cbs : list (list Z * bool * Q)) (a : t) r :
  _recording a = false →
  (callbacks_run cbs (a, r)).1 = a ∧
  emitted (callbacks_run cbs (a, r)).2 = emitted r ∧
  threads (callbacks_run cbs (a, r)).2 = threads r ∧
  pa_calls (callbacks_run cbs (a, r)).2 = pa_calls r.
Proof.
  intros Hrec. revert r. induction cbs as [|[[indata status] now] cbs IH]; intros r; [done|].
  rewrite callbacks_run_cons. cbn [fst snd]. rewrite callback_eq, Hrec. cbv zeta. cbn [snd].
  destruct (status_log_fields status r) as (He & Ht & Hp & _).
  destruct (IH (if status then log_at WARNING "Audio callback status: %s" r else r))
    as (H1 & H2 & H3 & H4).
  split_and!; congruence.
Qed.

Lemma stop_clears_flag now (a : t) r :
  _recording (stop now (a, r)).2.1 = false.
Proof.
  rewrite stop_eq. destruct (closed_fields a) as (Hr & _).
  destruct (_recording a) eqn:Hrec; [|done].
  destruct (_frames a); [done|]. by destruct (_to_wav _ _).
Qed.

(** X9. Callbacks that arrive after [stop] are rejected: whatever the
    driver still delivers, the capture, its frame list included, stays as
    [stop] left it, no event is emitted, no thread is started and
    PortAudio is not called. *)
Theorem late_callbacks_rejected (a : t) (r : Runtime) (now : Q)
        (cbs : list (list Z * bool * Q)) :
  let stopped := (stop now (a, r)).2 in
  let s' := callbacks_run cbs stopped in
  s'.1 = stopped.1 ∧ _frames s'.1 = _frames a ∧
  emitted s'.2 = emitted stopped.2 ∧
  threads s'.2 = threads stopped.2 ∧
  pa_calls s'.2 = pa_calls stopped.2.
Proof.
  intros stopped s'. subst s'.
  pose proof (stop_clears_flag now a r) as Hrec. fold stopped in Hrec.
  assert (_frames stopped.1 = _frames a) as Hf.
  { subst stopped. rewrite stop_eq. unfold closed.
    destruct (_recording a); [|done].
    destruct (_frames a) eqn:E; [by destruct (_stream a)|].
    destruct (_to_wav _ _); by destruct (_stream a). }
  destruct stopped as [a1 r1]. cbn [fst snd] in *.
  destruct (callbacks_idle cbs a1 r1 Hrec) as (H1 & H2 & H3 & H4).
  rewrite H1. done.
Qed.

(** X10. A second [start] never reaches the device: after any [start],
    failed or not, the recording flag is up, so the next [start] returns
    at once with the capture, its frames included, as it was, no PortAudio
    call, and one warning logged. A device that failed to open is not
    tried again until [stop] has been called. *)
Theorem second_start_is_ignored (a : t) (r : Runtime) (now now' : Q) (pa pa' : PaOutcome) :
  let first := (start now pa (a, r)).2 in
  _recording first.1 = true ∧
  start now' pa' first = (Return tt, (first.1, log_at WARNING "Already recording" first.2)).
Proof.
  intros first.
  assert (_recording first.1 = true) as Hrec.
  { subst first. rewrite start_eq. destruct (_recording a) eqn:E; [done|]. by destruct pa. }
  split; [done|]. destruct first as [a1 r1]. cbn [fst snd] in *. by rewrite start_eq, Hrec.
Qed.

(** X11. The device is released by [stop] and can be taken again: after a
    [stop], a [start] with a working device records into an empty frame
    list from the new start time, holding a started stream of the
    configured rate, one channel, int16 and 1024-sample blocks; PortAudio
    then has exactly one stream open. *)
Theorem restart_after_stop (a : t) (r : Runtime) (t_stop t_start : Q) :
  consistent a r →
  let stopped := (stop t_stop (a, r)).2 in
  let res := start t_start Pa_ok stopped in
  res.1 = Return tt ∧
  _recording res.2.1 = true ∧ _frames res.2.1 = [] ∧ _start_time res.2.1 = t_start ∧
  _stream res.2.1
  = Some {| samplerate := _sample_rate a; channels := 1; dtype := "int16";
            blocksize := 1024; device := _device a; active := true |} ∧
  stream_opens stopped.2 = stream_closes stopped.2 ∧
  stream_opens res.2.2 = S (stream_closes res.2.2).
Proof.
  intros Hc stopped res.
  pose proof (stop_clears_flag t_stop a r) as Hrec. fold stopped in Hrec.
  destruct (stop_consistent t_stop a r Hc) as [[Hcs Hss] _]. fold stopped in Hcs, Hss.
  assert (_sample_rate stopped.1 = _sample_rate a ∧ _device stopped.1 = _device a)
    as [Hsr Hdev].
  { subst stopped. rewrite stop_eq. unfold closed.
    destruct (_recording a); [|done].
    destruct (_frames a) eqn:E; [by destruct (_stream a)|].
    destruct (_to_wav _ _); by destruct (_stream a). }
  rewrite (Hss Hrec) in Hcs.
  subst res. destruct stopped as [a1 r1]. cbn [fst snd] in *.
  rewrite start_eq, Hrec. cbn.
  unfold requested_stream, InputStream_started, armed. cbn. rewrite Hsr, Hdev.
  split_and!; try done; counts.
Qed.

Lemma restart_after_stop_witness :
  consistent (capture demo_capture) (runtime demo_capture) ∧
  _recording (start 5 Pa_ok (stop 4 (capture demo_capture, runtime demo_capture)).2).2.1
  = true.
Proof.
  assert (consistent (capture demo_capture) (runtime demo_capture)) as H by (by vm_compute).
  destruct (restart_after_stop _ _ 4 5 H) as (_ & H2 & _).
  exact (conj H H2).
Defined.

End CaptureMore.

(** * Further properties of the WAV container *)

Section WavMore.

Import AudioCapture.

Local Open Scope Z_scope.

(** X12. At any sample rate the 32-bit fields can hold, [_to_wav] returns
    a 44-byte header followed by the samples, two bytes each: the header
    starts with [b'RIFF'], its size fields hold 36 plus the payload
    length and the payload length, its rate field holds the capture's
    sample rate, and [wave] reads the container back as mono, 16 bit, that
    rate, one frame per sample. *)
Theorem to_wav_layout (a : t) (audio_data : list Z) :
  0 < _sample_rate a → 2 * _sample_rate a < 2 ^ 32 →
  36 + 2 * Z.of_nat (length audio_data) < 2 ^ 32 →
  ∃ header,
    _to_wav a audio_data = Return (header ++ int16_tobytes audio_data) ∧
    length header = 44%nat ∧
    length (int16_tobytes audio_data) = (2 * length audio_data)%nat ∧
    take 4 header = b_RIFF ∧
    struct.le_value (take 4 (drop 4 header)) = 36 + 2 * Z.of_nat (length audio_data) ∧
    struct.le_value (take 4 (drop 24 header)) = _sample_rate a ∧
    struct.le_value (take 4 (drop 40 header)) = 2 * Z.of_nat (length audio_data) ∧
    wave.read (header ++ int16_tobytes audio_data)
    = Return {| wave.nchannels := 1; wave.sampwidth := 2;
                wave.framerate := _sample_rate a;
                wave.nframes := Z.of_nat (length audio_data) |}.
Proof.
  intros Hr Hr2 Hlen.
  pose proof (int16_tobytes_length audio_data) as Hbytes.
  set (data := int16_tobytes audio_data) in *.
  set (rate := _sample_rate a) in *.
  set (dl := Z.of_nat (length data)).
  assert (dl = 2 * Z.of_nat (length audio_data)) as Hdl by (subst dl; lia).
  exists (b_RIFF ++ struct.le_bytes 4 (36 + dl) ++ b_WAVE ++ b_fmt
            ++ [16; 0; 0; 0] ++ [1; 0] ++ [1; 0] ++ struct.le_bytes 4 rate
            ++ struct.le_bytes 4 (2 * rate) ++ [2; 0] ++ [16; 0]
            ++ b_data ++ struct.le_bytes 4 dl).
  split.
  { unfold _to_wav, wave.write, AUDIO_CHANNELS. fold data rate.
    replace (1 <? 1) with false by done.
    replace ((2 <? 1) || (4 <? 2)) with false by done.
    replace (rate <=? 0) with false by lia.
    cbv zeta. change (1 * 2) with 2. fold dl.
    assert (dl `div` 2 * 1 * 2 = dl) as ->.
    { rewrite Hdl, (Z.mul_comm 2), Z.div_mul by done. lia. }
    rewrite bool_decide_true by done.
    rewrite header_ok by lia. done. }
  split; [by rewrite !length_app, !le_bytes_length|].
  split; [done|].
  split; [done|].
  destruct (le_bytes_4_cells (36 + dl)) as (f1 & f2 & f3 & f4 & Hf).
  destruct (le_bytes_4_cells rate) as (r1 & r2 & r3 & r4 & Hrate).
  destruct (le_bytes_4_cells (2 * rate)) as (y1 & y2 & y3 & y4 & Hy).
  destruct (le_bytes_4_cells dl) as (d1 & d2 & d3 & d4 & Hd).
  split.
  { rewrite Hf, Hrate, Hy, Hd. unfold b_RIFF, b_WAVE, b_fmt, b_data. cbn [app take drop]. rewrite <- Hf, <- Hdl.
    apply le_value_le_bytes. change (256 ^ Z.of_nat 4) with (2 ^ 32). lia. }
  split.
  { rewrite Hf, Hrate, Hy, Hd. unfold b_RIFF, b_WAVE, b_fmt, b_data. cbn [app take drop]. rewrite <- Hrate.
    apply le_value_le_bytes. change (256 ^ Z.of_nat 4) with (2 ^ 32). lia. }
  split.
  { rewrite Hf, Hrate, Hy, Hd. unfold b_RIFF, b_WAVE, b_fmt, b_data. cbn [app take drop].
    rewrite <- Hd, <- Hdl.
    apply le_value_le_bytes. change (256 ^ Z.of_nat 4) with (2 ^ 32). lia. }
  rewrite <- !app_assoc.
  rewrite (read_header_data rate dl data) by lia.
  do 2 f_equal. rewrite Hdl, (Z.mul_comm 2), Z.div_mul by done. done.
Qed.

Lemma to_wav_layout_witness :
  0 < _sample_rate (__init__ 44100 None) ∧
  ∃ header,
    _to_wav (__init__ 44100 None) [1; -1; 300]
    = Return (header ++ int16_tobytes [1; -1; 300]) ∧
    length header = 44%nat.
Proof.
  assert (0 < _sample_rate (__init__ 44100 None)) as H1 by done.
  assert (2 * _sample_rate (__init__ 44100 None) < 2 ^ 32) as H2 by done.
  assert (36 + 2 * Z.of_nat (length [1; -1; 300]) < 2 ^ 32) as H3 by done.
  destruct (to_wav_layout (__init__ 44100 None) [1; -1; 300] H1 H2 H3)
    as (header & Hw & Hl & _).
  split; [exact H1|]. exists header. exact (conj Hw Hl).
Defined.



End WavMore.

(** * Further properties of the application *)

Section AppMore.

Import LinuxWhispr.

Lemma app_run_app es1 es2 (s : t * Runtime) :
  app_run (es1 ++ es2) s = app_run es2 (app_run es1 s).
Proof. unfold app_run. by rewrite foldl_app. Qed.

Lemma set_audio_set_audio a a' (w : t) : set_audio a (set_audio a' w) = set_audio a w.
Proof. done. Qed.

Lemma set_audio_same (w : t) : set_audio (_audio w) w = w.
Proof. by destruct w. Qed.

Lemma app_run_callbacks cbs (w : t) r :
  app_run (as_callbacks cbs) (w, r)
  = (set_audio (callbacks_run cbs (_audio w, r)).1 w, (callbacks_run cbs (_audio w, r)).2).
Proof.
  revert w r. induction cbs as [|[[indata status] now] cbs IH]; intros w r.
  { cbn. by rewrite set_audio_same. }
  change (app_run (as_callbacks ((indata, status, now) :: cbs)) (w, r))
    with (app_run (as_callbacks cbs) (app_step (AE_callback indata status now) (w, r))).
  rewrite callbacks_run_cons. cbn [app_step fst snd]. unfold audio, zoom. cbn [fst snd].
  destruct (AudioCapture._audio_callback indata status now (_audio w, r)) as [o [a' r']].
  cbn [fst snd]. rewrite IH. done.
Qed.

Lemma handler_threads_quiet e hs :
  is_audio_ready e = false → hs ≫= handler_threads e = [].
Proof.
  intros He. induction hs as [|h hs IH]; [done|]. cbn. rewrite IH.
  by destruct h, e.
Qed.

Lemma to_wav_rate (a a' : AudioCapture.t) audio :
  AudioCapture._sample_rate a' = AudioCapture._sample_rate a →
  AudioCapture._to_wav a' audio = AudioCapture._to_wav a audio.
Proof. unfold AudioCapture._to_wav. by intros ->. Qed.

(** X14. One session from end to end: from [IDLE] with the pipeline
    subscribed to [audio.ready], a trigger with a working device, driver
    callbacks before the duration limit and a second trigger leave the
    controller in [PROCESSING] with the device opened and closed once, and
    hand to one pipeline thread the container of exactly the blocks
    delivered, in their order, with the time between the two triggers as
    its duration. *)
Theorem session_hands_over_blocks (w : t) (r : Runtime) (cbs : list (list Z * bool * Q))
        (t0 t1 : Q) (pa : PaOutcome) (wav : list Z) :
  _state w = IDLE →
  AudioCapture._recording (_audio w) = false →
  subscribers "audio.ready" r = [H_on_audio_ready] →
  cbs ≠ [] →
  forallb (under_limit t0) cbs = true →
  AudioCapture._to_wav (_audio w) (concat ((fun cb => cb.1.1) <$> cbs)) = Return wav →
  let s := app_run (AE_hotkey t0 Pa_ok :: as_callbacks cbs ++ [AE_hotkey t1 pa]) (w, r) in
  _state s.1 = PROCESSING ∧
  AudioCapture._recording (_audio s.1) = false ∧
  AudioCapture._stream (_audio s.1) = None ∧
  threads s.2 = threads r ++ [Th_vad_monitor; Th_process_audio wav (t1 - t0)] ∧
  emitted s.2
  = emitted r ++ [Ev_state_change IDLE RECORDING; Ev_hotkey_dictation_start]
      ++ ((fun cb => Ev_audio_level (AudioCapture.mean_square cb.1.1)) <$> cbs)
      ++ [Ev_state_change RECORDING PROCESSING; Ev_hotkey_dictation_stop;
          Ev_audio_ready wav (t1 - t0)] ∧
  pa_calls s.2
  = pa_calls r ++ [Pa_OpenStream; Pa_StartStream; Pa_StopStream; Pa_CloseStream].
Proof.
  intros Hst Hrec Hsub Hne Hunder Hwav s. subst s.
  change (app_run (AE_hotkey t0 Pa_ok :: as_callbacks cbs ++ [AE_hotkey t1 pa]) (w, r))
    with (app_run (as_callbacks cbs ++ [AE_hotkey t1 pa])
            (_on_dictation_hotkey t0 Pa_ok (w, r)).2).
  rewrite _on_dictation_hotkey_eq, Hst, _start_recording_eq. cbv zeta.
  rewrite start_eq, Hrec. cbn [snd].
  rewrite app_run_app, app_run_callbacks. cbn [_audio set_vad_thread set_vad_active set_audio].
  match goal with
  | |- context [callbacks_run cbs (?a, ?r1)] =>
      destruct (callbacks_run_recording a r1 cbs) as (H1 & H2 & H3 & H4 & H5); [done|];
      destruct (callbacks_run cbs (a, r1)) as [a2 r2] eqn:Hrun
  end.
  cbv zeta in H1, H2, H3, H4, H5. cbn [fst snd] in H1, H2, H3, H4, H5.
  unfold armed in H1, H2, H3.
  cbn [AudioCapture._start_time AudioCapture._frames AudioCapture.set_stream
       AudioCapture.set_start_time AudioCapture.set_recording AudioCapture.set_frames app]
    in H1, H2, H3.
  rewrite filter_all in H1, H2, H3 by done.
  rewrite Nat.sub_diag in H3. cbn [replicate] in H3. rewrite app_nil_r in H3.
  autorewrite with rt_fields in H2, H3, H4, H5.
  rewrite handler_threads_quiet, app_nil_r in H3 by done.
  rewrite Hst in H2.
  assert (subscribers "audio.ready" r2 = [H_on_audio_ready]) as Hsub2.
  { rewrite <- Hsub. by apply subscribers_handlers. }
  clear Hrun.
  change (app_run [AE_hotkey t1 pa] ?s) with (_on_dictation_hotkey t1 pa s).2.
  cbn [fst snd]. rewrite _on_dictation_hotkey_eq.
  cbn [_state set_audio set_vad_thread set_vad_active set_vad set_state].
  rewrite _stop_recording_eq. cbv zeta.
  cbn [_state _audio set_audio set_vad_thread set_vad_active set_vad set_state].
  rewrite stop_eq.
  assert (AudioCapture._recording a2 = true) as -> by (by rewrite H1).
  assert (AudioCapture._frames a2 = (fun cb => cb.1.1) <$> cbs) as Hfr by (by rewrite H1).
  assert (AudioCapture._start_time a2 = t0) as Ht0 by (by rewrite H1).
  assert (AudioCapture._stream a2 ≠ None) as Hstream by (by rewrite H1).
  rewrite Hfr, Ht0.
  rewrite (to_wav_rate (_audio w) a2) by (by rewrite H1).
  rewrite Hwav.
  destruct ((fun cb : list Z * bool * Q => cb.1.1) <$> cbs) as [|f fs] eqn:Hblocks.
  { by destruct cbs. }
  cbn [fst snd _state _audio set_audio set_state].
  destruct (closed_fields a2) as (Hc1 & Hc2 & _).
  split_and!; try done.
  - fields. rewrite H3. rewrite handler_threads_quiet, app_nil_r by done.
    cbn [event_name].
    rewrite (subscribers_handlers "audio.ready" r2) by (by fields).
    rewrite Hsub2. cbn. by rewrite <- !app_assoc.
  - fields. rewrite H2. by rewrite <- !app_assoc.
  - fields. rewrite H4. destruct (AudioCapture._stream a2); [|done].
    by rewrite <- !app_assoc.
Qed.

Lemma session_hands_over_blocks_witness :
  _state demo_idle.1 = IDLE ∧
  _state (app_run (AE_hotkey 0 Pa_ok :: as_callbacks [(speech_block, false, 1%Q)]
                     ++ [AE_hotkey 2 Pa_ok]) demo_idle).1 = PROCESSING.
Proof.
  assert (_state demo_idle.1 = IDLE) as H1 by (by vm_compute).
  assert (AudioCapture._recording (_audio demo_idle.1) = false) as H2 by (by vm_compute).
  assert (subscribers "audio.ready" demo_idle.2 = [H_on_audio_ready]) as H3
      by (by vm_compute).
  assert ([(speech_block, false, 1%Q)] ≠ []) as H4 by done.
  assert (forallb (under_limit 0) [(speech_block, false, 1%Q)] = true) as H5
      by (by vm_compute).
  destruct (AudioCapture._to_wav (_audio demo_idle.1)
              (concat ((fun cb : list Z * bool * Q => cb.1.1)
                         <$> [(speech_block, false, 1%Q)]))) as [wav|e] eqn:H6;
    [|by vm_compute in H6].
  destruct demo_idle as [w r] eqn:Hdemo. cbn [fst snd] in *.
  destruct (session_hands_over_blocks w r [(speech_block, false, 1%Q)] 0 2 Pa_ok wav
              H1 H2 H3 H4 H5 H6) as (H7 & _).
  exact (conj H1 H7).
Defined.

(** [_stop_recording] on a recording capture: what is certain whatever
    the frames and the container. *)
Lemma _stop_recording_recording now (w : t) r :
  AudioCapture._recording (_audio w) = true →
  let res := _stop_recording now (w, r) in
  _vad_active res.2.1 = false ∧
  _vad res.2.1 = _vad w ∧
  AudioCapture._recording (_audio res.2.1) = false ∧
  AudioCapture._stream (_audio res.2.1) = None ∧
  ∃ evs, emitted res.2.2
         = emitted r ++ [Ev_state_change (_state w) PROCESSING; Ev_hotkey_dictation_stop]
             ++ evs.
Proof.
  intros Hrec res. subst res. rewrite _stop_recording_eq. cbv zeta.
  rewrite stop_eq, Hrec.
  destruct (closed_fields (_audio w)) as (Hc1 & Hc2 & _).
  destruct (AudioCapture._frames (_audio w)) as [|f fs].
  - cbn. split_and!; try done. eexists. fields. by rewrite <- !app_assoc.
  - destruct (AudioCapture._to_wav _ _) as [wav|e]; cbn.
    + split_and!; try done. eexists. fields. by rewrite <- !app_assoc.
    + split_and!; try done. exists []. fields. by rewrite <- !app_assoc.
Qed.

(** X15. A round of the silence monitor on an active recording scores
    the block delivered last, and only that one, whatever came before it.
    If the detector then does not ask to stop, the round changes nothing
    but the detector and the loop goes on. If it asks to stop, the round
    emits [audio.silence] and stops the recording as the trigger would:
    the monitor flag and the recording flag are cleared, the stream is
    released, and the loop ends. An exception of the detector leaves the
    round at once. *)
Theorem monitor_round_scores_latest (w : t) (r : Runtime) (t_speech t_stop t_fin : Q)
        (earlier : list (list Z)) (latest : list Z) :
  _vad_active w = true →
  AudioCapture._recording (_audio w) = true →
  AudioCapture._frames (_audio w) = earlier ++ [latest] →
  let scored := SileroVAD.is_speech latest t_speech (_vad w) in
  let res := _vad_monitor_round t_speech t_stop t_fin (w, r) in
  match scored.1 with
  | Raise e => res = (Raise e, (set_vad scored.2 w, r))
  | Return _ =>
      match (SileroVAD.should_stop t_stop scored.2).1 with
      | Return true =>
          res.1 ≠ Return true ∧
          _vad res.2.1 = scored.2 ∧
          _vad_active res.2.1 = false ∧
          AudioCapture._recording (_audio res.2.1) = false ∧
          AudioCapture._stream (_audio res.2.1) = None ∧
          ∃ evs, emitted res.2.2
                 = emitted r ++ [Ev_audio_silence; Ev_state_change (_state w) PROCESSING;
                                 Ev_hotkey_dictation_stop] ++ evs
      | _ => res = (Return true, (set_vad scored.2 w, r))
      end
  end.
Proof.
  intros Hact Hrec Hfr scored res. subst scored res.
  unfold _vad_monitor_round, vad. py_unfold. cbn.
  unfold AudioCapture.is_recording. rewrite Hact, Hrec. cbn.
  rewrite Hfr, last_snoc. cbn.
  destruct (SileroVAD.is_speech latest t_speech (_vad w)) as [[b|e] v1]; cbn; [|done].
  destruct (should_stop_pure t_stop v1) as [stop ->]. cbn.
  destruct stop; cbn; [|done].
  rewrite emit_eq. cbn.
  match goal with
  | |- context [_stop_recording t_fin (?w1, ?r1)] =>
      destruct (_stop_recording_recording t_fin w1 r1) as (H1 & H2 & H3 & H4 & evs & H5);
      [done|];
      destruct (_stop_recording t_fin (w1, r1)) as [[[]|e] [w2 r2]]
  end; cbn in *.
  - split_and!; try done. exists evs. rewrite H5. fields. by rewrite <- !app_assoc.
  - split_and!; try done. exists evs. rewrite H5. fields. by rewrite <- !app_assoc.
Qed.

Lemma monitor_round_scores_latest_witness :
  _vad_active demo_two_blocks.1 = true ∧
  _vad_monitor_round (3 # 10) (3 # 10) (3 # 10) (demo_two_blocks.1, demo_two_blocks.2)
  = (Return true,
     (set_vad (SileroVAD.is_speech speech_block (3 # 10) (_vad demo_two_blocks.1)).2
        demo_two_blocks.1,
      demo_two_blocks.2)).
Proof.
  assert (_vad_active demo_two_blocks.1 = true) as H1 by (by vm_compute).
  assert (AudioCapture._recording (_audio demo_two_blocks.1) = true) as H2
      by (by vm_compute).
  assert (AudioCapture._frames (_audio demo_two_blocks.1)
          = [silence_block] ++ [speech_block]) as H3 by (by vm_compute).
  pose proof (monitor_round_scores_latest demo_two_blocks.1 demo_two_blocks.2
                (3 # 10) (3 # 10) (3 # 10) [silence_block] speech_block H1 H2 H3) as H.
  cbv zeta in H.
  assert ((SileroVAD.is_speech speech_block (3 # 10) (_vad demo_two_blocks.1)).1
          = Return true) as E1 by (by vm_compute).
  assert ((SileroVAD.should_stop (3 # 10)
             (SileroVAD.is_speech speech_block (3 # 10) (_vad demo_two_blocks.1)).2).1
          = Return false) as E2 by (by vm_compute).
  rewrite E1, E2 in H.
  exact (conj H1 H).
Defined.



Lemma follow_app st evs1 evs2 :
  follow st (evs1 ++ evs2) = follow st evs1 ≫= (fun st' => follow st' evs2).
Proof.
  revert st. induction evs1 as [|e evs1 IH]; intros st; [done|].
  destruct e; cbn; try apply IH. destruct (bool_decide _); [apply IH|done].
Qed.

Lemma follow_change st new : follow st [Ev_state_change st new] = Some new.
Proof. cbn. by rewrite bool_decide_true. Qed.

(** The events of the capture service carry no state change. *)
Lemma stop_follow now (a : AudioCapture.t) r :
  ∃ evs, emitted (AudioCapture.stop now (a, r)).2.2 = emitted r ++ evs ∧
         ∀ st, follow st evs = Some st.
Proof.
  rewrite stop_eq. destruct (AudioCapture._recording a).
  - destruct (AudioCapture._frames a) as [|f fs].
    + exists []. cbn. fields. by rewrite app_nil_r.
    + destruct (AudioCapture._to_wav _ _) as [wav|e]; cbn.
      * eexists [_]. fields. done.
      * exists []. fields. by rewrite app_nil_r.
  - exists []. cbn. fields. by rewrite app_nil_r.
Qed.

Lemma start_emitted now pa (a : AudioCapture.t) r :
  emitted (AudioCapture.start now pa (a, r)).2.2 = emitted r.
Proof.
  rewrite start_eq. destruct (AudioCapture._recording a); [done|]. by destruct pa.
Qed.

Lemma callback_follow indata status now (a : AudioCapture.t) r :
  ∃ evs, emitted (AudioCapture._audio_callback indata status now (a, r)).2.2
         = emitted r ++ evs ∧
         ∀ st, follow st evs = Some st.
Proof.
  rewrite callback_eq. cbv zeta.
  destruct (status_log_fields status r) as (He & _).
  destruct (AudioCapture._recording a).
  - destruct (Qgeb _ _); cbn.
    + exists []. fields. by rewrite He, app_nil_r.
    + eexists [_]. fields. by rewrite He.
  - exists []. cbn. by rewrite He, app_nil_r.
Qed.

Lemma _stop_recording_follow now (w : t) r :
  ∃ evs, emitted (_stop_recording now (w, r)).2.2 = emitted r ++ evs ∧
         follow (_state w) evs = Some (_state (_stop_recording now (w, r)).2.1).
Proof.
  rewrite _stop_recording_eq. cbv zeta.
  match goal with
  | |- context [AudioCapture.stop now (?a, ?r1)] =>
      destruct (stop_follow now a r1) as (evs & He & Hq);
      destruct (AudioCapture.stop now (a, r1)) as [[[wav|]|e] [a' r2]]
  end; cbn [fst snd] in *.
  - exists ([Ev_state_change (_state w) PROCESSING; Ev_hotkey_dictation_stop] ++ evs).
    rewrite He. fields. split; [by rewrite <- !app_assoc|].
    cbn [app follow]. rewrite bool_decide_true by done. apply Hq.
  - exists ([Ev_state_change (_state w) PROCESSING; Ev_hotkey_dictation_stop] ++ evs
              ++ [Ev_state_change PROCESSING IDLE]).
    fields. rewrite He. fields. split; [by rewrite <- !app_assoc|].
    cbn [app follow]. rewrite bool_decide_true by done.
    rewrite follow_app, Hq. cbn. by rewrite bool_decide_true.
  - exists ([Ev_state_change (_state w) PROCESSING; Ev_hotkey_dictation_stop] ++ evs).
    rewrite He. fields. split; [by rewrite <- !app_assoc|].
    cbn [app follow]. rewrite bool_decide_true by done. apply Hq.
Qed.

Lemma _start_recording_follow now pa (w : t) r :
  ∃ evs, emitted (_start_recording now pa (w, r)).2.2 = emitted r ++ evs ∧
         follow (_state w) evs = Some (_state (_start_recording now pa (w, r)).2.1).
Proof.
  rewrite _start_recording_eq. cbv zeta.
  match goal with
  | |- context [AudioCapture.start now pa (?a, ?r1)] =>
      pose proof (start_emitted now pa a r1) as He;
      destruct (AudioCapture.start now pa (a, r1)) as [[[]|e] [a' r2]]
  end; cbn [fst snd] in *.
  - exists [Ev_state_change (_state w) RECORDING; Ev_hotkey_dictation_start].
    fields. rewrite He. fields. split; [by rewrite <- !app_assoc|].
    cbn. by rewrite bool_decide_true.
  - exists [Ev_state_change (_state w) RECORDING].
    rewrite He. fields. split; [done|]. apply follow_change.
Qed.

Lemma app_step_follow (e : AppEvent) (s : t * Runtime) :
  ∃ evs, emitted (app_step e s).2 = emitted s.2 ++ evs ∧
         follow (_state s.1) evs = Some (_state (app_step e s).1).
Proof.
  destruct s as [w r]. destruct e as [now pa|indata status now|now|t1 t2 t3|ok];
    cbn [app_step fst snd].
  - rewrite _on_dictation_hotkey_eq. destruct (_state w) eqn:Hst.
    + rewrite <- Hst. apply _start_recording_follow.
    + rewrite <- Hst. apply _stop_recording_follow.
    + exists []. cbn. fields. by rewrite app_nil_r, Hst.
    + exists []. cbn. fields. by rewrite app_nil_r, Hst.
  - unfold audio, zoom. cbn [fst snd].
    destruct (callback_follow indata status now (_audio w) r) as (evs & He & Hq).
    destruct (AudioCapture._audio_callback _ _ _ _) as [o [a' r']]. cbn [fst snd] in *.
    exists evs. split; [done|]. apply Hq.
  - unfold audio, zoom. cbn [fst snd].
    destruct (stop_follow now (_audio w) r) as (evs & He & Hq).
    destruct (AudioCapture.stop _ _) as [o [a' r']]. cbn [fst snd] in *.
    exists evs. split; [done|]. apply Hq.
  - destruct (_vad_monitor_round_cases t1 t2 t3 w r) as [(Hr & _ & Hs)|[v ->]].
    + cbn [fst snd] in Hr, Hs. exists []. rewrite Hr, Hs. by rewrite app_nil_r.
    + match goal with
      | |- context [_stop_recording t3 (?w1, ?r1)] =>
          destruct (_stop_recording_follow t3 w1 r1) as (evs & He & Hq)
      end.
      exists (Ev_audio_silence :: evs). rewrite He. fields.
      split; [by rewrite <- app_assoc|]. exact Hq.
  - rewrite _set_state_eq. cbn [fst snd].
    exists [Ev_state_change (_state w) (if ok then IDLE else ERROR)].
    fields. split; [done|]. apply follow_change.
Qed.

(** X17. Whatever the triggers, callbacks, stop threads, monitor rounds
    and pipeline completions, the [state.change] events emitted form a
    chain: each names as old state the new state of the one before it
    (the first, the state the run started in), and the last one names the
    state the controller is in. Events already emitted are never
    withdrawn. *)
Theorem state_changes_chain (es : list AppEvent) (s0 : t * Runtime) :
  ∃ evs, emitted (app_run es s0).2 = emitted s0.2 ++ evs ∧
         follow (_state s0.1) evs = Some (_state (app_run es s0).1).
Proof.
  revert s0. induction es as [|e es IH]; intros s0.
  { exists []. cbn. by rewrite app_nil_r. }
  change (app_run (e :: es) s0) with (app_run es (app_step e s0)).
  destruct (app_step_follow e s0) as (evs1 & He1 & Hf1).
  destruct (IH (app_step e s0)) as (evs2 & He2 & Hf2).
  exists (evs1 ++ evs2). rewrite He2, He1, <- app_assoc. split; [done|].
  rewrite follow_app, Hf1. exact Hf2.
Qed.

Lemma clear_eq r : EventBus.clear r = (Return tt, set_handlers ∅ r).
Proof. done. Qed.

(** X18. The shutdown. If stopping the hotkey listener raises, nothing
    else is done: the capture goes on recording and the bus keeps its
    handlers. Otherwise a capture that records is stopped as by [stop],
    so the recording in progress is still handed to the pipeline; then,
    if the components in between shut down, the bus is cleared, after
    which no event reaches a handler. The controller's state and monitor
    flag are left as they were and no [state.change] is emitted. *)
Theorem shutdown_clears_bus (w : t) (r : Runtime) (now : Q) :
  (AudioCapture._recording (_audio w) = true →
   raises (AudioCapture.stop now (_audio w, r)).1 = false) →
  let stopped :=
    if AudioCapture._recording (_audio w)
    then (AudioCapture.stop now (_audio w, r)).2 else (_audio w, r) in
  let res := stop now (Return tt) (Return tt) (w, r) in
  (∀ e others, stop now (Raise e) others (w, r) = (Raise e, (w, r))) ∧
  res.1 = Return tt ∧
  res.2.1 = set_audio stopped.1 w ∧
  AudioCapture._recording (_audio res.2.1) = false ∧
  handlers res.2.2 = ∅ ∧
  emitted res.2.2 = emitted stopped.2 ∧ threads res.2.2 = threads stopped.2 ∧
  pa_calls res.2.2 = pa_calls stopped.2 ∧
  ∀ e, threads (EventBus.emit e res.2.2).2 = threads res.2.2 ∧
       log (EventBus.emit e res.2.2).2 = log res.2.2.
Proof.
  intros Hok. cbv zeta. split; [done|].
  unfold stop, audio, when, logger. py_unfold. cbn.
  unfold AudioCapture.is_recording.
  destruct (AudioCapture._recording (_audio w)) eqn:Hrec; cbn.
  - specialize (Hok eq_refl).
    pose proof (stop_clears_flag now (_audio w) r) as Hflag.
    destruct (AudioCapture.stop now (_audio w, r)) as [[o|e] [a' r']]; [|done].
    cbn in *. split_and!; try done;
      intros e; rewrite emit_spec; cbn; unfold subscribers; cbn;
      rewrite lookup_empty; cbn; by rewrite !app_nil_r.
  - rewrite set_audio_same. split_and!; try done;
      intros e; rewrite emit_spec; cbn; unfold subscribers; cbn;
      rewrite lookup_empty; cbn; by rewrite !app_nil_r.
Qed.

Lemma shutdown_clears_bus_witness :
  handlers (stop 1 (Return tt) (Return tt) (demo_two_blocks.1, demo_two_blocks.2)).2.2 = ∅.
Proof.
  assert (AudioCapture._recording (_audio demo_two_blocks.1) = true →
          raises (AudioCapture.stop 1 (_audio demo_two_blocks.1, demo_two_blocks.2)).1
          = false) as Hok by (intros _; by vm_compute).
  destruct (shutdown_clears_bus demo_two_blocks.1 demo_two_blocks.2 1 Hok)
    as (_ & _ & _ & _ & H4 & _).
  exact H4.
Defined.

End AppMore.

(** * The dictionary *)

Arguments Dictionary.add_word : simpl never.
Arguments Dictionary.remove_word : simpl never.
Arguments Dictionary.add_correction : simpl never.
Arguments Dictionary.save : simpl never.

Section DictionaryProps.

Import Dictionary.

Lemma save_eq io (d : t) :
  save io d = match io with
              | Raise e => (Raise e, d)
              | Return _ => (Return tt, set_saved (Some (_entries d, _corrections d)) d)
              end.
Proof. by destruct io. Qed.

Lemma add_word_eq lower now io w src cat (d : t) :
  add_word lower now io w src cat d =
  match bump_first lower w (_entries d) with
  | Some entries' => (Return tt, set_entries entries' d)
  | None =>
      save io (set_entries (_entries d ++ [{| word := w; source := src; frequency := 0;
                                              added_at := now; category := cat |}]) d)
  end.
Proof.
  unfold add_word. py_unfold. cbn. by destruct (bump_first lower w (_entries d)).
Qed.

Lemma remove_word_eq lower io w (d : t) :
  remove_word lower io w d =
  match pop_first lower w (_entries d) with
  | Some entries' =>
      match save io (set_entries entries' d) with
      | (Return _, d') => (Return true, d')
      | (Raise e, d') => (Raise e, d')
      end
  | None => (Return false, d)
  end.
Proof.
  unfold remove_word. py_unfold. cbn. destruct (pop_first lower w (_entries d)); [|done].
  cbn. by destruct (save io _) as [[[]|e] d'].
Qed.

Lemma add_correction_eq lower now io h c (d : t) :
  add_correction lower now io h c d =
  save io (set_corrections
             (default (_corrections d ++ [{| heard := h; corrected := c; count := 1;
                                             last_seen := now |}])
                      (count_first lower now h c (_corrections d))) d).
Proof.
  unfold add_correction. py_unfold. cbn.
  by destruct (count_first lower now h c (_corrections d)).
Qed.

Lemma bump_first_None lower w entries :
  bump_first lower w entries = None ↔ lower w ∉ keys lower entries.
Proof.
  induction entries as [|entry rest IH]; cbn.
  { split; [intros _; apply not_elem_of_nil|done]. }
  rewrite not_elem_of_cons. destruct (String.eqb _ _) eqn:E.
  - apply String.eqb_eq in E. split; [done|]. intros [Hne _]. congruence.
  - apply String.eqb_neq in E. destruct (bump_first lower w rest) eqn:Hb; cbn.
    + split; [done|]. intros [_ Hn]. by apply IH in Hn.
    + split; [|done]. intros _. split; [congruence|]. by apply IH.
Qed.

Lemma bump_first_Some lower w entries entries' :
  bump_first lower w entries = Some entries' →
  ∃ l1 entry l2, entries = l1 ++ entry :: l2 ∧ lower (word entry) = lower w ∧
                 (lower w ∉ keys lower l1) ∧ entries' = l1 ++ bumped entry :: l2.
Proof.
  revert entries'. induction entries as [|entry rest IH]; intros entries'; cbn; [done|].
  destruct (String.eqb _ _) eqn:E.
  - apply String.eqb_eq in E. intros [= <-].
    exists [], entry, rest. split_and!; try done. apply not_elem_of_nil.
  - apply String.eqb_neq in E. destruct (bump_first lower w rest) eqn:Hb; cbn; [|done].
    intros [= <-]. destruct (IH _ eq_refl) as (l1 & e & l2 & -> & He & Hn & ->).
    exists (entry :: l1), e, l2. split_and!; try done.
    cbn. rewrite not_elem_of_cons. split; [congruence|done].
Qed.

Lemma keys_app lower l1 l2 : keys lower (l1 ++ l2) = keys lower l1 ++ keys lower l2.
Proof. unfold keys. by rewrite fmap_app. Qed.

(** X19. [add_word] keeps the entries distinct up to case: if no two
    entries have the same word in lower case, that still holds after
    [add_word], whether or not the save succeeds, and the word is then in
    the dictionary. Nothing is removed: the words of the entries before
    are the first words of the entries after. *)
Theorem add_word_keeps_words_distinct (lower : string → string) (now : string) (io : outcome unit)
        (w src cat : string) (d : t) :
  NoDup (keys lower (_entries d)) →
  let d' := (add_word lower now io w src cat d).2 in
  NoDup (keys lower (_entries d')) ∧
  lower w ∈ keys lower (_entries d') ∧
  (word <$> _entries d) `prefix_of` (word <$> _entries d') ∧
  _corrections d' = _corrections d.
Proof.
  intros Hnd. cbv zeta. rewrite add_word_eq.
  destruct (bump_first lower w (_entries d)) as [entries'|] eqn:Hb; cbn [fst snd].
  - destruct (bump_first_Some _ _ _ _ Hb) as (l1 & e & l2 & Heq & He & Hn & ->).
    assert (keys lower (l1 ++ bumped e :: l2) = keys lower (_entries d)) as Hk.
    { rewrite Heq. unfold keys. by rewrite !fmap_app. }
    cbn [_entries _corrections set_entries]. rewrite Hk. split_and!; try done.
    + rewrite Heq, keys_app. apply elem_of_app. right. unfold keys. cbn. rewrite He.
      apply list_elem_of_here.
    + rewrite Heq, !fmap_app. done.
  - apply bump_first_None in Hb.
    assert (NoDup (keys lower (_entries d ++ [{| word := w; source := src; frequency := 0;
                                                 added_at := now; category := cat |}]))
            ∧ lower w ∈ keys lower (_entries d ++ [{| word := w; source := src;
                                                      frequency := 0; added_at := now;
                                                      category := cat |}])) as [H1 H2].
    { rewrite keys_app. unfold keys at 2 4. cbn. split.
      - apply NoDup_app. split_and!; [done| |apply NoDup_singleton].
        intros x Hx Hx'. apply list_elem_of_singleton in Hx'. by subst x.
      - apply elem_of_app. right. apply list_elem_of_here. }
    rewrite save_eq. destruct io as [[]|e]; cbn [fst snd _entries _corrections set_entries
                                                    set_saved];
      (split_and!; try done); rewrite fmap_app; by apply prefix_app_r.
Qed.

Lemma add_word_keeps_words_distinct_witness :
  NoDup (keys ascii_lower (_entries demo_dictionary)) ∧
  NoDup (keys ascii_lower
           (_entries (add_word ascii_lower "2025-02-01T00:00:00" (Return tt)
                        "KUBERNETES" "manual" "general" demo_dictionary).2)).
Proof.
  assert (NoDup (keys ascii_lower (_entries demo_dictionary))) as H.
  { apply (bool_decide_unpack _). by vm_compute. }
  destruct (add_word_keeps_words_distinct ascii_lower "2025-02-01T00:00:00" (Return tt)
              "KUBERNETES" "manual" "general" demo_dictionary H) as (H1 & _).
  exact (conj H H1).
Defined.

(** X20. [add_word] of a word that is already there, in any case, only
    counts it: the first entry with that word gets its frequency raised by
    one, no entry is added and nothing else changes. The method returns
    without calling [save], whatever the write would have answered. *)
Theorem add_word_duplicate_not_saved (lower : string → string) (now : string)
        (io : outcome unit) (w src cat : string) (d : t) :
  lower w ∈ keys lower (_entries d) →
  ∃ l1 entry l2,
    _entries d = l1 ++ entry :: l2 ∧
    lower (word entry) = lower w ∧ (lower w ∉ keys lower l1) ∧
    add_word lower now io w src cat d
    = (Return tt, set_entries (l1 ++ bumped entry :: l2) d) ∧
    saved (add_word lower now io w src cat d).2 = saved d.
Proof.
  intros Hin. rewrite add_word_eq.
  destruct (bump_first lower w (_entries d)) as [entries'|] eqn:Hb.
  - destruct (bump_first_Some _ _ _ _ Hb) as (l1 & e & l2 & Heq & He & Hn & ->).
    by exists l1, e, l2.
  - by apply bump_first_None in Hb.
Qed.

Lemma add_word_duplicate_not_saved_witness :
  (ascii_lower "KUBERNETES" ∈ keys ascii_lower (_entries demo_dictionary)) ∧
  saved (add_word ascii_lower "2025-02-01T00:00:00" (Return tt)
          "KUBERNETES" "manual" "general" demo_dictionary).2 = None.
Proof.
  assert (ascii_lower "KUBERNETES" ∈ keys ascii_lower (_entries demo_dictionary)) as H.
  { apply (bool_decide_unpack _). by vm_compute. }
  destruct (add_word_duplicate_not_saved ascii_lower "2025-02-01T00:00:00" (Return tt)
              "KUBERNETES" "manual" "general" demo_dictionary H)
    as (l1 & e & l2 & _ & _ & _ & _ & H5).
  exact (conj H H5).
Defined.

Lemma pop_first_absent lower w entries :
  lower w ∉ keys lower entries → pop_first lower w entries = None.
Proof.
  induction entries as [|entry rest IH]; [done|]. unfold keys. cbn.
  rewrite not_elem_of_cons. intros [Hne Hn].
  destruct (String.eqb _ _) eqn:E.
  - apply String.eqb_eq in E. congruence.
  - by rewrite IH.
Qed.

Lemma pop_first_snoc lower w entries entry :
  lower w ∉ keys lower entries → lower (word entry) = lower w →
  pop_first lower w (entries ++ [entry]) = Some entries.
Proof.
  intros Hn He. induction entries as [|e rest IH]; cbn.
  { by rewrite He, String.eqb_refl. }
  unfold keys in Hn. cbn in Hn. rewrite not_elem_of_cons in Hn. destruct Hn as [Hne Hn].
  destruct (String.eqb _ _) eqn:E.
  - apply String.eqb_eq in E. congruence.
  - by rewrite IH.
Qed.

(** X21. [remove_word] of a word that is not there, in any case, answers
    [False] and changes and saves nothing. Adding such a word and removing
    it again, each save returning, answers [True] and gives back the
    entries there were, which the last save wrote. *)
Theorem remove_undoes_add (lower : string → string) (now : string) (io : outcome unit)
        (w src cat : string) (d : t) :
  lower w ∉ keys lower (_entries d) →
  remove_word lower io w d = (Return false, d) ∧
  remove_word lower (Return tt) w (add_word lower now (Return tt) w src cat d).2
  = (Return true, set_saved (Some (_entries d, _corrections d)) d).
Proof.
  intros Hn. split.
  { by rewrite remove_word_eq, pop_first_absent. }
  rewrite add_word_eq.
  replace (bump_first lower w (_entries d)) with (@None (list DictionaryEntry))
    by (symmetry; by apply bump_first_None).
  rewrite save_eq. cbn [snd]. rewrite remove_word_eq.
  cbn [_entries set_entries set_saved]. rewrite pop_first_snoc by done.
  rewrite save_eq. by destruct d.
Qed.

Lemma remove_undoes_add_witness :
  (ascii_lower "Rocq" ∉ keys ascii_lower (_entries demo_dictionary)) ∧
  _entries (remove_word ascii_lower (Return tt) "ROCQ"
              (add_word ascii_lower "2025-02-01T00:00:00" (Return tt)
                 "ROCQ" "manual" "general" demo_dictionary).2).2
  = _entries demo_dictionary.
Proof.
  assert (ascii_lower "Rocq" ∉ keys ascii_lower (_entries demo_dictionary)) as H.
  { apply (bool_decide_unpack _). by vm_compute. }
  assert (ascii_lower "ROCQ" ∉ keys ascii_lower (_entries demo_dictionary)) as H'.
  { apply (bool_decide_unpack _). by vm_compute. }
  destruct (remove_undoes_add ascii_lower "2025-02-01T00:00:00" (Return tt)
              "ROCQ" "manual" "general" demo_dictionary H') as [_ H2].
  split; [exact H|]. by rewrite H2.
Defined.

Lemma elem_of_List_filter {A} (p : A → bool) (l : list A) (x : A) :
  x ∈ List.filter p l ↔ x ∈ l ∧ p x = true.
Proof. by rewrite !list_elem_of_In, filter_In. Qed.

Lemma elem_of_fromkeys w words : w ∈ fromkeys words ↔ w ∈ words.
Proof.
  induction words as [|x rest IH]; [done|]. cbn [fromkeys].
  rewrite !elem_of_cons, elem_of_List_filter, IH.
  destruct (String.eqb w x) eqn:E.
  - apply String.eqb_eq in E. split; [|by left]. by left.
  - apply String.eqb_neq in E. split; [intros [?|[? _]]; auto|].
    intros [?|?]; [done|]. by right.
Qed.

Lemma NoDup_List_filter {A} (p : A → bool) (l : list A) :
  NoDup l → NoDup (List.filter p l).
Proof.
  induction 1 as [|x l Hx Hl IH]; cbn; [constructor|].
  destruct (p x); [|done]. constructor; [|done].
  rewrite elem_of_List_filter. by intros [? _].
Qed.

Lemma NoDup_fromkeys words : NoDup (fromkeys words).
Proof.
  induction words as [|x rest IH]; cbn [fromkeys]; constructor.
  - rewrite elem_of_List_filter. intros [_ H]. by rewrite String.eqb_refl in H.
  - by apply NoDup_List_filter.
Qed.

(** X22. The prompt names each word once: [build_initial_prompt] answers
    [None] exactly when no entry was added by hand or counted up to the
    threshold and no correction was confirmed up to it; otherwise the
    answer is "Context words: ", a list separated by ", ", and ".", where
    the list has no word twice and holds exactly the words of such entries
    and the corrected forms of such corrections. *)
Theorem prompt_names_each_word_once (promotion_threshold : Z) (d : t) :
  ∃ words,
    NoDup words ∧
    (∀ w, w ∈ words ↔
          (∃ entry, entry ∈ _entries d ∧ word entry = w ∧
                    (source entry = "manual" ∨ (promotion_threshold ≤ frequency entry)%Z)) ∨
          (∃ p, p ∈ _corrections d ∧ corrected p = w ∧
                (promotion_threshold ≤ count p)%Z)) ∧
    build_initial_prompt promotion_threshold d
    = match words with
      | [] => None
      | _ => Some (String.append "Context words: "
                     (String.append (String.concat ", " words) "."))
      end.
Proof.
  exists (fromkeys (prompt_words promotion_threshold d)).
  split; [apply NoDup_fromkeys|]. split.
  - intros w. rewrite elem_of_fromkeys. unfold prompt_words.
    rewrite elem_of_app, !list_elem_of_fmap. split.
    + intros [(e & -> & He)|(p & -> & Hp)].
      * apply elem_of_List_filter in He. destruct He as [He Hq]. left. exists e.
        split_and!; try done. apply orb_true_iff in Hq.
        destruct Hq as [Hq|Hq]; [left; by apply String.eqb_eq|right; lia].
      * apply elem_of_List_filter in Hp. destruct Hp as [Hp Hq]. right. exists p.
        split_and!; try done. lia.
    + intros [(e & He & <- & Hq)|(p & Hp & <- & Hq)].
      * left. exists e. split; [done|]. apply elem_of_List_filter. split; [done|].
        apply orb_true_iff. destruct Hq as [Hq|Hq]; [left; by apply String.eqb_eq|right; lia].
      * right. exists p. split; [done|]. apply elem_of_List_filter. split; [done|]. lia.
  - unfold build_initial_prompt.
    destruct (prompt_words promotion_threshold d) as [|w ws]; done.
Qed.

Lemma count_first_absent lower now h c pairs :
  Forall (fun p => same_correction lower h c p = false) pairs →
  count_first lower now h c pairs = None.
Proof.
  induction 1 as [|p rest Hp _ IH]; [done|]. cbn.
  unfold same_correction in Hp. by rewrite Hp, IH.
Qed.

Lemma count_first_snoc lower now now' h c pairs n :
  Forall (fun p => same_correction lower h c p = false) pairs →
  count_first lower now h c
    (pairs ++ [{| heard := h; corrected := c; count := n; last_seen := now' |}])
  = Some (pairs ++ [{| heard := h; corrected := c; count := (n + 1)%Z; last_seen := now |}]).
Proof.
  induction 1 as [|p rest Hp _ IH]; cbn.
  { by rewrite !String.eqb_refl. }
  unfold same_correction in Hp. by rewrite Hp, IH.
Qed.

Lemma corrections_run_snoc lower h c nows now (d : t) :
  corrections_run lower h c (nows ++ [now]) d
  = (add_correction lower now (Return tt) h c (corrections_run lower h c nows d)).2.
Proof. unfold corrections_run. by rewrite foldl_app. Qed.

(** X23. A correction is counted once per report: after [add_correction]
    has been called n >= 1 times with a pair the dictionary did not hold,
    the dictionary holds the pairs it had followed by that pair with count
    n and the time of the last call, the entries are untouched and the
    last save wrote exactly that. The corrected form is then among the prompt
    words as soon as n reaches the promotion threshold. *)
Theorem correction_counted_per_report (lower : string → string) (h c : string)
        (nows : list string) (last_now : string) (d : t) :
  Forall (fun p => same_correction lower h c p = false) (_corrections d) →
  let d' := corrections_run lower h c (nows ++ [last_now]) d in
  _corrections d'
  = _corrections d ++ [{| heard := h; corrected := c;
                          count := Z.of_nat (length nows) + 1; last_seen := last_now |}] ∧
  _entries d' = _entries d ∧
  saved d' = Some (_entries d', _corrections d') ∧
  ∀ promotion_threshold,
    (promotion_threshold ≤ Z.of_nat (length nows) + 1)%Z →
    c ∈ prompt_words promotion_threshold d'.
Proof.
  intros Habs. cbv zeta.
  assert (_corrections (corrections_run lower h c (nows ++ [last_now]) d)
          = _corrections d ++ [{| heard := h; corrected := c;
                                  count := Z.of_nat (length nows) + 1;
                                  last_seen := last_now |}]
          ∧ _entries (corrections_run lower h c (nows ++ [last_now]) d) = _entries d
          ∧ saved (corrections_run lower h c (nows ++ [last_now]) d)
            = Some (_entries (corrections_run lower h c (nows ++ [last_now]) d),
                    _corrections (corrections_run lower h c (nows ++ [last_now]) d)))
    as (H1 & H2 & H3).
  { revert last_now. induction nows as [|now nows IH] using rev_ind; intros last_now.
    - cbn. rewrite add_correction_eq, count_first_absent by done. by rewrite save_eq.
    - rewrite corrections_run_snoc. destruct (IH now) as (IH1 & IH2 & IH3).
      rewrite add_correction_eq, IH1, (count_first_snoc _ _ now) by done.
      rewrite save_eq. cbn. rewrite IH2. split_and!; try done.
      rewrite length_app. cbn. do 3 f_equal. lia. }
  split_and!; try done.
  intros th Hth. unfold prompt_words. apply elem_of_app. right. rewrite H1.
  rewrite List.filter_app, fmap_app. apply elem_of_app. right. cbn.
  replace (th <=? Z.of_nat (length nows) + 1)%Z with true by lia. cbn.
  apply list_elem_of_here.
Qed.

Lemma correction_counted_per_report_witness :
  Forall (fun p => same_correction ascii_lower "get hub" "GitHub" p = false)
         (_corrections demo_dictionary) ∧
  "GitHub" ∈ prompt_words 2 (corrections_run ascii_lower "get hub" "GitHub"
                               (["2025-03-01T00:00:00"] ++ ["2025-03-02T00:00:00"])
                               demo_dictionary).
Proof.
  assert (Forall (fun p => same_correction ascii_lower "get hub" "GitHub" p = false)
                 (_corrections demo_dictionary)) as H.
  { repeat constructor. }
  destruct (correction_counted_per_report ascii_lower "get hub" "GitHub"
              ["2025-03-01T00:00:00"] "2025-03-02T00:00:00" demo_dictionary H)
    as (_ & _ & _ & H4).
  split; [exact H|]. apply H4. done.
Defined.

End DictionaryProps.

(** * The pipeline *)

Arguments Pipeline._process_audio : simpl never.
Arguments Pipeline.after_transcription : simpl never.
Arguments Pipeline.post_transcription : simpl never.
Arguments Pipeline.save_history : simpl never.
Arguments Pipeline.load_stt : simpl never.
Arguments Pipeline.transcribe : simpl never.
Arguments Pipeline._get_correction_context : simpl never.
Arguments Pipeline._get_dictionary_prompt : simpl never.

Section PipelineProps.

Import Pipeline.

Variable strip : string → string.

Lemma untouched_refl a : untouched a a.
Proof. by unfold untouched. Qed.

Lemma untouched_trans a b c : untouched a b → untouched b c → untouched a c.
Proof.
  unfold untouched. intros (H1 & H2 & H3 & H4 & H5) (H1' & H2' & H3' & H4' & H5').
  split_and!; congruence.
Qed.

Lemma untouched_log lvl msg (a : LinuxWhispr.t * Runtime) :
  untouched a (a.1, log_at lvl msg a.2).
Proof. by unfold untouched. Qed.

Lemma settled_set_state final (a b : LinuxWhispr.t * Runtime) :
  untouched a b → settled final a (LinuxWhispr._set_state final b).2.
Proof.
  intros (H1 & H2 & H3 & H4 & H5). destruct b as [w r]. cbn [fst snd] in *.
  rewrite _set_state_eq. cbn [fst snd]. unfold settled. cbn [fst snd].
  rewrite H1. fields. split_and!; congruence.
Qed.

Lemma settled_untouched final a b c : settled final a b → untouched b c → settled final a c.
Proof.
  unfold settled, untouched. intros (H1 & H2 & H3 & H4 & H5) (H1' & H2' & H3' & H4' & H5').
  split_and!; congruence.
Qed.

Ltac calls_done :=
  rewrite ?String.eqb_refl; split_and!; try done;
  rewrite <- ?app_assoc; eexists; (split; [reflexivity|]); cbn; by split_and!.

Ltac pipe_unfold :=
  unfold call, log, on_app, locals, try_except, when in *; py_unfold; cbn [fst snd] in *.

(** The [try] block touches the application only through the log. *)
Lemma post_transcription_untouched c raw_text (s : State * Locals) :
  untouched (app s.1) (app (post_transcription c raw_text s).2.1).
Proof.
  destruct s as [s l]. unfold post_transcription. pipe_unfold. unfold logger, modify.
  destruct (snippets_expand_outcome c) as [expand|]; cbn;
    [destruct (expand (final_text l)) as [expanded|e]; cbn; [|apply untouched_refl];
     destruct (negb (String.eqb expanded raw_text)); cbn|];
    (destruct (refinement_refine_outcome c) as [refine|]; cbn;
     [match goal with
      | |- context [refine ?t ?a ?d] =>
          destruct (refine t a d) as [refined|e]; cbn; [|by unfold untouched]
      end;
      match goal with
      | |- context [negb (String.eqb ?r ?t)] =>
          destruct (negb (String.eqb r t)); cbn
      end|]);
    match goal with
    | |- context [injector_inject_outcome c ?t] =>
        destruct (injector_inject_outcome c t) as [[]|e]; cbn
    end; by unfold untouched.
Qed.

Lemma filter_calls_app (p : Call → bool) l1 l2 :
  List.filter p (l1 ++ l2) = List.filter p l1 ++ List.filter p l2.
Proof. apply List.filter_app. Qed.

(** The [try] block, by the text it computes. *)
Lemma post_transcription_spec c raw_text (s : State) (l : Locals) :
  final_text l = raw_text → refined_text l = None → success l = false →
  let r := post_transcription c raw_text (s, l) in
  _last_raw_text r.2.1 = _last_raw_text s ∧ _last_duration r.2.1 = _last_duration s ∧
  _last_language r.2.1 = _last_language s ∧
  refined_text r.2.2 = refined_text_of c raw_text ∧
  ∃ new, calls r.2.1 = calls s ++ new ∧ List.filter is_history_add new = [] ∧
    match text_to_inject c raw_text with
    | Raise e =>
        r.1 = Raise e ∧ List.filter is_injector_inject new = [] ∧ success r.2.2 = false
    | Return text =>
        List.filter is_injector_inject new = [injector_inject text] ∧
        final_text r.2.2 = text ∧
        match injector_inject_outcome c text with
        | Return ok => r.1 = Return tt ∧ success r.2.2 = ok
        | Raise e => r.1 = Raise e ∧ success r.2.2 = false
        end
    end.
Proof.
  intros Hft Hrt Hok. destruct l as [ft rt ok]. cbn in Hft, Hrt, Hok. subst ft rt ok.
  cbv zeta. unfold post_transcription, text_to_inject, refined_text_of, expanded_text,
    refined_of.
  pipe_unfold. unfold logger, modify. cbn.
  destruct (snippets_expand_outcome c) as [expand|]; cbn.
  - destruct (expand raw_text) as [expanded|e]; cbn; [|calls_done].
    destruct (refinement_refine_outcome c) as [refine|]; cbn.
    + destruct (negb (String.eqb expanded raw_text)); cbn;
        (destruct (refine expanded (window_name_for_refinement c)
                     (_get_correction_context c)) as [refined|e]; cbn; [|calls_done]);
        (destruct (String.eqb refined expanded) eqn:E;
         [apply String.eqb_eq in E; subst refined|]; cbn;
         match goal with
         | |- context [injector_inject_outcome c ?t] =>
             destruct (injector_inject_outcome c t) as [[]|e]; cbn
         end; calls_done).
    + destruct (negb (String.eqb expanded raw_text)); cbn;
        (destruct (injector_inject_outcome c expanded) as [[]|e]; cbn; calls_done).
  - destruct (refinement_refine_outcome c) as [refine|]; cbn.
    + destruct (refine raw_text (window_name_for_refinement c)
                  (_get_correction_context c)) as [refined|e]; cbn; [|calls_done].
      destruct (String.eqb refined raw_text) eqn:E;
        [apply String.eqb_eq in E; subst refined|]; cbn;
        match goal with
        | |- context [injector_inject_outcome c ?t] =>
            destruct (injector_inject_outcome c t) as [[]|e]; cbn
        end; calls_done.
    + destruct (injector_inject_outcome c raw_text) as [[]|e]; cbn; calls_done.
Qed.

Lemma save_history_spec c raw_text duration language (s : State) (l : Locals) :
  let r := save_history c raw_text duration language (s, l) in
  r.1 = Return tt ∧ untouched (app s) (app r.2.1) ∧ r.2.2 = l ∧
  _last_raw_text r.2.1 = _last_raw_text s ∧ _last_duration r.2.1 = _last_duration s ∧
  _last_language r.2.1 = _last_language s ∧
  calls r.2.1
  = calls s ++ (if history_add_outcome c is Some _
                then [history_add raw_text (refined_text l) duration
                        (window_name_for_history c) language]
                else []).
Proof.
  cbv zeta. unfold save_history. pipe_unfold. unfold logger, modify.
  destruct (history_add_outcome c) as [add|]; cbn.
  - destruct (add raw_text (refined_text l)) as [[]|e]; cbn; by unfold untouched.
  - rewrite app_nil_r. by unfold untouched.
Qed.

(** [after_transcription] on a transcription with text, step by step. *)
Lemma after_transcription_eq c duration result (s : State) (l : Locals) :
  strip (text result) ≠ "" →
  after_transcription strip c duration result (s, l) =
  let raw_text := strip (text result) in
  let s1 := set_app ((app s).1, log_at INFO "Transcribed: %s" (app s).2)
              (set_last raw_text duration (language result)
                 (add_call (emit_stt_complete (text result) (language result)) s)) in
  let p := post_transcription c raw_text
             (s1, {| final_text := raw_text; refined_text := None; success := false |}) in
  let s2 := match p.1 with
            | Return _ => p.2.1
            | Raise _ =>
                set_app ((app p.2.1).1,
                         log_at LOG_ERROR "Post-transcription pipeline failed" (app p.2.1).2)
                        p.2.1
            end in
  let h := save_history c raw_text duration (language result) (s2, p.2.2) in
  let w := match adaptive_start_watching_outcome c with
           | Some start_watching =>
               if success h.2.2
               then (start_watching (final_text h.2.2),
                     (add_call (adaptive_start_watching (final_text h.2.2)) h.2.1, h.2.2))
               else (Return tt, h.2)
           | None => (Return tt, h.2)
           end in
  match w.1 with
  | Raise e => (Raise e, w.2)
  | Return _ =>
      (Return tt, (set_app (LinuxWhispr._set_state IDLE (app w.2.1)).2 w.2.1, w.2.2))
  end.
Proof.
  intros Hne. unfold after_transcription.
  apply String.eqb_neq in Hne. rewrite Hne. cbv zeta.
  unfold try_except, call, log, locals, on_app, logger, modify, log_at. py_unfold.
  cbn [fst snd].
  destruct (post_transcription c _ _) as [[[]|e] [s2 l2]]; cbn [fst snd];
    (pose proof (save_history_spec c (strip (text result)) duration (language result))
       as Hh; cbv zeta in Hh;
     match goal with
     | |- context [save_history _ _ _ _ (?sa, ?la)] =>
         destruct (Hh sa la) as (Hh1 & _); clear Hh;
         destruct (save_history _ _ _ _ (sa, la)) as [oh [s3 l3]]
     end; cbn [fst snd] in *; subst oh;
     destruct (adaptive_start_watching_outcome c) as [start_watching|]; cbn [fst snd];
     [destruct (success l3); cbn [fst snd];
      [destruct (start_watching (final_text l3)) as [[]|e']; cbn [fst snd]|]|];
     try done;
     match goal with
     | |- context [LinuxWhispr._set_state IDLE ?x] =>
         rewrite (_set_state_eq IDLE x.1 x.2) || destruct x as [w r]; rewrite ?_set_state_eq
     end; done).
Qed.

Lemma settled_of_untouched (a b : LinuxWhispr.t * Runtime) :
  untouched a b → settled IDLE a (LinuxWhispr._set_state IDLE b).2.
Proof. apply settled_set_state. Qed.

(** What follows a transcription with text. *)
Lemma after_transcription_spec c duration result (s : State) (l : Locals) :
  strip (text result) ≠ "" →
  ∀ r, r = after_transcription strip c duration result (s, l) →
  _last_raw_text r.2.1 = strip (text result) ∧ _last_duration r.2.1 = duration ∧
  _last_language r.2.1 = language result ∧
  r.1 = watch_outcome c (strip (text result)) ∧
  (if raises r.1 then untouched (app s) (app r.2.1) else settled IDLE (app s) (app r.2.1)) ∧
  ∃ new,
    calls r.2.1 = calls s ++ emit_stt_complete (text result) (language result) :: new ∧
    List.filter is_history_add new
    = (if history_add_outcome c is Some _
       then [history_add (strip (text result)) (refined_text_of c (strip (text result)))
               duration (window_name_for_history c) (language result)]
       else []) ∧
    List.filter is_injector_inject new
    = match text_to_inject c (strip (text result)) with
      | Return text => [injector_inject text]
      | Raise _ => []
      end.
Proof.
  intros Hne r ->. rewrite after_transcription_eq by done. cbv zeta.
  match goal with
  | |- context [post_transcription c ?raw (?s1, ?l1)] =>
      pose proof (post_transcription_untouched c raw (s1, l1)) as Hu;
      destruct (post_transcription_spec c raw s1 l1 eq_refl eq_refl eq_refl)
        as (L1 & L2 & L3 & Hrt & new & Hcalls & Hhist & Hinj);
      destruct (post_transcription c raw (s1, l1)) as [o [s2 l2]]
  end.
  cbn [fst snd app set_app set_last add_call _last_raw_text _last_duration _last_language
       calls] in *.
  assert (untouched (app s) (app s2)) as Hu2.
  { eapply untouched_trans; [|exact Hu]. by unfold untouched. }
  clear Hu.
  set (sa := match o with
             | Return _ => s2
             | Raise _ => _
             end).
  assert (untouched (app s) (app sa) ∧ calls sa = calls s2
          ∧ _last_raw_text sa = _last_raw_text s2
          ∧ _last_duration sa = _last_duration s2
          ∧ _last_language sa = _last_language s2) as (Hua & Ca & M1 & M2 & M3).
  { subst sa. destruct o as [[]|e]; [by split_and!|].
    split_and!; try reflexivity.
    eapply untouched_trans; [exact Hu2|]. apply untouched_log. }
  clearbody sa.
  pose proof (save_history_spec c (strip (text result)) duration (language result) sa l2)
    as Hh.
  cbv zeta in Hh. destruct Hh as (Hh1 & Hh2 & Hh3 & Hh4 & Hh5 & Hh6 & Hh7).
  destruct (save_history c (strip (text result)) duration (language result) (sa, l2))
    as [oh [s3 l3]].
  cbn [fst snd] in *. subst oh l3.
  assert (untouched (app s) (app s3)) as Hu3 by (by eapply untouched_trans).
  assert (calls s3 = calls s ++ emit_stt_complete (text result) (language result)
                       :: (new ++ (if history_add_outcome c is Some _
                                   then [history_add (strip (text result))
                                           (refined_text_of c (strip (text result)))
                                           duration (window_name_for_history c)
                                           (language result)]
                                   else []))) as Hc3.
  { rewrite Hh7, Ca, Hcalls, Hrt, <- !app_assoc. done. }
  assert (List.filter is_history_add
            (new ++ (if history_add_outcome c is Some _
                     then [history_add (strip (text result))
                             (refined_text_of c (strip (text result)))
                             duration (window_name_for_history c) (language result)]
                     else []))
          = (if history_add_outcome c is Some _
             then [history_add (strip (text result))
                     (refined_text_of c (strip (text result)))
                     duration (window_name_for_history c) (language result)]
             else [])) as Hf3.
  { rewrite filter_calls_app, Hhist. by destruct (history_add_outcome c). }
  assert (List.filter is_injector_inject
            (new ++ (if history_add_outcome c is Some _
                     then [history_add (strip (text result))
                             (refined_text_of c (strip (text result)))
                             duration (window_name_for_history c) (language result)]
                     else []))
          = List.filter is_injector_inject new) as Hi3.
  { rewrite filter_calls_app. destruct (history_add_outcome c); cbn; by rewrite app_nil_r. }
  unfold watch_outcome, watched_text.
  destruct (text_to_inject c (strip (text result))) as [text|e] eqn:Htext.
  - destruct Hinj as (Hinj1 & Hft & Hinj2).
    destruct (injector_inject_outcome c text) as [ok|e]; destruct Hinj2 as [-> Hok].
    + destruct (adaptive_start_watching_outcome c) as [start_watching|].
      * rewrite Hok, Hft. destruct ok; cbn [fst snd].
        -- destruct (start_watching text) as [[]|e]; cbn [fst snd raises
                 _last_raw_text _last_duration _last_language add_call set_app app calls].
           ++ split_and!; try congruence. { by apply settled_of_untouched. }
              eexists (_ ++ [_]). rewrite Hc3.
              split; [by rewrite <- app_assoc|]. rewrite (filter_calls_app is_history_add), Hf3,
                (filter_calls_app is_injector_inject), Hi3, Hinj1.
              cbn. by rewrite !app_nil_r.
           ++ split_and!; try congruence.
              eexists (_ ++ [_]). rewrite Hc3.
              split; [by rewrite <- app_assoc|]. rewrite (filter_calls_app is_history_add), Hf3,
                (filter_calls_app is_injector_inject), Hi3, Hinj1.
              cbn. by rewrite !app_nil_r.
        -- cbn [fst snd raises _last_raw_text _last_duration _last_language set_app app
                calls].
           split_and!; try congruence. { by apply settled_of_untouched. }
           eexists. rewrite Hc3. split; [done|]. by rewrite Hf3, Hi3, Hinj1.
      * destruct ok; cbn [fst snd raises _last_raw_text _last_duration _last_language
                          set_app app calls];
          (split_and!; try congruence; [by apply settled_of_untouched|]);
          eexists; rewrite Hc3; (split; [done|]); by rewrite Hf3, Hi3, Hinj1.
    + assert ((match adaptive_start_watching_outcome c with
               | Some start_watching =>
                   if success l2
                   then (start_watching (final_text l2),
                         (add_call (adaptive_start_watching (final_text l2)) s3, l2))
                   else (Return tt, (s3, l2))
               | None => (Return tt, (s3, l2))
               end : outcome unit * (State * Locals)) = (Return tt, (s3, l2))) as ->.
      { rewrite Hok. by destruct (adaptive_start_watching_outcome c). }
      cbn [fst snd raises _last_raw_text _last_duration _last_language set_app app calls].
      split_and!; try congruence. { by apply settled_of_untouched. }
      eexists. rewrite Hc3. split; [done|]. by rewrite Hf3, Hi3, Hinj1.
  - destruct Hinj as (-> & Hinj1 & Hok).
    assert ((match adaptive_start_watching_outcome c with
             | Some start_watching =>
                 if success l2
                 then (start_watching (final_text l2),
                       (add_call (adaptive_start_watching (final_text l2)) s3, l2))
                 else (Return tt, (s3, l2))
             | None => (Return tt, (s3, l2))
             end : outcome unit * (State * Locals)) = (Return tt, (s3, l2))) as ->.
    { rewrite Hok. by destruct (adaptive_start_watching_outcome c). }
    cbn [fst snd raises _last_raw_text _last_duration _last_language set_app app calls].
    split_and!; try congruence. { by apply settled_of_untouched. }
    eexists. rewrite Hc3. split; [done|]. by rewrite Hf3, Hi3, Hinj1.
Qed.

Lemma load_stt_spec c (s : State) (l : Locals) :
  ∃ s', load_stt c (s, l)
        = (if stt_is_loaded c then Return tt else stt_load_outcome c, (s', l)) ∧
        untouched (app s) (app s') ∧
        calls s' = calls s ++ (if stt_is_loaded c then [] else [emit_stt_started; stt_load]).
Proof.
  unfold load_stt. pipe_unfold. unfold logger, modify.
  destruct (stt_is_loaded c); cbn [negb fst snd].
  - exists s. rewrite app_nil_r. split_and!; try done.
  - eexists. split; [by destruct (stt_load_outcome c) as [[]|e]|].
    cbn. rewrite <- app_assoc. by unfold untouched.
Qed.

Lemma transcribe_spec c wav_bytes (s : State) (l : Locals) :
  ∃ s', (transcribe c wav_bytes (s, l)).2 = (s', l) ∧
        _last_raw_text s' = _last_raw_text s ∧ _last_duration s' = _last_duration s ∧
        _last_language s' = _last_language s ∧
        match transcription c wav_bytes with
        | Return result =>
            (transcribe c wav_bytes (s, l)).1 = Return (Some result) ∧
            untouched (app s) (app s') ∧
            calls s' = calls s ++ [stt_transcribe wav_bytes (config_stt_language c)
                                                  (_get_dictionary_prompt c)]
        | Raise _ =>
            (transcribe c wav_bytes (s, l)).1 = Return None ∧
            settled ERROR (app s) (app s') ∧
            calls s' = calls s ++ [stt_transcribe wav_bytes (config_stt_language c)
                                                  (_get_dictionary_prompt c);
                                   notify "Transcription Failed" "Check logs for details"
                                          "critical"]
        end.
Proof.
  unfold transcribe, transcription. pipe_unfold. unfold logger, modify.
  destruct (stt_transcribe_outcome c wav_bytes (config_stt_language c)
              (_get_dictionary_prompt c)) as [result|e]; cbn [fst snd].
  - eexists. split; [done|]. split_and!; try done; apply untouched_refl.
  - match goal with
    | |- context [LinuxWhispr._set_state ERROR ?x] =>
        pose proof (settled_set_state ERROR (app s) x) as Hs;
        rewrite (surjective_pairing x), _set_state_eq in *
    end.
    cbn [fst snd] in *. eexists. split; [done|]. cbn. rewrite <- app_assoc.
    split_and!; try done. apply Hs. by unfold untouched.
Qed.

Lemma bind_eq {S A B} (m : Py S A) (k : A → Py S B) (s : S) :
  bind m k s = match m s with
               | (Return a, s') => k a s'
               | (Raise e, s') => (Raise e, s')
               end.
Proof. done. Qed.

(** The run of the pipeline, by the answers of the backend. *)
Lemma run_cases c wav_bytes duration (s : LinuxWhispr.t * Runtime) :
  let res := run strip c wav_bytes duration s in
  let loading := if stt_is_loaded c then [] else [emit_stt_started; stt_load] in
  match (if stt_is_loaded c then Return tt else stt_load_outcome c) with
  | Raise e => res.1 = Raise e ∧ untouched s (app res.2) ∧ calls res.2 = loading
  | Return _ =>
      ∃ new,
        calls res.2
        = loading ++ [emit_stt_started;
                      stt_transcribe wav_bytes (config_stt_language c)
                                     (_get_dictionary_prompt c)] ++ new ∧
        match transcription c wav_bytes with
        | Raise _ =>
            res.1 = Return tt ∧ settled ERROR s (app res.2) ∧
            new = [notify "Transcription Failed" "Check logs for details" "critical"]
        | Return result =>
            if String.eqb (strip (text result)) "" then
              res.1 = Return tt ∧ settled IDLE s (app res.2) ∧ new = []
            else
              res.1 = watch_outcome c (strip (text result)) ∧
              (if raises res.1 then untouched s (app res.2)
               else settled IDLE s (app res.2)) ∧
              _last_raw_text res.2 = strip (text result) ∧
              _last_duration res.2 = duration ∧
              _last_language res.2 = language result ∧
              ∃ new',
                new = emit_stt_complete (text result) (language result) :: new' ∧
                List.filter is_history_add new'
                = (if history_add_outcome c is Some _
                   then [history_add (strip (text result))
                           (refined_text_of c (strip (text result)))
                           duration (window_name_for_history c) (language result)]
                   else []) ∧
                List.filter is_injector_inject new'
                = match text_to_inject c (strip (text result)) with
                  | Return text => [injector_inject text]
                  | Raise _ => []
                  end
        end
  end.
Proof.
  cbv zeta. unfold run, _process_audio.
  set (l0 := {| final_text := ""; refined_text := None; success := false |}).
  rewrite bind_eq.
  destruct (load_stt_spec c (State0 s) l0) as (s1 & -> & Hu1 & Hc1).
  cbn [calls State0 app] in Hu1, Hc1.
  destruct (if stt_is_loaded c then Return tt else stt_load_outcome c) as [[]|e];
    cbn [fst snd]; [|by split_and!].
  rewrite bind_eq.
  change (call emit_stt_started (Return tt) (s1, l0))
    with (Return tt, (add_call emit_stt_started s1, l0)).
  cbn [fst snd]. rewrite bind_eq.
  destruct (transcribe_spec c wav_bytes (add_call emit_stt_started s1) l0)
    as (s2 & Hs2 & M1 & M2 & M3 & Ht).
  destruct (transcribe c wav_bytes (add_call emit_stt_started s1, l0)) as [o s2'].
  cbn [fst snd calls add_call app] in *. subst s2'.
  destruct (transcription c wav_bytes) as [result|e].
  - destruct Ht as (-> & Hu2 & Hc2).
    assert (untouched s (app s2)) as Hu by (by eapply untouched_trans).
    destruct (String.eqb (strip (text result)) "") eqn:Hblank.
    + unfold after_transcription. rewrite Hblank.
      unfold log, on_app, logger, modify. py_unfold. cbn [fst snd].
      match goal with
      | |- context [LinuxWhispr._set_state IDLE ?x] =>
          pose proof (settled_set_state IDLE s x) as Hs;
          rewrite (surjective_pairing x), _set_state_eq in *
      end.
      cbn [fst snd calls set_app app] in *. exists [].
      rewrite Hc2, Hc1, <- !app_assoc. split; [done|]. split_and!; try done.
      apply Hs. eapply untouched_trans; [exact Hu|]. by unfold untouched.
    + apply String.eqb_neq in Hblank.
      destruct (after_transcription_spec c duration result s2 l0 Hblank _ eq_refl)
        as (L1 & L2 & L3 & Hres & Hst & new' & Hcalls & Hh & Hi).
      destruct (after_transcription strip c duration result (s2, l0)) as [o [s3 l3]].
      cbn [fst snd] in *.
      exists (emit_stt_complete (text result) (language result) :: new').
      rewrite Hcalls, Hc2, Hc1, <- !app_assoc. split; [done|].
      split_and!; try done.
      * destruct (raises o).
        -- by eapply untouched_trans.
        -- destruct Hu as (U1 & U2 & U3 & U4 & U5).
           destruct Hst as (S1 & S2 & S3 & S4 & S5).
           unfold settled. rewrite S1, S2, S3, S4, S5, U1, U2, U3, U4, U5. done.
      * eexists. by split_and!.
  - destruct Ht as (-> & Hst & Hc2). unfold ret. cbn [fst snd].
    eexists [_]. rewrite Hc2, Hc1, <- !app_assoc. split; [done|]. split_and!; try done.
    destruct Hu1 as (U1 & U2 & U3 & U4 & U5). cbn [app add_call] in Hst.
    destruct Hst as (S1 & S2 & S3 & S4 & S5).
    unfold settled. rewrite S1, S2, S3, S4, S5, U1, U2, U3, U4, U5. done.
Qed.

End PipelineProps.

Section PipelineRuns.

Import Pipeline.



(** X25. If the STT model is not loaded and loading it raises, the
    pipeline thread dies before the transcription: the exception leaves
    [_process_audio], no [_set_state] is called, and the application is
    as it was but for the log. A controller left in [PROCESSING] this way
    ignores every further trigger. *)
Theorem load_failure_leaves_processing (strip : string → string) (c : Components)
        (wav_bytes : list Z) (duration : Q) (s : LinuxWhispr.t * Runtime) (e : exn) :
  stt_is_loaded c = false → stt_load_outcome c = Raise e →
  let res := run strip c wav_bytes duration s in
  res.1 = Raise e ∧
  calls res.2 = [emit_stt_started; stt_load] ∧
  (app res.2).1 = s.1 ∧ emitted (app res.2).2 = emitted s.2 ∧
  threads (app res.2).2 = threads s.2 ∧
  (LinuxWhispr._state s.1 = PROCESSING →
   ∀ now pa,
     let h := LinuxWhispr._on_dictation_hotkey now pa (app res.2) in
     h.1 = Return tt ∧ h.2.1 = s.1 ∧ emitted h.2.2 = emitted s.2 ∧
     threads h.2.2 = threads s.2 ∧ pa_calls h.2.2 = pa_calls s.2).
Proof.
  intros Hl He. cbv zeta.
  pose proof (run_cases strip c wav_bytes duration s) as H. cbv zeta in H.
  rewrite Hl, He in H. destruct H as (H1 & (U1 & U2 & U3 & U4 & U5) & H3).
  split_and!; try done.
  intros Hst now pa. cbv zeta.
  destruct (app (run strip c wav_bytes duration s).2) as [w r]. cbn [fst snd] in *.
  rewrite _on_dictation_hotkey_eq, U1, Hst. cbn [fst snd]. by fields.
Qed.

Lemma load_failure_leaves_processing_witness :
  stt_is_loaded demo_unloaded = false ∧
  LinuxWhispr._state (app (run strip_spaces demo_unloaded [] 1 demo_processing).2).1
  = PROCESSING.
Proof.
  assert (stt_is_loaded demo_unloaded = false) as H1 by done.
  assert (stt_load_outcome demo_unloaded = Raise (RuntimeError "model file missing"))
    as H2 by done.
  destruct (load_failure_leaves_processing strip_spaces demo_unloaded [] 1 demo_processing
              _ H1 H2) as (_ & _ & H5 & _).
  split; [exact H1|]. rewrite H5. by vm_compute.
Defined.

Lemma filter_loading (p : Call → bool) (c : Components) :
  p emit_stt_started = false → p stt_load = false →
  List.filter p (if stt_is_loaded c then [] else [emit_stt_started; stt_load]) = [].
Proof. intros H1 H2. destruct (stt_is_loaded c); cbn; by rewrite ?H1, ?H2. Qed.

(** X26. Every transcription with text is written to the history, once:
    with a history set up and the STT model loaded or loading, the run
    calls [history.add] exactly when the transcription returned text that
    is not blank, with the stripped text, the duration it was given, the
    language of the result, and as refined text the refinement if there
    was one that returned and changed the text. This holds when the
    snippets, the refinement, the injector or the learner raise. *)
Theorem history_records_every_transcription (strip : string → string) (c : Components)
        (wav_bytes : list Z) (duration : Q) (s : LinuxWhispr.t * Runtime)
        (add : string → option string → outcome unit) :
  stt_ready c →
  history_add_outcome c = Some add →
  List.filter is_history_add (calls (run strip c wav_bytes duration s).2)
  = match transcription c wav_bytes with
    | Return result =>
        if String.eqb (strip (text result)) "" then []
        else [history_add (strip (text result))
                (refined_text_of c (strip (text result)))
                duration (window_name_for_history c) (language result)]
    | Raise _ => []
    end.
Proof.
  intros Hready Hadd.
  pose proof (run_cases strip c wav_bytes duration s) as H. cbv zeta in H.
  assert ((if stt_is_loaded c then Return tt else stt_load_outcome c) = Return tt) as Hl.
  { destruct Hready as [->| ->]; [done|by destruct (stt_is_loaded c)]. }
  rewrite Hl in H. destruct H as (new & -> & H).
  rewrite !List.filter_app, filter_loading by done. cbn [List.filter is_history_add app].
  destruct (transcription c wav_bytes) as [result|e].
  - destruct (String.eqb (strip (text result)) "").
    + by destruct H as (_ & _ & ->).
    + destruct H as (_ & _ & _ & _ & _ & new' & -> & Hh & _).
      cbn [List.filter is_history_add]. rewrite Hh, Hadd. done.
  - by destruct H as (_ & _ & ->).
Qed.

Lemma history_records_every_transcription_witness :
  stt_ready demo_components ∧
  List.filter is_history_add (calls (run strip_spaces demo_components [] 1 demo_processing).2)
  = [history_add "hello world" None 1 (Some "editor") (Some "en")].
Proof.
  assert (stt_ready demo_components) as H1 by (by left).
  pose proof (history_records_every_transcription strip_spaces demo_components [] 1
                demo_processing _ H1 eq_refl) as H.
  split; [exact H1|]. rewrite H. by vm_compute.
Defined.

(** X27. What is typed is the refinement of the expansion of the stripped
    transcription: after a transcription with text the injector is called
    at most once, with the text the snippets and then the refinement
    return (each skipped when not set up). If either of them raises, the
    injector is not called at all, and the run still returns with the
    controller settled in [IDLE]. *)
Theorem injects_refined_expansion (strip : string → string) (c : Components)
        (wav_bytes : list Z) (duration : Q) (s : LinuxWhispr.t * Runtime)
        (result : TranscriptionResult) :
  stt_ready c →
  transcription c wav_bytes = Return result →
  strip (text result) ≠ "" →
  let res := run strip c wav_bytes duration s in
  List.filter is_injector_inject (calls res.2)
  = match text_to_inject c (strip (text result)) with
    | Return text => [injector_inject text]
    | Raise _ => []
    end ∧
  (raises (text_to_inject c (strip (text result))) = true →
   res.1 = Return tt ∧ (app res.2).1 = LinuxWhispr.set_state IDLE s.1).
Proof.
  intros Hready Ht Hne. cbv zeta.
  pose proof (run_cases strip c wav_bytes duration s) as H. cbv zeta in H.
  assert ((if stt_is_loaded c then Return tt else stt_load_outcome c) = Return tt) as Hl.
  { destruct Hready as [->| ->]; [done|by destruct (stt_is_loaded c)]. }
  rewrite Hl, Ht in H. apply String.eqb_neq in Hne. rewrite Hne in H.
  destruct H as (new & Hc & H1 & H2 & _ & _ & _ & new' & -> & _ & Hi).
  split.
  - rewrite Hc, !List.filter_app, filter_loading by done.
    cbn [List.filter is_injector_inject app]. exact Hi.
  - intros Hr. assert (watch_outcome c (strip (text result)) = Return tt) as Hw.
    { unfold watch_outcome, watched_text.
      by destruct (text_to_inject c (strip (text result))). }
    rewrite H1, Hw in H2 |- *. cbn [raises] in H2. by destruct H2 as (S1 & _).
Qed.

Lemma injects_refined_expansion_witness :
  stt_ready demo_components ∧
  List.filter is_injector_inject
    (calls (run strip_spaces demo_components [] 1 demo_processing).2) = [].
Proof.
  assert (stt_ready demo_components) as H1 by (by left).
  assert (strip_spaces (text {| text := " hello world "; language := Some "en" |}) ≠ "")
    as H3 by (by vm_compute).
  destruct (injects_refined_expansion strip_spaces demo_components [] 1 demo_processing
              _ H1 eq_refl H3) as [H4 _].
  split; [exact H1|]. rewrite H4. by vm_compute.
Defined.

End PipelineRuns.
